(** * The extension container of the Falcon GraphQL server

    A shallow embedding of
    [packages/falcon-server/src/containers/ExtensionContainer.ts]:
    registration of extensions, merging of their GraphQL configuration into
    one server configuration, the pass-through resolvers bound to data
    sources, the request context builder and the aggregation of backend
    configurations.

    JavaScript values are a small universe of dynamically typed values;
    objects are association lists in enumeration order, compared and
    copied by value; the logger, the registry of extensions and the event
    emitter are threaded through a state-and-exception monad; whatever the
    container calls or loads from outside (data-source methods, context
    modifiers, initializers, the module loader, the file system, deepmerge,
    graphql-tools, the schema introspector, the event listeners) is a
    parameter. *)

From Stdlib Require Import String Ascii List ZArith Bool Lia DecimalString.
Import ListNotations.
Local Open Scope string_scope.
Local Open Scope list_scope.

Infix "^^" := String.append (at level 60, right associativity).

(** ** Values *)

(** Function objects.  [Extern] is a function defined outside the container
    (a data-source method, a context modifier, an extension initializer);
    [PassThrough] is the closure that [getExtensionGraphQLConfig] creates
    for one root-type field. *)
Inductive fn : Type :=
| Extern (name : string)
| PassThrough (dataSourceName fieldName : string).

#[local] Set Warnings "-register-all".

Inductive value : Type :=
| VUndefined
| VNull
| VBool (b : bool)
| VNumber (n : Z)
| VString (s : string)
| VArray (items : list value)
| VObject (props : list (string * value))
| VFunction (f : fn).

(** An object: the properties that can be read through it, in enumeration
    order (the order of insertion, for the keys the container deals with):
    its own and, for an instance of a class, the methods of its class.  The
    members every object inherits from [Object.prototype] ([constructor],
    [toString], ...) are left out. *)
Definition object : Type := list (string * value).

Inductive error : Type :=
| TypeError (msg : string)
| RangeError (msg : string)
| Error (msg : string).

Inductive outcome (A : Type) : Type :=
| Ret (a : A)
| Throw (e : error).
Arguments Ret {A} a.
Arguments Throw {A} e.

(** [typeof v]. *)
Definition typeof (v : value) : string :=
  match v with
  | VUndefined => "undefined"
  | VNull => "object"
  | VBool _ => "boolean"
  | VNumber _ => "number"
  | VString _ => "string"
  | VArray _ => "object"
  | VObject _ => "object"
  | VFunction _ => "function"
  end.

(** Truthiness, as [if (v)], [!v], [v ? a : b] and [v || d] read it.
    Numbers are integers here, so the only falsy number is zero. *)
Definition truthy (v : value) : bool :=
  match v with
  | VUndefined | VNull => false
  | VBool b => b
  | VNumber n => negb (n =? 0)%Z
  | VString s => negb (s =? "")
  | VArray _ | VObject _ | VFunction _ => true
  end.

(** [Array.isArray(v)]. *)
Definition isArray (v : value) : bool :=
  match v with VArray _ => true | _ => false end.

Definition fn_eqb (f g : fn) : bool :=
  match f, g with
  | Extern a, Extern b => a =? b
  | PassThrough d1 f1, PassThrough d2 f2 => (d1 =? d2) && (f1 =? f2)
  | _, _ => false
  end.

(** [a === b].  Primitives compare by value.  Arrays and objects compare by
    identity in JavaScript; values carry no identity here, and two
    structured values are taken to be distinct allocations. *)
Definition strict_equals (a b : value) : bool :=
  match a, b with
  | VUndefined, VUndefined => true
  | VNull, VNull => true
  | VBool x, VBool y => Bool.eqb x y
  | VNumber x, VNumber y => (x =? y)%Z
  | VString x, VString y => x =? y
  | VFunction f, VFunction g => fn_eqb f g
  | _, _ => false
  end.

(** ** Association lists: objects and the [Map] of registered extensions *)

Section Assoc.
Context {V : Type}.

Fixpoint lookup (k : string) (o : list (string * V)) : option V :=
  match o with
  | [] => None
  | (k', v) :: o' => if k =? k' then Some v else lookup k o'
  end.

Definition has_key (k : string) (o : list (string * V)) : bool :=
  match lookup k o with Some _ => true | None => false end.

Definition keys (o : list (string * V)) : list string := map fst o.

(** [o[k] = v] and [Map.prototype.set]: an existing key keeps its place and
    takes the new value, a new key goes last. *)
Fixpoint set (k : string) (v : V) (o : list (string * V)) : list (string * V) :=
  match o with
  | [] => [(k, v)]
  | (k', v') :: o' => if k =? k' then (k, v) :: o' else (k', v') :: set k v o'
  end.

(** [delete o[k]]. *)
Definition delete (k : string) (o : list (string * V)) : list (string * V) :=
  filter (fun p => negb (k =? fst p)) o.

End Assoc.

(** [o[k]] on an object: [undefined] for a missing property. *)
Definition get (k : string) (o : object) : value :=
  match lookup k o with Some v => v | None => VUndefined end.

(** The property key of an array index. *)
Definition index_key (i : nat) : string :=
  NilZero.string_of_uint (Nat.to_uint i).

(** The indexed elements of an array, as properties. *)
Definition array_props (xs : list value) : object :=
  combine (map index_key (seq 0 (length xs))) xs.

Definition string_props (s : string) : object :=
  array_props (map (fun c => VString (String c EmptyString)) (list_ascii_of_string s)).

(** The own enumerable properties of a value, which [Object.keys],
    [Object.entries] and the sources of [Object.assign] enumerate.
    Properties set on function objects are not modelled. *)
Definition ownEnumerable (v : value) : object :=
  match v with
  | VObject o => o
  | VArray xs => array_props xs
  | VString s => string_props s
  | _ => []
  end.

(** [v[name]].  Reading a property of [undefined] or [null] throws.  Members
    inherited from the built-in prototypes ([push], [toString], ...) are not
    modelled: they read as [undefined]. *)
Definition get_prop (v : value) (name : string) : outcome value :=
  match v with
  | VUndefined | VNull =>
      Throw (TypeError ("Cannot read property '" ^^ name ^^ "' of " ^^
                        match v with VNull => "null" | _ => "undefined" end))
  | VObject o => Ret (get name o)
  | VArray xs =>
      Ret (get name (array_props xs ++ [("length", VNumber (Z.of_nat (length xs)))]))
  | VString s =>
      Ret (get name (string_props s ++ [("length", VNumber (Z.of_nat (String.length s)))]))
  | VBool _ | VNumber _ | VFunction _ => Ret VUndefined
  end.

(** [name in v]. *)
Definition js_in (name : string) (v : value) : outcome bool :=
  match v with
  | VObject o => Ret (has_key name o)
  | VArray xs =>
      Ret (has_key name (array_props xs ++ [("length", VNumber (Z.of_nat (length xs)))]))
  | VFunction _ => Ret false
  | _ => Throw (TypeError ("Cannot use 'in' operator to search for '" ^^ name ^^ "'"))
  end.

(** [Object.assign(target, source)] on an object target: every own
    enumerable property of the source is written onto the target, in the
    source's order. *)
Definition assignProps (target : object) (props : object) : object :=
  fold_left (fun t p => set (fst p) (snd p) t) props target.

Definition objectAssign (target : object) (source : value) : object :=
  assignProps target (ownEnumerable source).

(** [Object.assign(target, source)] on any target.  [undefined] and [null]
    cannot be converted to an object.  A primitive target is boxed and the
    box is returned, so the value the target was read from is unchanged;
    properties written onto an array or a function object are not
    modelled. *)
Definition objectAssignTo (target source : value) : outcome value :=
  match target with
  | VUndefined | VNull => Throw (TypeError "Cannot convert undefined or null to object")
  | VObject o => Ret (VObject (objectAssign o source))
  | _ => Ret target
  end.

(** [target.push(...items)]. *)
Definition push (name : string) (target : value) (items : list value) : outcome value :=
  match target with
  | VArray xs => Ret (VArray (xs ++ items))
  | VUndefined | VNull =>
      Throw (TypeError ("Cannot read property 'push' of " ^^
                        match target with VNull => "null" | _ => "undefined" end))
  | _ => Throw (TypeError ("dest." ^^ name ^^ ".push is not a function"))
  end.

(** [Array.isArray(value) ? value : [value]]. *)
Definition toValueArray (v : value) : list value :=
  match v with VArray xs => xs | _ => [v] end.

(** [xs.indexOf(x)], [-1] when [x] is not an element. *)
Fixpoint indexOf (xs : list value) (x : value) : Z :=
  match xs with
  | [] => (-1)%Z
  | y :: ys =>
      if strict_equals y x then 0%Z
      else let i := indexOf ys x in if (i <? 0)%Z then (-1)%Z else (i + 1)%Z
  end.

(** ** Exceptions, the logger and the container's state *)

Definition obind {A B} (o : outcome A) (k : A -> outcome B) : outcome B :=
  match o with
  | Ret a => k a
  | Throw e => Throw e
  end.

Notation "x <-- o ;; k" := (obind o (fun x => k))
  (at level 61, o at next level, right associativity).

Inductive log_entry : Type :=
| LogDebug (msg : string)
| LogWarn (msg : string).

(** What the container's methods read and write besides their arguments:
    the logger's output, [this.entries] (a [Map], in insertion order) and
    the events handed to [this.eventEmitter]. *)
Record world : Type := mkWorld {
  logs : list log_entry;
  entries : list (string * object);
  emitted : list (string * value)
}.

Definition emptyWorld : world := mkWorld [] [] [].

Definition M (A : Type) : Type := world -> world * outcome A.

Definition ret {A} (a : A) : M A := fun w => (w, Ret a).

Definition bind {A B} (m : M A) (k : A -> M B) : M B :=
  fun w =>
    match m w with
    | (w', Ret a) => k a w'
    | (w', Throw e) => (w', Throw e)
    end.

Definition lift {A} (o : outcome A) : M A := fun w => (w, o).

Notation "x <- m ;; k" := (bind m (fun x => k))
  (at level 61, m at next level, right associativity).
Notation "m ;;; k" := (bind m (fun _ => k))
  (at level 61, right associativity).

Definition writeLog (e : log_entry) : M unit :=
  fun w => (mkWorld (logs w ++ [e]) (entries w) (emitted w), Ret tt).

Definition getEntries : M (list (string * object)) :=
  fun w => (w, Ret (entries w)).

(** [this.entries.set(key, config)]. *)
Definition setEntry (key : string) (config : object) : M unit :=
  fun w => (mkWorld (logs w) (set key config (entries w)) (emitted w), Ret tt).

Definition recordEvent (name : string) (payload : value) : M unit :=
  fun w => (mkWorld (logs w) (entries w) (emitted w ++ [(name, payload)]), Ret tt).

(** [xs.forEach(body)] and [for (const x of xs) body]. *)
Fixpoint forEach {A} (xs : list A) (body : A -> M unit) : M unit :=
  match xs with
  | [] => ret tt
  | x :: xs' => body x ;;; forEach xs' body
  end.

(** A loop whose body updates one local variable. *)
Fixpoint foldM {A S} (body : S -> A -> M S) (xs : list A) (s : S) : M S :=
  match xs with
  | [] => ret s
  | x :: xs' => s' <- body s x ;; foldM body xs' s'
  end.

(** The double quote character of the log messages. *)
Definition dq : string := String (ascii_of_nat 34) EmptyString.

(** ** The container *)

(** An entry of the [extensions] argument of [registerExtensions]:
    [extension.package] and the optional [extension.config]. *)
Record ExtensionEntry : Type := mkExtension {
  package : string;
  config : option object
}.

(** The configuration [createGraphQLConfig] returns: the context handler it
    defines, the schema it builds, and the remaining fields of the merged
    configuration once [contextModifiers], [resolvers] and [schemas] are
    deleted. *)
Record ApolloServerConfig : Type := mkApolloServerConfig {
  cfg_context : value -> outcome object;
  cfg_schema : value;
  cfg_settings : object
}.

Definition schemaFileName : string := "schema.graphql".

Section ExtensionContainer.

#[local] Set Default Proof Using "Type".

(** [this.constructor.name]. *)
Variable className : string.

(** The functions defined outside the container, by name: the result of
    calling one with a [this] value and an argument list. *)
Variable extern : string -> value -> list value -> outcome value.

(** The depth of the call stack. *)
Variable stackDepth : nat.

(** The conversion of a structured value to a string in a template literal. *)
Variable stringify : value -> string.

(** [BaseContainer.importModule]: the default export of the package, or
    [undefined]. *)
Variable importModule : string -> value.

(** [require.resolve], [fs.readFileSync(_, 'utf8')] ([None] when they
    throw), [path.join] and [process.cwd()]. *)
Variable requireResolve : string -> option string.
Variable readFileSync : string -> option string.
Variable pathJoin : string -> string -> string.
Variable cwd : string.

(** [deepmerge]. *)
Variable deepMerge : object -> value -> object.

(** [getRootTypeFields] of [graphqlUtils/schema]: the fields of each root
    type the type definitions declare. *)
Variable getRootTypeFields : value -> outcome (list (string * list string)).

(** [Events.EXTENSION_REGISTERED] and the listeners behind
    [eventEmitter.emitAsync]. *)
Variable EXTENSION_REGISTERED : string.
Variable emitAsync : string -> value -> outcome unit.

(** [makeExecutableSchema({ typeDefs, resolvers })] and
    [mergeSchemas({ schemas, schemaDirectives, resolvers })] of
    graphql-tools. *)
Variable makeExecutableSchema : value -> value -> outcome value.
Variable mergeSchemas : list value -> value -> value -> outcome value.

(** A proof about a function of the container that takes none of these
    lets go of them first. *)
Ltac forget_parameters :=
  try clear mergeSchemas; try clear makeExecutableSchema; try clear emitAsync;
  try clear EXTENSION_REGISTERED; try clear getRootTypeFields; try clear deepMerge;
  try clear cwd; try clear pathJoin; try clear readFileSync; try clear requireResolve;
  try clear importModule; try clear stringify; try clear stackDepth; try clear extern;
  try clear className.

(** A value inside a template literal. *)
Definition toStr (v : value) : string :=
  match v with
  | VString s => s
  | VUndefined => "undefined"
  | VNull => "null"
  | VBool true => "true"
  | VBool false => "false"
  | _ => stringify v
  end.

(** *** getApi (lines 301-303) *)

Definition getApi (dataSources : value) (name : string) : outcome value :=
  found <-- js_in name dataSources ;;
  if found then get_prop dataSources name else Ret VNull.

(** *** The resolver bound by getExtensionGraphQLConfig (lines 272-285)

    [call] is the call of a function value with a [this] value and
    arguments.  The test of line 279 is kept as it is written: [typeof] is
    applied to the parenthesised comparison [dataSource[fieldName] !==
    'function']. *)
Definition resolverBody (call : value -> value -> list value -> outcome value)
    (dataSourceName fieldName : string) (obj args context info : value) : outcome value :=
  dataSources <-- get_prop context "dataSources" ;;
  dataSource <-- getApi dataSources dataSourceName ;;
  method <-- get_prop dataSource fieldName ;;
  if truthy (VString (typeof (VBool (negb (strict_equals method (VString "function"))))))
  then Throw (Error (className ^^ ": " ^^ dataSourceName ^^ "." ^^ fieldName ^^
                     "() resolver method is not defined!"))
  else
    method <-- get_prop dataSource fieldName ;;
    call method dataSource [obj; args; context; info].

(** The call of a function value.  A pass-through resolver runs its body; a
    chain of calls deeper than the stack allows ends in a [RangeError]. *)
Fixpoint callFn (depth : nat) (callee this : value) (args : list value) : outcome value :=
  match callee with
  | VFunction (Extern name) => extern name this args
  | VFunction (PassThrough dataSourceName fieldName) =>
      match depth with
      | 0 => Throw (RangeError "Maximum call stack size exceeded")
      | S depth' =>
          resolverBody (callFn depth') dataSourceName fieldName
            (nth 0 args VUndefined) (nth 1 args VUndefined)
            (nth 2 args VUndefined) (nth 3 args VUndefined)
      end
  | _ => Throw (TypeError "callee is not a function")
  end.

Definition call : value -> value -> list value -> outcome value := callFn stackDepth.

Definition resolver : string -> string -> value -> value -> value -> value -> outcome value :=
  resolverBody call.

(** *** getExtensionGraphQLConfig (lines 253-293) *)

(** [resolvers[typeName][fieldName] = f]. *)
Definition setField (typeName fieldName : string) (f : value) (resolvers : object) : object :=
  match get typeName resolvers with
  | VObject fields => set typeName (VObject (set fieldName f fields)) resolvers
  | _ => resolvers
  end.

Definition bindingMessage (typeName fieldName dataSourceName : string) : string :=
  className ^^ ": binding " ^^ dq ^^ typeName ^^ "." ^^ fieldName ^^ " => " ^^
  dataSourceName ^^ "." ^^ fieldName ^^ "(obj, args, context, info)" ^^ dq ^^ " resolver".

Definition bindType (dataSourceName : string) (resolvers : object)
    (rootType : string * list string) : M object :=
  let typeName := fst rootType in
  foldM (fun resolvers fieldName =>
           writeLog (LogDebug (bindingMessage typeName fieldName dataSourceName)) ;;;
           ret (setField typeName fieldName
                  (VFunction (PassThrough dataSourceName fieldName)) resolvers))
        (snd rootType) (set typeName (VObject []) resolvers).

Definition getExtensionGraphQLConfig (typeDefs : value) (dataSourceName : string) : M value :=
  if negb (truthy typeDefs) then ret VUndefined
  else
    rootTypes <- lift (getRootTypeFields typeDefs) ;;
    resolvers <- foldM (bindType dataSourceName) rootTypes [] ;;
    ret (VObject [("schema", VArray (toValueArray typeDefs));
                  ("resolvers", VObject resolvers)]).

(** *** importExtensionGraphQLSchema (lines 228-245) *)

Definition importExtensionGraphQLSchema (basePath : string) : M (option string) :=
  let packagePath := pathJoin basePath schemaFileName in
  let subFolderPath := pathJoin cwd packagePath in
  let fromSubFolder : M (option string) :=
    writeLog (LogDebug (className ^^ ": Loading Schema from " ^^ dq ^^ subFolderPath ^^ dq)) ;;;
    ret (readFileSync subFolderPath) in
  match requireResolve packagePath with
  | Some packageResolvedPath =>
      writeLog (LogDebug (className ^^ ": Loading Schema from " ^^ dq ^^
                          packageResolvedPath ^^ dq)) ;;;
      match readFileSync packageResolvedPath with
      | Some content => ret (Some content)
      | None => fromSubFolder
      end
  | None => fromSubFolder
  end.

(** *** registerExtensions (lines 41-69) *)

Definition missingSchemaMessage (extKey : string) (extension : ExtensionEntry) : string :=
  dq ^^ extKey ^^ dq ^^ " (" ^^ dq ^^ package extension ^^ dq ^^
  ") extension does not contain " ^^ schemaFileName ^^ " file.".

(** Lines 44-58: the GraphQL config of one extension, from its initializer
    and from its schema file. *)
Definition resolveExtensionConfig (extKey : string) (extension : ExtensionEntry) : M object :=
  let extensionConfig := match config extension with Some c => c | None => [] end in
  let ExtensionInstanceFn := importModule (package extension) in
  extGqlConfig <-
    (if truthy ExtensionInstanceFn
     then
       made <- lift (call ExtensionInstanceFn VUndefined [VObject extensionConfig]) ;;
       ret (deepMerge [] (if truthy made then made else VObject []))
     else ret []) ;;
  schemaContent <- importExtensionGraphQLSchema (package extension) ;;
  match schemaContent with
  | Some content =>
      if truthy (VString content)
      then
        bound <- getExtensionGraphQLConfig (VString content)
                   (toStr (get "api" extensionConfig)) ;;
        ret (deepMerge extGqlConfig bound)
      else
        writeLog (LogWarn (missingSchemaMessage extKey extension)) ;;;
        ret extGqlConfig
  | None =>
      writeLog (LogWarn (missingSchemaMessage extKey extension)) ;;;
      ret extGqlConfig
  end.

(** Lines 43-67: one round of the loop over [extensions]. *)
Definition registerExtension (extension : string * ExtensionEntry) : M unit :=
  let extKey := fst extension in
  extGqlConfig <- resolveExtensionConfig extKey (snd extension) ;;
  writeLog (LogDebug (className ^^ ": " ^^ dq ^^ extKey ^^ dq ^^
                      " added to the list of extensions")) ;;;
  setEntry extKey extGqlConfig ;;;
  let payload := VObject [("name", VString extKey); ("instance", VObject extGqlConfig)] in
  recordEvent EXTENSION_REGISTERED payload ;;;
  lift (emitAsync EXTENSION_REGISTERED payload).

(** [extensions] is given as its own properties in enumeration order. *)
Definition registerExtensions (extensions : list (string * ExtensionEntry)) : M unit :=
  forEach extensions registerExtension.

(** *** mergeBackendConfigs (lines 99-124) *)

Definition elements (v : value) : list value :=
  match v with VArray xs => xs | _ => [] end.

(** [const { locales } = v] for a value the caller knows not to be
    [undefined] or [null]. *)
Definition localesOf (v : value) : value :=
  match get_prop v "locales" with
  | Ret locales => locales
  | Throw _ => VUndefined
  end.

(** The reducer: [prev] is the accumulator, [current] the next config. *)
Definition mergeBackendConfig (prev : object) (current : value) : object :=
  if negb (truthy current) then prev
  else
    let prevLocales := get "locales" prev in
    let currLocales := localesOf current in
    let isPrevLocalesArr := isArray prevLocales in
    let isCurrLocalesArr := isArray currLocales in
    let mergedLocales :=
      if isCurrLocalesArr && isPrevLocalesArr
      then VArray (filter (fun loc => (0 <=? indexOf (elements prevLocales) loc)%Z)
                          (elements currLocales))
      else if isCurrLocalesArr && negb isPrevLocalesArr then currLocales else prevLocales in
    [("locales", mergedLocales)].

Definition mergeBackendConfigs (configs : list value) : object :=
  fold_left mergeBackendConfig configs [].

(** *** fetchBackendConfig (lines 75-92) *)

(** [Object.entries(v)]. *)
Definition objectEntries (v : value) : outcome object :=
  match v with
  | VUndefined | VNull => Throw (TypeError "Cannot convert undefined or null to object")
  | _ => Ret (ownEnumerable v)
  end.

(** The loop over the data sources; [configs] is the array filled so far.
    A data source without a [fetchBackendConfig] function ends the whole
    resolver with [undefined]. *)
Fixpoint fetchEach (obj args context info : value) (apis : object) (configs : list value)
    : M value :=
  match apis with
  | [] => ret (VObject (mergeBackendConfigs configs))
  | (apiName, api) :: apis' =>
      method <- lift (get_prop api "fetchBackendConfig") ;;
      if negb (typeof method =? "function") then ret VUndefined
      else
        writeLog (LogDebug ("Fetching " ^^ dq ^^ apiName ^^ dq ^^ " API backend config")) ;;;
        apiConfig <- lift (call method api [obj; args; context; info]) ;;
        fetchEach obj args context info apis'
          (if truthy apiConfig then configs ++ [apiConfig] else configs)
  end.

Definition fetchBackendConfig (obj args context info : value) : M value :=
  dataSources <- lift (get_prop context "dataSources") ;;
  apis <- lift (objectEntries dataSources) ;;
  fetchEach obj args context info apis [].

(** *** mergeGraphQLConfig (lines 178-222) *)

Definition nonStringSchemaMessage (extensionName name : string) (schemaItem : value) : string :=
  "ExtensionContainer: " ^^ dq ^^ extensionName ^^ dq ^^
  " extension contains non-string GraphQL Schema definition," ^^
  "please check its " ^^ dq ^^ name ^^ dq ^^
  " configuration and make sure all items are represented as strings. " ^^ toStr schemaItem.

Definition unsupportedOptionMessage (extensionName name : string) : string :=
  "ExtensionContainer: " ^^ dq ^^ extensionName ^^ dq ^^
  " extension wants to use GraphQL " ^^ dq ^^ name ^^ dq ^^
  " option which is not supported by Falcon extensions api yet - skipping that option".

(** One round of [Object.keys(source).forEach]: [dest] is the destination
    before the round, the result the destination after it. *)
Definition mergeOption (source : object) (extensionName : string) (dest : object) (name : string)
    : M object :=
  if (name =? "") || (typeof (get name source) =? "undefined") then ret dest
  else
    let value := get name source in
    let valueArray := toValueArray value in
    if (name =? "schema") || (name =? "schemas") then
      forEach valueArray (fun schemaItem =>
        if negb (typeof schemaItem =? "string")
        then writeLog (LogWarn (nonStringSchemaMessage extensionName name schemaItem))
        else ret tt) ;;;
      schemas <- lift (push "schemas" (get "schemas" dest) valueArray) ;;
      ret (set "schemas" schemas dest)
    else if name =? "resolvers" then
      resolvers <- lift (push "resolvers" (get "resolvers" dest) valueArray) ;;
      ret (set "resolvers" resolvers dest)
    else if name =? "context" then
      contextModifiers <- lift (push "contextModifiers" (get "contextModifiers" dest) [value]) ;;
      ret (set "contextModifiers" contextModifiers dest)
    else if name =? "dataSources" then
      dataSources <- lift (objectAssignTo (get "dataSources" dest) value) ;;
      ret (match get "dataSources" dest with
           | VObject _ => set "dataSources" dataSources dest
           | _ => dest
           end)
    else
      writeLog (LogWarn (unsupportedOptionMessage extensionName name)) ;;;
      ret dest.

Definition mergeGraphQLConfig (dest source : object) (extensionName : string) : M object :=
  writeLog (LogDebug (className ^^ ": merging " ^^ dq ^^ extensionName ^^ dq ^^
                      " extension GraphQL config")) ;;;
  foldM (mergeOption source extensionName) (keys source) dest.

(** *** createGraphQLConfig (lines 131-176) *)

(** Lines 132-143: the configuration the merge starts from. *)
Definition seedConfig (defaultConfig : object) : object :=
  objectAssign
    (objectAssign
       [("schemas", VArray []);
        ("contextModifiers",
         VArray (if truthy (get "context" defaultConfig)
                 then [get "context" defaultConfig] else []))]
       (VObject defaultConfig))
    (VObject
       [("resolvers",
         VArray (if truthy (get "resolvers" defaultConfig)
                    && negb (isArray (get "resolvers" defaultConfig))
                 then [get "resolvers" defaultConfig] else []))]).

(** Lines 132-147: the seed with every registered extension merged into
    it, in the order of [this.entries]. *)
Definition aggregateConfig (defaultConfig : object) : M object :=
  registered <- getEntries ;;
  foldM (fun config entry => mergeGraphQLConfig config (snd entry) (fst entry))
        registered (seedConfig defaultConfig).

(** Line 154: [typeof modifier === 'function' ? modifier(arg, ctx) : modifier]. *)
Definition contributionOf (arg : value) (ctx : object) (modifier : value) : outcome value :=
  if typeof modifier =? "function"
  then call modifier VUndefined [arg; VObject ctx]
  else Ret modifier.

(** Lines 152-156: the loop of [forEach] in the context handler, from the
    context [ctx] built so far. *)
Fixpoint runModifiers (arg : value) (modifiers : list value) (ctx : object) : outcome object :=
  match modifiers with
  | [] => Ret ctx
  | modifier :: modifiers' =>
      contribution <-- contributionOf arg ctx modifier ;;
      runModifiers arg modifiers' (objectAssign ctx contribution)
  end.

(** Lines 151-157: the context handler over the captured
    [contextModifiers]. *)
Definition contextHandler (contextModifiers : value) (arg : value) : outcome object :=
  match contextModifiers with
  | VArray modifiers => runModifiers arg modifiers []
  | VUndefined | VNull =>
      Throw (TypeError "Cannot read property 'forEach' of undefined")
  | _ => Throw (TypeError "contextModifiers.forEach is not a function")
  end.

Definition createGraphQLConfig (defaultConfig : object) : M ApolloServerConfig :=
  config <- aggregateConfig defaultConfig ;;
  let contextModifiers := get "contextModifiers" config in
  executable <- lift (makeExecutableSchema (get "schemas" config) (get "resolvers" config)) ;;
  merged <- lift (mergeSchemas [executable] (get "schemaDirectives" config)
                    (get "resolvers" config)) ;;
  ret {| cfg_context := contextHandler contextModifiers;
         cfg_schema := merged;
         cfg_settings :=
           delete "schemas" (delete "resolvers" (delete "contextModifiers"
             (delete "schema" (delete "context" config)))) |}.


(** ** The vocabulary of the statements *)

(** The resolver map after the fields of one root type are bound, the log
    left aside. *)
Definition bindTypeResult (dataSourceName : string) (resolvers : object)
    (rootType : string * list string) : object :=
  fold_left
    (fun resolvers fieldName =>
       setField (fst rootType) fieldName
         (VFunction (PassThrough dataSourceName fieldName)) resolvers)
    (snd rootType) (set (fst rootType) (VObject []) resolvers).

(** An array of strings, as a provider's [locales]. *)
Definition strings (l : list string) : value := VArray (map VString l).

Definition inb (x : string) (l : list string) : bool := existsb (String.eqb x) l.

(** A data source that lacks the capability: its [fetchBackendConfig] can
    be read and is not a function. *)
Definition lacksBackendConfig (api : value) : Prop :=
  exists method,
    get_prop api "fetchBackendConfig" = Ret method /\
    (typeof method =? "function") = false.

(** A data source that has the capability and whose fetch answers. *)
Definition answersBackendConfig (obj args context info api : value) : Prop :=
  exists method answer,
    get_prop api "fetchBackendConfig" = Ret method /\
    (typeof method =? "function") = true /\
    call method api [obj; args; context; info] = Ret answer.

(** Modelled on the specification's words: the context obtained by merging
    the modifiers one after the other onto the empty object, a function
    modifier being called with the request argument and the context so far
    and its return value merged, any other modifier being merged as it
    is. *)
Inductive SuccessiveMerge (arg : value) : list value -> object -> Prop :=
| merge_none : SuccessiveMerge arg [] []
| merge_function modifiers ctx modifier returned :
    SuccessiveMerge arg modifiers ctx ->
    typeof modifier = "function" ->
    call modifier VUndefined [arg; VObject ctx] = Ret returned ->
    SuccessiveMerge arg (modifiers ++ [modifier]) (objectAssign ctx returned)
| merge_literal modifiers ctx modifier :
    SuccessiveMerge arg modifiers ctx ->
    typeof modifier <> "function" ->
    SuccessiveMerge arg (modifiers ++ [modifier]) (objectAssign ctx modifier).

Definition addLogs (w : world) (ls : list log_entry) : world :=
  mkWorld (logs w ++ ls) (entries w) (emitted w).

(** A loop of [foldM] whose body only logs: its result, and its log up to
    the round that throws. *)
Fixpoint ofold {A S} (step : S -> A -> outcome S) (xs : list A) (s : S) : outcome S :=
  match xs with
  | [] => Ret s
  | x :: xs' => s' <-- step s x ;; ofold step xs' s'
  end.

Fixpoint foldLogs {A S} (logged : S -> A -> list log_entry) (step : S -> A -> outcome S)
    (xs : list A) (s : S) : list log_entry :=
  match xs with
  | [] => []
  | x :: xs' =>
      logged s x ++
      match step s x with
      | Ret s' => foldLogs logged step xs' s'
      | Throw _ => []
      end
  end.

(** The guard of line 182. *)
Definition skipsOption (source : object) (name : string) : bool :=
  (name =? "") || (typeof (get name source) =? "undefined").

Definition isSchemaOption (name : string) : bool :=
  (name =? "schema") || (name =? "schemas").

(** The options [mergeGraphQLConfig] has a merge rule for. *)
Definition isSupportedOption (name : string) : bool :=
  isSchemaOption name || (name =? "resolvers") || (name =? "context")
  || (name =? "dataSources").

(** The destination after one round of [mergeOption]. *)
Definition optionResult (source dest : object) (name : string) : outcome object :=
  if skipsOption source name then Ret dest
  else if isSchemaOption name then
    schemas <-- push "schemas" (get "schemas" dest) (toValueArray (get name source)) ;;
    Ret (set "schemas" schemas dest)
  else if name =? "resolvers" then
    resolvers <-- push "resolvers" (get "resolvers" dest) (toValueArray (get name source)) ;;
    Ret (set "resolvers" resolvers dest)
  else if name =? "context" then
    contextModifiers <-- push "contextModifiers" (get "contextModifiers" dest)
                           [get name source] ;;
    Ret (set "contextModifiers" contextModifiers dest)
  else if name =? "dataSources" then
    dataSources <-- objectAssignTo (get "dataSources" dest) (get name source) ;;
    Ret (match get "dataSources" dest with
         | VObject _ => set "dataSources" dataSources dest
         | _ => dest
         end)
  else Ret dest.

(** What one round of [mergeOption] logs. *)
Definition optionLogs (source : object) (extensionName name : string) : list log_entry :=
  if skipsOption source name then []
  else if isSchemaOption name then
    flat_map (fun schemaItem =>
                if negb (typeof schemaItem =? "string")
                then [LogWarn (nonStringSchemaMessage extensionName name schemaItem)]
                else [])
             (toValueArray (get name source))
  else if isSupportedOption name then []
  else [LogWarn (unsupportedOptionMessage extensionName name)].

(** The destination after [mergeGraphQLConfig], and its log. *)
Definition mergeResult (dest source : object) : outcome object :=
  ofold (optionResult source) (keys source) dest.

Definition mergeLogs (dest source : object) (extensionName : string) : list log_entry :=
  LogDebug (className ^^ ": merging " ^^ dq ^^ extensionName ^^ dq ^^
            " extension GraphQL config")
  :: foldLogs (fun _ name => optionLogs source extensionName name)
       (optionResult source) (keys source) dest.

(** The aggregate over the registered extensions. *)
Definition aggregateResult (defaultConfig : object) (registered : list (string * object))
    : outcome object :=
  ofold (fun config entry => mergeResult config (snd entry)) registered
        (seedConfig defaultConfig).

Definition aggregateLogs (defaultConfig : object) (registered : list (string * object))
    : list log_entry :=
  foldLogs (fun config entry => mergeLogs config (snd entry) (fst entry))
    (fun config entry => mergeResult config (snd entry)) registered
    (seedConfig defaultConfig).

(** The fields of the aggregate that the merge writes. *)
Definition aggregateFields : list string :=
  ["schemas"; "resolvers"; "contextModifiers"; "dataSources"].

(** The schema fragments an option contributes, and those of a whole
    extension config: what its [schema] and [schemas] options hold, each
    taken as an array, in the order of the config's keys. *)
Definition optionFragments (source : object) (name : string) : list value :=
  if skipsOption source name then []
  else if isSchemaOption name then toValueArray (get name source)
  else [].

Definition ownSchemaFragments (source : object) : list value :=
  flat_map (optionFragments source) (keys source).

(** An extension config has the option: the key is there and the guard of
    line 182 lets it through. *)
Definition definesOption (name : string) (source : object) : bool :=
  existsb (String.eqb name) (keys source) && negb (skipsOption source name).

Definition nullish (v : value) : bool :=
  match v with VUndefined | VNull => true | _ => false end.

Definition arraysReady (dest : object) : bool :=
  isArray (get "schemas" dest) && isArray (get "resolvers" dest)
  && isArray (get "contextModifiers" dest).

Ltac option_cases source name :=
  unfold optionResult, optionFragments;
  destruct (skipsOption source name) eqn:Hskip;
  [| destruct (isSchemaOption name) eqn:Hschema;
     [| destruct (name =? "resolvers") eqn:Hres;
        [| destruct (name =? "context") eqn:Hctx;
           [| destruct (name =? "dataSources") eqn:Hds]]]].

Ltac field_neq H :=
  apply String.eqb_neq; intros <-; apply H; simpl; tauto.

(** The destinations a merge can run on without a throw: the three arrays
    are there, and the data sources are there unless no option asks for
    them. *)
Definition readyFor (needsDataSources : bool) (dest : object) : Prop :=
  arraysReady dest = true /\
  (needsDataSources = true -> nullish (get "dataSources" dest) = false).

(** A computation that touches nothing of the container's state but the
    log. *)
Definition onlyLogs {A} (m : M A) : Prop :=
  forall w, exists ls, fst (m w) = addLogs w ls.

(** The event of lines 63-66. *)
Definition registeredEvent (extKey : string) (extGqlConfig : object) : string * value :=
  (EXTENSION_REGISTERED,
   VObject [("name", VString extKey); ("instance", VObject extGqlConfig)]).

(** [extension.config], [{}] by default (line 46). *)
Definition extensionConfigOf (extension : ExtensionEntry) : object :=
  match config extension with Some c => c | None => [] end.

(** What [importExtensionGraphQLSchema] returns, the log left aside. *)
Definition schemaContentOf (basePath : string) : option string :=
  let packagePath := pathJoin basePath schemaFileName in
  match requireResolve packagePath with
  | Some packageResolvedPath =>
      match readFileSync packageResolvedPath with
      | Some content => Some content
      | None => readFileSync (pathJoin cwd packagePath)
      end
  | None => readFileSync (pathJoin cwd packagePath)
  end.

(** The test of line 54 on the schema of an extension. *)
Definition hasSchema (extension : ExtensionEntry) : bool :=
  match schemaContentOf (package extension) with
  | Some content => truthy (VString content)
  | None => false
  end.

(** Lines 48-51: the config the initializer of the package gives. *)
Definition initializerConfig (extension : ExtensionEntry) : outcome object :=
  if truthy (importModule (package extension))
  then
    made <-- call (importModule (package extension)) VUndefined
               [VObject (extensionConfigOf extension)] ;;
    Ret (deepMerge [] (if truthy made then made else VObject []))
  else Ret [].

(** What [getExtensionGraphQLConfig] returns, the log left aside. *)
Definition boundConfig (typeDefs : value) (dataSourceName : string) : outcome value :=
  if negb (truthy typeDefs) then Ret VUndefined
  else
    rootTypes <-- getRootTypeFields typeDefs ;;
    Ret (VObject [("schema", VArray (toValueArray typeDefs));
                  ("resolvers",
                   VObject (fold_left (bindTypeResult dataSourceName) rootTypes []))]).

(** The config of lines 44-58, the log left aside. *)
Definition extensionConfigResult (extension : ExtensionEntry) : outcome object :=
  extGqlConfig <-- initializerConfig extension ;;
  match schemaContentOf (package extension) with
  | Some content =>
      if truthy (VString content)
      then
        bound <-- boundConfig (VString content)
                    (toStr (get "api" (extensionConfigOf extension))) ;;
        Ret (deepMerge extGqlConfig bound)
      else Ret extGqlConfig
  | None => Ret extGqlConfig
  end.

Definition addedMessage (extKey : string) : log_entry :=
  LogDebug (className ^^ ": " ^^ dq ^^ extKey ^^ dq ^^ " added to the list of extensions").

(** The resolver maps an option contributes to the aggregate, and those of
    a whole extension config. *)
Definition optionResolvers (source : object) (name : string) : list value :=
  if skipsOption source name then []
  else if name =? "resolvers" then toValueArray (get name source)
  else [].

Definition ownResolvers (source : object) : list value :=
  flat_map (optionResolvers source) (keys source).

(** The context modifiers an option contributes, and those of a whole
    extension config. *)
Definition optionContextModifiers (source : object) (name : string) : list value :=
  if skipsOption source name then []
  else if name =? "context" then [get name source]
  else [].

Definition ownContextModifiers (source : object) : list value :=
  flat_map (optionContextModifiers source) (keys source).

(** The data sources of the destination after the round of an option. *)
Definition optionDataSources (source : object) (dataSources : object) (name : string)
    : object :=
  if skipsOption source name then dataSources
  else if name =? "dataSources" then objectAssign dataSources (get name source)
  else dataSources.

(** The fields of the merged configuration that [createGraphQLConfig]
    computes, replaces or removes. *)
Definition processedFields : list string :=
  ["schemas"; "resolvers"; "contextModifiers"; "dataSources"; "schema"; "context"].

(** A data source that has the capability and whose fetch answers with
    [answer]. *)
Definition answersWith (obj args context info api answer : value) : Prop :=
  exists method,
    get_prop api "fetchBackendConfig" = Ret method /\
    (typeof method =? "function") = true /\
    call method api [obj; args; context; info] = Ret answer.

(** The log line of line 84. *)
Definition fetchingMessage (apiName : string) : log_entry :=
  LogDebug ("Fetching " ^^ dq ^^ apiName ^^ dq ^^ " API backend config").

(** The log line of line 179. *)
Definition mergingMessage (extensionName : string) : log_entry :=
  LogDebug (className ^^ ": merging " ^^ dq ^^ extensionName ^^ dq ^^
            " extension GraphQL config").

(** ** What createGraphQLConfig leaves in the object it is given

    [Object.assign] (lines 132-143) copies the fields of the base
    configuration into [config] as they are: for [schemas],
    [contextModifiers] and [dataSources], [config] then holds the base
    configuration's own arrays and object, and the merge writes into them
    in place ([push], lines 200 and 206; [Object.assign], line 209).
    [resolvers] is a new array at every call (line 141), the default
    [schemas] and [contextModifiers] are new arrays too (lines 134 and
    137), and what lines 151-173 set and delete are fields of [config]
    itself.  [aggregateConfig] and [createGraphQLConfig] give what one
    call returns from the base configuration as it is when the call is
    made; [baseAfter] gives the base configuration as the caller holds it
    once the call has ended. *)

Definition sharedFields : list string := ["schemas"; "contextModifiers"; "dataSources"].

(** Arrays and objects are held by reference. *)
Definition byReference (v : value) : bool :=
  match v with VArray _ | VObject _ => true | _ => false end.

(** The base configuration once the array or object behind [field], which
    [config] shares with it, holds what the merge left there. *)
Definition writeThrough (config base : object) (field : string) : object :=
  match lookup field base with
  | Some shared => if byReference shared then set field (get field config) base else base
  | None => base
  end.

(** The state a loop is in when it ends, whether it runs to its end or a
    round throws.  A round of the merge that throws has written nothing:
    [push] and [Object.assign] throw on their target before they write. *)
Fixpoint reached {A S} (step : S -> A -> outcome S) (xs : list A) (s : S) : S :=
  match xs with
  | [] => s
  | x :: xs' =>
      match step s x with
      | Ret s' => reached step xs' s'
      | Throw _ => s
      end
  end.

(** [config] when the loop of lines 145-147 ends. *)
Fixpoint mergedUpTo (registered : list (string * object)) (config : object) : object :=
  match registered with
  | [] => config
  | entry :: registered' =>
      match mergeResult config (snd entry) with
      | Ret config' => mergedUpTo registered' config'
      | Throw _ => reached (optionResult (snd entry)) (keys (snd entry)) config
      end
  end.

(** The object passed to [createGraphQLConfig], as the caller holds it
    after the call, however the call ended. *)
Definition baseAfter (defaultConfig : object) (w : world) : object :=
  fold_left (writeThrough (mergedUpTo (entries w) (seedConfig defaultConfig)))
            sharedFields defaultConfig.

(** An extension config brings a data source under [name]. *)
Definition bringsDataSource (name : string) (source : object) : bool :=
  has_key name (ownEnumerable (get "dataSources" source)).

(** The data sources of a configuration [createGraphQLConfig] returned. *)
Definition servedDataSources (served : ApolloServerConfig) : object :=
  ownEnumerable (get "dataSources" (cfg_settings served)).

(** ** Facts about association lists *)

Section AssocFacts.
Context {V : Type}.
Implicit Types (k : string) (v : V) (o : list (string * V)).

Lemma lookup_set_same k v o : lookup k (set k v o) = Some v.
Proof.
  induction o as [|[k' v'] o IH]; simpl.
  - now rewrite String.eqb_refl.
  - destruct (k =? k') eqn:E; simpl.
    + now rewrite String.eqb_refl.
    + now rewrite E.
Qed.

Lemma lookup_set_other k k' v o :
  (k =? k') = false -> lookup k' (set k v o) = lookup k' o.
Proof.
  intros Hne. induction o as [|[k1 v1] o IH]; simpl.
  - rewrite String.eqb_sym. now rewrite Hne.
  - destruct (k =? k1) eqn:E; simpl.
    + apply String.eqb_eq in E. subst k1.
      rewrite String.eqb_sym. now rewrite Hne.
    + now rewrite IH.
Qed.

Lemma lookup_None_keys k o : lookup k o = None <-> ~ In k (keys o).
Proof.
  forget_parameters.
  induction o as [|[k' v'] o IH]; simpl.
  - tauto.
  - destruct (k =? k') eqn:E.
    + apply String.eqb_eq in E. subst. split; [discriminate | tauto].
    + apply String.eqb_neq in E. rewrite IH. split.
      * intros H [H1 | H1]; [congruence | tauto].
      * tauto.
Qed.

Lemma lookup_Some_keys k v o : lookup k o = Some v -> In k (keys o).
Proof.
  induction o as [|[k' v'] o IH]; simpl; [discriminate |].
  destruct (k =? k') eqn:E.
  - apply String.eqb_eq in E. now left.
  - intros H. right. now apply IH.
Qed.

Lemma keys_set_present k v old o :
  lookup k o = Some old -> keys (set k v o) = keys o.
Proof.
  induction o as [|[k' v'] o IH]; simpl; [discriminate |].
  destruct (k =? k') eqn:E; simpl.
  - apply String.eqb_eq in E. now subst.
  - intros H. now rewrite IH.
Qed.

Lemma set_absent k v o : lookup k o = None -> set k v o = o ++ [(k, v)].
Proof.
  induction o as [|[k' v'] o IH]; simpl; [reflexivity |].
  destruct (k =? k'); [discriminate |].
  intros H. now rewrite IH.
Qed.

Lemma set_present_split k v old o :
  lookup k o = Some old ->
  exists pre post,
    o = pre ++ (k, old) :: post /\ lookup k pre = None /\
    set k v o = pre ++ (k, v) :: post.
Proof.
  induction o as [|[k' v'] o IH]; simpl; [discriminate |].
  destruct (k =? k') eqn:E.
  - apply String.eqb_eq in E. subst k'. intros [= ->].
    exists [], o. now simpl.
  - intros H. destruct (IH H) as (pre & post & -> & Hpre & Hset).
    exists ((k', v') :: pre), post. simpl. rewrite E, Hset. auto.
Qed.

Lemma lookup_delete_same k o : lookup k (delete k o) = None.
Proof.
  apply lookup_None_keys. unfold delete, keys. intros H.
  apply in_map_iff in H. destruct H as ([k' v'] & Hk & Hin). simpl in Hk. subst k'.
  apply filter_In in Hin. destruct Hin as [_ Hin]. simpl in Hin.
  now rewrite String.eqb_refl in Hin.
Qed.

Lemma lookup_app_None k o1 o2 :
  lookup k o1 = None -> lookup k (o1 ++ o2) = lookup k o2.
Proof.
  induction o1 as [|[k' v'] o1 IH]; simpl; [reflexivity |].
  destruct (k =? k'); [discriminate | exact IH].
Qed.

Lemma lookup_app_Some k v o1 o2 :
  lookup k o1 = Some v -> lookup k (o1 ++ o2) = Some v.
Proof.
  induction o1 as [|[k' v'] o1 IH]; simpl; [discriminate |].
  destruct (k =? k'); [auto | exact IH].
Qed.

Lemma NoDup_keys_set k v o : NoDup (keys o) -> NoDup (keys (set k v o)).
Proof.
  forget_parameters.
  intros Hnd. destruct (lookup k o) as [old|] eqn:E.
  - now rewrite (keys_set_present k v old o E).
  - rewrite (set_absent k v o E). unfold keys. rewrite map_app. simpl.
    apply lookup_None_keys in E.
    apply NoDup_app; [exact Hnd | repeat constructor; simpl; tauto |].
    intros x Hx [<- | []]. exact (E Hx).
Qed.

End AssocFacts.

Lemma get_set_same k v (o : object) : get k (set k v o) = v.
Proof. unfold get. now rewrite lookup_set_same. Qed.

Lemma get_set_other k k' v (o : object) :
  (k =? k') = false -> get k' (set k v o) = get k' o.
Proof. intros H. unfold get. now rewrite lookup_set_other. Qed.

Lemma has_key_set_same k v (o : object) : has_key k (set k v o) = true.
Proof. unfold has_key. now rewrite lookup_set_same. Qed.

Lemma lookup_assignProps_absent k (props target : object) :
  lookup k props = None -> lookup k (assignProps target props) = lookup k target.
Proof.
  unfold assignProps. revert target.
  induction props as [|[k1 v1] props IH]; intros target; simpl; [reflexivity |].
  destruct (k =? k1) eqn:E; [discriminate |].
  intros H. rewrite IH by exact H.
  apply lookup_set_other. now rewrite String.eqb_sym.
Qed.

(** What [Object.assign] leaves in a property: the source's value when the
    source has the property, the target's own otherwise. *)
Lemma lookup_assignProps k (props target : object) :
  NoDup (keys props) ->
  lookup k (assignProps target props) =
  match lookup k props with
  | Some v => Some v
  | None => lookup k target
  end.
Proof.
  unfold assignProps. revert target.
  induction props as [|[k1 v1] props IH]; intros target Hnd; simpl; [reflexivity |].
  inversion Hnd as [|? ? Hnotin Hnd']; subst.
  fold (assignProps (set k1 v1 target) props).
  destruct (k =? k1) eqn:E.
  - apply String.eqb_eq in E. subst k1.
    rewrite lookup_assignProps_absent by now apply lookup_None_keys.
    apply lookup_set_same.
  - unfold assignProps. rewrite IH by exact Hnd'.
    destruct (lookup k props); [reflexivity |].
    apply lookup_set_other. now rewrite String.eqb_sym.
Qed.

(** ** Binding the fields of the root types *)

Lemma foldM_result {A S} (body : S -> A -> M S) (f : S -> A -> S) :
  (forall s a w, snd (body s a w) = Ret (f s a)) ->
  forall xs s w, snd (foldM body xs s w) = Ret (fold_left f xs s).
Proof.
  intros Hbody. induction xs as [|x xs IH]; intros s w; simpl; [reflexivity |].
  unfold bind. specialize (Hbody s x w).
  destruct (body s x w) as [w1 o]. simpl in Hbody. subst o. apply IH.
Qed.

Lemma bindType_result dataSourceName resolvers rootType w :
  snd (bindType dataSourceName resolvers rootType w) =
  Ret (bindTypeResult dataSourceName resolvers rootType).
Proof. unfold bindType, bindTypeResult. now apply foldM_result. Qed.

Lemma bindFields_bound dataSourceName typeName fields :
  forall (resolvers : object) bound0,
    get typeName resolvers = VObject bound0 ->
    exists bound,
      get typeName
        (fold_left
           (fun resolvers fieldName =>
              setField typeName fieldName
                (VFunction (PassThrough dataSourceName fieldName)) resolvers)
           fields resolvers) = VObject bound /\
      (forall fieldName, In fieldName fields ->
         get fieldName bound = VFunction (PassThrough dataSourceName fieldName)) /\
      (forall fieldName, ~ In fieldName fields -> get fieldName bound = get fieldName bound0).
Proof.
  forget_parameters.
  induction fields as [|field fields IH]; intros resolvers bound0 Hget; simpl.
  - exists bound0. split; [exact Hget |]. split; [intros f [] | reflexivity].
  - unfold setField at 2. rewrite Hget.
    destruct (IH (set typeName
                    (VObject (set field (VFunction (PassThrough dataSourceName field)) bound0))
                    resolvers)
                 (set field (VFunction (PassThrough dataSourceName field)) bound0))
      as (bound & Hbound & Hin & Hout).
    { apply get_set_same. }
    exists bound. split; [exact Hbound |]. split.
    + intros f [<- | Hf]; [| now apply Hin].
      destruct (in_dec string_dec field fields) as [Hf | Hf]; [now apply Hin |].
      rewrite (Hout field Hf). apply get_set_same.
    + intros f Hf. rewrite Hout by tauto.
      apply get_set_other. apply String.eqb_neq. intros ->. apply Hf. now left.
Qed.

Lemma bindTypeResult_other dataSourceName (resolvers : object) rootType typeName :
  (fst rootType =? typeName) = false ->
  get typeName (bindTypeResult dataSourceName resolvers rootType) = get typeName resolvers.
Proof.
  intros Hne. unfold bindTypeResult.
  transitivity (get typeName (set (fst rootType) (VObject []) resolvers));
    [| now apply get_set_other].
  generalize (set (fst rootType) (VObject []) resolvers).
  induction (snd rootType) as [|field fields IH]; intros r; simpl; [reflexivity |].
  rewrite IH. unfold setField.
  destruct (get (fst rootType) r); trivial. now apply get_set_other.
Qed.

Lemma bindTypes_bound dataSourceName rootTypes typeName fields fieldName :
  NoDup (keys rootTypes) ->
  lookup typeName rootTypes = Some fields ->
  In fieldName fields ->
  forall resolvers : object,
  exists bound,
    get typeName (fold_left (bindTypeResult dataSourceName) rootTypes resolvers) =
    VObject bound /\
    get fieldName bound = VFunction (PassThrough dataSourceName fieldName).
Proof.
  intros Hnd Hlookup Hin.
  induction rootTypes as [|[typeName0 fields0] rootTypes IH]; intros resolvers;
    [discriminate |].
  simpl in Hlookup |- *. inversion Hnd as [|? ? Hnotin Hnd']; subst.
  destruct (typeName =? typeName0) eqn:E.
  - apply String.eqb_eq in E. subst typeName0. injection Hlookup as ->.
    destruct (bindFields_bound dataSourceName typeName fields
                (set typeName (VObject []) resolvers) [] (get_set_same _ _ _))
      as (bound & Hbound & Hbind & _).
    exists bound. split; [| now apply Hbind].
    assert (Hrest : forall r : object,
               get typeName (fold_left (bindTypeResult dataSourceName) rootTypes r) =
               get typeName r).
    { clear -Hnotin. induction rootTypes as [|rootType rootTypes IH]; intros r; simpl;
        [reflexivity |].
      rewrite IH by (intros H; apply Hnotin; now right).
      apply bindTypeResult_other. apply String.eqb_neq. intros H. apply Hnotin. now left. }
    rewrite Hrest. exact Hbound.
  - now apply IH.
Qed.

(** The config of [getExtensionGraphQLConfig] has, at every field the
    introspector reports for a root type, the pass-through resolver of that
    field. *)
Lemma getExtensionGraphQLConfig_binds typeDefs dataSourceName rootTypes typeName fields
    fieldName w :
  truthy typeDefs = true ->
  getRootTypeFields typeDefs = Ret rootTypes ->
  NoDup (keys rootTypes) ->
  lookup typeName rootTypes = Some fields ->
  In fieldName fields ->
  exists resolvers bound,
    snd (getExtensionGraphQLConfig typeDefs dataSourceName w) =
    Ret (VObject [("schema", VArray (toValueArray typeDefs));
                  ("resolvers", VObject resolvers)]) /\
    get typeName resolvers = VObject bound /\
    get fieldName bound = VFunction (PassThrough dataSourceName fieldName).
Proof.
  intros Htruthy Hroot Hnd Hlookup Hin.
  destruct (bindTypes_bound dataSourceName rootTypes typeName fields fieldName
              Hnd Hlookup Hin []) as (bound & Hbound & Hfield).
  exists (fold_left (bindTypeResult dataSourceName) rootTypes []), bound.
  split; [| now split].
  pose proof (foldM_result (bindType dataSourceName) (bindTypeResult dataSourceName)
                (bindType_result dataSourceName) rootTypes [] w) as Hfold.
  unfold getExtensionGraphQLConfig. rewrite Htruthy.
  change (negb true) with false. cbv iota.
  unfold bind, lift. rewrite Hroot.
  destruct (foldM (bindType dataSourceName) rootTypes [] w) as [w1 o].
  simpl in Hfold. subst o. reflexivity.
Qed.

(** ** The pass-through resolver *)

(** The test of line 279 is [typeof] of a boolean, the string ["boolean"],
    which is truthy whatever the method is. *)
Lemma resolver_test_always_true (method : value) :
  truthy (VString (typeof (VBool (negb (strict_equals method (VString "function")))))) = true.
Proof. reflexivity. Qed.

(** No call of a bound resolver returns a value. *)
Lemma resolverBody_never_returns callf dataSourceName fieldName obj args ctx info v :
  resolverBody callf dataSourceName fieldName obj args ctx info <> Ret v.
Proof.
  unfold resolverBody, obind.
  destruct (get_prop ctx "dataSources") as [dataSources|]; [| discriminate].
  destruct (getApi dataSources dataSourceName) as [dataSource|]; [| discriminate].
  destruct (get_prop dataSource fieldName) as [method|]; [| discriminate].
  rewrite resolver_test_always_true. discriminate.
Qed.

Lemma getApi_present (dataSources : object) name :
  has_key name dataSources = true ->
  getApi (VObject dataSources) name = Ret (get name dataSources).
Proof. intros H. unfold getApi. simpl. now rewrite H. Qed.

Lemma getApi_absent (dataSources : object) name :
  has_key name dataSources = false ->
  getApi (VObject dataSources) name = Ret VNull.
Proof. intros H. unfold getApi. simpl. now rewrite H. Qed.

(** C1.  A request context whose [dataSources] holds, under the bound name,
    a data source with a function under the field's name: the resolver
    bound to that field does not forward the call; it throws "resolver
    method is not defined". *)
Theorem resolver_throws_instead_of_forwarding
    (dataSourceName fieldName : string) (method : fn)
    (api dataSources rest : object) (obj args info : value) :
  let dataSource := VObject (set fieldName (VFunction method) api) in
  let context :=
    VObject (set "dataSources" (VObject (set dataSourceName dataSource dataSources)) rest) in
  getApi (VObject (set dataSourceName dataSource dataSources)) dataSourceName = Ret dataSource /\
  get_prop dataSource fieldName = Ret (VFunction method) /\
  resolver dataSourceName fieldName obj args context info =
  Throw (Error (className ^^ ": " ^^ dataSourceName ^^ "." ^^ fieldName ^^
                "() resolver method is not defined!")).
Proof.
  intros dataSource context.
  assert (Hapi : getApi (VObject (set dataSourceName dataSource dataSources)) dataSourceName
                 = Ret dataSource).
  { rewrite getApi_present by apply has_key_set_same. now rewrite get_set_same. }
  assert (Hmethod : get_prop dataSource fieldName = Ret (VFunction method)).
  { unfold dataSource. simpl. now rewrite get_set_same. }
  repeat split; trivial.
  unfold resolver, resolverBody, context. simpl get_prop at 1.
  rewrite get_set_same. unfold obind at 1. rewrite Hapi. unfold obind at 1.
  rewrite Hmethod. reflexivity.
Qed.

(** C2.  A request context whose [dataSources] holds nothing under the
    bound name: [getApi] answers [null] without a throw, and the resolver
    then reads the field's name from that [null]: its call resolves to no
    value, neither [null] nor any other, and throws a [TypeError]. *)
Theorem resolver_throws_on_missing_data_source
    (dataSourceName fieldName : string) (dataSources rest : object) (obj args info : value) :
  let context :=
    VObject (set "dataSources" (VObject (delete dataSourceName dataSources)) rest) in
  has_key dataSourceName (delete dataSourceName dataSources) = false /\
  getApi (VObject (delete dataSourceName dataSources)) dataSourceName = Ret VNull /\
  resolver dataSourceName fieldName obj args context info =
  Throw (TypeError ("Cannot read property '" ^^ fieldName ^^ "' of null")) /\
  (forall v, resolver dataSourceName fieldName obj args context info <> Ret v).
Proof.
  intros context.
  assert (Hkey : has_key dataSourceName (delete dataSourceName dataSources) = false).
  { unfold has_key. now rewrite lookup_delete_same. }
  repeat split; trivial.
  - now apply getApi_absent.
  - unfold resolver, resolverBody, context. simpl get_prop at 1.
    rewrite get_set_same. unfold obind at 1.
    rewrite getApi_absent by exact Hkey. reflexivity.
  - intros v. apply resolverBody_never_returns.
Qed.

(** ** The seed of the aggregate *)

Lemma seedConfig_resolvers (defaultConfig : object) :
  get "resolvers" (seedConfig defaultConfig) =
  VArray (if truthy (get "resolvers" defaultConfig)
             && negb (isArray (get "resolvers" defaultConfig))
          then [get "resolvers" defaultConfig] else []).
Proof. unfold seedConfig, objectAssign. simpl. apply get_set_same. Qed.

(** A single resolver map of the base configuration becomes a one-element
    array. *)
Lemma seedConfig_single_resolver_map (defaultConfig : object) :
  truthy (get "resolvers" defaultConfig) = true ->
  isArray (get "resolvers" defaultConfig) = false ->
  get "resolvers" (seedConfig defaultConfig) = VArray [get "resolvers" defaultConfig].
Proof. intros Ht Ha. rewrite seedConfig_resolvers. now rewrite Ht, Ha. Qed.

(** C3.  A base configuration whose [resolvers] is an array, whatever it
    holds: the seed's [resolvers] is the empty array, and with no extension
    registered the aggregate is that seed. *)
Theorem seedConfig_drops_resolver_array
    (defaultConfig : object) (resolverMaps : list value)
    (log : list log_entry) (events : list (string * value)) :
  let base := set "resolvers" (VArray resolverMaps) defaultConfig in
  get "resolvers" base = VArray resolverMaps /\
  get "resolvers" (seedConfig base) = VArray [] /\
  aggregateConfig base (mkWorld log [] events) =
  (mkWorld log [] events, Ret (seedConfig base)) /\
  (forall config, snd (aggregateConfig base (mkWorld log [] events)) = Ret config ->
                  get "resolvers" config = VArray []).
Proof.
  intros base.
  assert (Hbase : get "resolvers" base = VArray resolverMaps) by apply get_set_same.
  assert (Hseed : get "resolvers" (seedConfig base) = VArray []).
  { rewrite seedConfig_resolvers, Hbase. reflexivity. }
  repeat split; trivial.
  intros config. simpl. intros [= <-]. exact Hseed.
Qed.

(** ** Merging backend configurations *)

Lemma inb_In x l : inb x l = true <-> In x l.
Proof.
  unfold inb. rewrite existsb_exists. split.
  - intros (y & Hy & E). apply String.eqb_eq in E. now subst.
  - intros H. exists x. split; [exact H | apply String.eqb_refl].
Qed.

Lemma indexOf_found xs x :
  (0 <=? indexOf xs x)%Z = existsb (fun y => strict_equals y x) xs.
Proof.
  induction xs as [|y ys IH]; simpl; [reflexivity |].
  destruct (strict_equals y x); simpl; [reflexivity |].
  rewrite <- IH.
  destruct (indexOf ys x <? 0)%Z eqn:E.
  - apply Z.ltb_lt in E. symmetry. apply Z.leb_gt. exact E.
  - apply Z.ltb_ge in E. transitivity true; [| symmetry]; apply Z.leb_le; lia.
Qed.

Lemma indexOf_strings p x :
  (0 <=? indexOf (map VString p) (VString x))%Z = inb x p.
Proof.
  rewrite indexOf_found. unfold inb.
  induction p as [|y p IH]; simpl; [reflexivity |].
  now rewrite IH, (String.eqb_sym y x).
Qed.

Lemma filter_strings p c :
  filter (fun loc => (0 <=? indexOf (map VString p) loc)%Z) (map VString c) =
  map VString (filter (fun loc => inb loc p) c).
Proof.
  induction c as [|x c IH]; simpl; [reflexivity |].
  rewrite indexOf_strings. destruct (inb x p); simpl; now rewrite IH.
Qed.

(** Both sides have a list of locales: the current one is filtered by
    membership in the accumulator's. *)
Lemma mergeBackendConfig_both (prev current : object) p c :
  get "locales" prev = strings p -> get "locales" current = strings c ->
  mergeBackendConfig prev (VObject current) =
  [("locales", strings (filter (fun loc => inb loc p) c))].
Proof.
  intros Hp Hc. unfold mergeBackendConfig, localesOf. simpl.
  rewrite Hp, Hc. simpl. unfold strings. now rewrite filter_strings.
Qed.

Lemma mergeBackendConfig_current_only (prev current : object) c :
  isArray (get "locales" prev) = false -> get "locales" current = VArray c ->
  mergeBackendConfig prev (VObject current) = [("locales", VArray c)].
Proof.
  intros Hp Hc. unfold mergeBackendConfig, localesOf. simpl.
  now rewrite Hp, Hc.
Qed.

Lemma mergeBackendConfig_prev_only (prev current : object) p :
  get "locales" prev = VArray p -> isArray (get "locales" current) = false ->
  mergeBackendConfig prev (VObject current) = [("locales", VArray p)].
Proof.
  intros Hp Hc. unfold mergeBackendConfig, localesOf. simpl.
  now rewrite Hp, Hc.
Qed.

(** The accumulator never holds a field other than [locales]. *)
Lemma mergeBackendConfigs_fields configs (acc : object) :
  (forall k, has_key k acc = true -> k = "locales") ->
  forall k, has_key k (fold_left mergeBackendConfig configs acc) = true -> k = "locales".
Proof.
  revert acc. induction configs as [|current configs IH]; intros acc Hacc; simpl.
  - exact Hacc.
  - apply IH. unfold mergeBackendConfig.
    destruct (negb (truthy current)); [exact Hacc |].
    intros k. unfold has_key. simpl.
    destruct (k =? "locales") eqn:E; [| discriminate].
    intros _. now apply String.eqb_eq.
Qed.

(** Over providers that all have a list, what is left is what every list
    holds. *)
Lemma mergeBackendConfigs_common (sources : list object) (lists : list (list string)) a :
  Forall2 (fun source l => get "locales" source = strings l) sources lists ->
  exists merged,
    fold_left mergeBackendConfig (map VObject sources) [("locales", strings a)] =
    [("locales", strings merged)] /\
    forall loc, In loc merged <-> In loc a /\ Forall (In loc) lists.
Proof.
  forget_parameters.
  intros H. revert a.
  induction H as [|source l sources lists Hsource _ IH]; intros a; simpl.
  - exists a. split; [reflexivity |]. intros loc. split; [now split | tauto].
  - rewrite (mergeBackendConfig_both [("locales", strings a)] source a l eq_refl Hsource).
    destruct (IH (filter (fun loc => inb loc a) l)) as (merged & Hm & Hin).
    exists merged. split; [exact Hm |].
    intros loc. rewrite Hin, filter_In, inb_In. split.
    + intros [[Hl Ha] Hrest]. split; [exact Ha | now constructor].
    + intros [Ha Hall]. inversion Hall; subst. tauto.
Qed.

(** C4.  The reduction of [mergeBackendConfigs] starts from the empty
    object and takes the collected configs one by one.  When the
    accumulator and the config both have a list of locales, the result
    holds the config's locales that are also, as equal strings, among the
    accumulator's; when only one of them has a list, that list is taken;
    the reduced object has no field but [locales]; over providers that all
    have a list, a locale is kept exactly when every provider lists it. *)
Theorem mergeBackendConfigs_intersects_locales :
  mergeBackendConfigs [] = [] /\
  (forall configs current,
      mergeBackendConfigs (configs ++ [current]) =
      mergeBackendConfig (mergeBackendConfigs configs) current) /\
  (forall (prev current : object) p c,
      get "locales" prev = strings p -> get "locales" current = strings c ->
      mergeBackendConfig prev (VObject current) =
      [("locales", strings (filter (fun loc => inb loc p) c))] /\
      forall loc, In loc (filter (fun loc => inb loc p) c) <-> In loc c /\ In loc p) /\
  (forall (prev current : object) c,
      isArray (get "locales" prev) = false -> get "locales" current = VArray c ->
      mergeBackendConfig prev (VObject current) = [("locales", VArray c)]) /\
  (forall (prev current : object) p,
      get "locales" prev = VArray p -> isArray (get "locales" current) = false ->
      mergeBackendConfig prev (VObject current) = [("locales", VArray p)]) /\
  (forall configs k, has_key k (mergeBackendConfigs configs) = true -> k = "locales") /\
  (forall (first : object) (rest : list object) l lists,
      get "locales" first = strings l ->
      Forall2 (fun source l => get "locales" source = strings l) rest lists ->
      exists merged,
        mergeBackendConfigs (map VObject (first :: rest)) = [("locales", strings merged)] /\
        forall loc, In loc merged <-> Forall (In loc) (l :: lists)) /\
  mergeBackendConfigs
    [VObject [("locales", strings ["en"; "de"]); ("currency", VString "EUR")];
     VObject [("locales", strings ["de"; "fr"])]] = [("locales", strings ["de"])] /\
  mergeBackendConfigs [VObject [("currency", VString "EUR")];
                       VObject [("locales", strings ["en"])]] = [("locales", strings ["en"])] /\
  mergeBackendConfigs [VObject [("locales", strings ["en"])];
                       VObject [("currency", VString "EUR")]] = [("locales", strings ["en"])].
Proof.
  forget_parameters.
  split; [reflexivity |].
  split. { intros configs current. unfold mergeBackendConfigs. now rewrite fold_left_app. }
  split.
  { intros prev current p c Hp Hc. split.
    - now apply mergeBackendConfig_both.
    - intros loc. rewrite filter_In, inb_In. tauto. }
  split; [exact mergeBackendConfig_current_only |].
  split; [exact mergeBackendConfig_prev_only |].
  split.
  { intros configs. apply mergeBackendConfigs_fields. intros k. discriminate. }
  split; [| repeat split; reflexivity].
  intros first rest l lists Hfirst Hrest.
  unfold mergeBackendConfigs. simpl map. simpl fold_left.
  rewrite (mergeBackendConfig_current_only [] first (map VString l) eq_refl Hfirst).
  destruct (mergeBackendConfigs_common rest lists l Hrest) as (merged & Hm & Hin).
  exists merged. split; [exact Hm |].
  intros loc. rewrite Hin. split.
  - intros [H1 H2]. now constructor.
  - intros H. inversion H; subst. tauto.
Qed.

(** ** Fetching the backend configuration *)

Lemma fetchEach_lacking obj args context info apis :
  Exists (fun p => lacksBackendConfig (snd p)) apis ->
  forall configs w v,
    snd (fetchEach obj args context info apis configs w) = Ret v -> v = VUndefined.
Proof.
  induction apis as [|[apiName api] apis IH]; intros Hex configs w v.
  - inversion Hex.
  - simpl. unfold bind, lift.
    destruct (get_prop api "fetchBackendConfig") as [method|e] eqn:Hm; [| discriminate].
    destruct (typeof method =? "function") eqn:Hf; simpl.
    + unfold writeLog.
      destruct (call method api [obj; args; context; info]) as [apiConfig|e]; [| discriminate].
      apply IH. inversion Hex as [? ? Hhead | ? ? Htail]; subst; [| exact Htail].
      destruct Hhead as (method' & Hm' & Hf'). simpl in Hm'. congruence.
    + now intros [= <-].
Qed.

Lemma fetchEach_stops obj args context info before apiName api after :
  Forall (fun p => answersBackendConfig obj args context info (snd p)) before ->
  lacksBackendConfig api ->
  forall configs w,
    snd (fetchEach obj args context info (before ++ (apiName, api) :: after) configs w) =
    Ret VUndefined.
Proof.
  intros Hbefore (method & Hm & Hf).
  induction Hbefore as [|[name0 api0] before (m0 & a0 & Hm0 & Hf0 & Hcall0) _ IH];
    intros configs w; simpl; unfold bind, lift.
  - rewrite Hm, Hf. reflexivity.
  - simpl in Hm0, Hcall0. rewrite Hm0, Hf0. simpl. rewrite Hcall0. apply IH.
Qed.

(** C5.  When one of the data sources of the request context has no
    function under [fetchBackendConfig], the resolver never answers with a
    merged configuration: whatever it returns is [undefined]; and it does
    return [undefined] when the data sources before that one have the
    function and their fetches answer. *)
Theorem fetchBackendConfig_all_or_nothing
    (obj args context info dataSources : value) (before after : object)
    (apiName : string) (api : value) :
  get_prop context "dataSources" = Ret dataSources ->
  objectEntries dataSources = Ret (before ++ (apiName, api) :: after) ->
  lacksBackendConfig api ->
  (forall w v, snd (fetchBackendConfig obj args context info w) = Ret v -> v = VUndefined) /\
  (Forall (fun p => answersBackendConfig obj args context info (snd p)) before ->
   forall w, snd (fetchBackendConfig obj args context info w) = Ret VUndefined).
Proof.
  intros Hds Hentries Hlacks.
  assert (Hrun : forall w, fetchBackendConfig obj args context info w =
                           fetchEach obj args context info
                             (before ++ (apiName, api) :: after) [] w).
  { intros w. unfold fetchBackendConfig, bind, lift. now rewrite Hds, Hentries. }
  split.
  - intros w v. rewrite Hrun. apply fetchEach_lacking.
    apply Exists_app. right. now constructor.
  - intros Hbefore w. rewrite Hrun. now apply fetchEach_stops.
Qed.

(** ** The context handler *)

Lemma runModifiers_snoc arg modifiers modifier ctx0 :
  runModifiers arg (modifiers ++ [modifier]) ctx0 =
  (ctx <-- runModifiers arg modifiers ctx0 ;;
   contribution <-- contributionOf arg ctx modifier ;;
   Ret (objectAssign ctx contribution)).
Proof.
  revert ctx0. induction modifiers as [|m modifiers IH]; intros ctx0; simpl.
  - reflexivity.
  - destruct (contributionOf arg ctx0 m) as [c|e]; simpl; [apply IH | reflexivity].
Qed.

Lemma runModifiers_snoc_inv arg modifiers modifier ctx' :
  runModifiers arg (modifiers ++ [modifier]) [] = Ret ctx' ->
  exists ctx contribution,
    runModifiers arg modifiers [] = Ret ctx /\
    contributionOf arg ctx modifier = Ret contribution /\
    ctx' = objectAssign ctx contribution.
Proof.
  rewrite runModifiers_snoc. unfold obind.
  destruct (runModifiers arg modifiers []) as [ctx|e]; [| discriminate].
  destruct (contributionOf arg ctx modifier) as [c|e] eqn:Hc; [| discriminate].
  intros [= <-]. exists ctx, c. auto.
Qed.

Lemma runModifiers_merge arg modifiers ctx :
  runModifiers arg modifiers [] = Ret ctx -> SuccessiveMerge arg modifiers ctx.
Proof.
  revert ctx. induction modifiers as [|modifier modifiers IH] using rev_ind; intros ctx.
  - simpl. intros [= <-]. constructor.
  - intros H. apply runModifiers_snoc_inv in H.
    destruct H as (ctx0 & c & Hrun & Hc & ->).
    unfold contributionOf in Hc.
    destruct (typeof modifier =? "function") eqn:E.
    + apply String.eqb_eq in E. apply merge_function; [now apply IH | exact E | exact Hc].
    + apply String.eqb_neq in E. injection Hc as <-.
      apply merge_literal; [now apply IH | exact E].
Qed.

Lemma merge_runModifiers arg modifiers ctx :
  SuccessiveMerge arg modifiers ctx -> runModifiers arg modifiers [] = Ret ctx.
Proof.
  induction 1 as [| modifiers ctx modifier returned _ IH Hf Hcall
                  | modifiers ctx modifier _ IH Hf].
  - reflexivity.
  - rewrite runModifiers_snoc, IH. simpl. unfold contributionOf.
    apply String.eqb_eq in Hf. rewrite Hf, Hcall. reflexivity.
  - rewrite runModifiers_snoc, IH. simpl. unfold contributionOf.
    apply String.eqb_neq in Hf. now rewrite Hf.
Qed.

Lemma runModifiers_total arg modifiers :
  (forall modifier ctx,
      In modifier modifiers -> typeof modifier = "function" ->
      exists returned, call modifier VUndefined [arg; VObject ctx] = Ret returned) ->
  forall ctx0, exists ctx, runModifiers arg modifiers ctx0 = Ret ctx.
Proof.
  induction modifiers as [|modifier modifiers IH]; intros Hcalls ctx0; simpl.
  - now exists ctx0.
  - assert (Hc : exists c, contributionOf arg ctx0 modifier = Ret c).
    { unfold contributionOf. destruct (typeof modifier =? "function") eqn:E.
      - apply String.eqb_eq in E. apply Hcalls; [now left | exact E].
      - now exists modifier. }
    destruct Hc as (c & Hc). rewrite Hc. simpl.
    apply IH. intros m ctx Hin. apply Hcalls. now right.
Qed.

(** The context handler of the configuration [createGraphQLConfig] returns
    runs over the [contextModifiers] of the aggregate. *)
Lemma createGraphQLConfig_context defaultConfig w w' served :
  createGraphQLConfig defaultConfig w = (w', Ret served) ->
  exists config,
    snd (aggregateConfig defaultConfig w) = Ret config /\
    cfg_context served = contextHandler (get "contextModifiers" config).
Proof.
  unfold createGraphQLConfig, bind, lift, ret.
  destruct (aggregateConfig defaultConfig w) as [w1 [config|e]]; [| discriminate].
  destruct (makeExecutableSchema _ _); [| discriminate].
  destruct (mergeSchemas _ _ _); [| discriminate].
  intros [= _ <-]. now exists config.
Qed.

(** C6.  The context handler over the modifiers [m1..mk] returns a context
    exactly when that context is the successive merge of [m1], ..., [mk]
    onto the empty object.  The last modifier's contribution decides every
    field it has, and the fields it does not have keep what the modifiers
    before it left.  The handler returns a context whenever the function
    modifiers return. *)
Theorem contextHandler_successive_merge (arg : value) :
  (forall modifiers ctx,
      contextHandler (VArray modifiers) arg = Ret ctx <-> SuccessiveMerge arg modifiers ctx) /\
  (forall modifiers modifier ctx',
      contextHandler (VArray (modifiers ++ [modifier])) arg = Ret ctx' ->
      exists ctx contribution,
        contextHandler (VArray modifiers) arg = Ret ctx /\
        contributionOf arg ctx modifier = Ret contribution /\
        ctx' = objectAssign ctx contribution /\
        (NoDup (keys (ownEnumerable contribution)) ->
         forall field,
           lookup field ctx' =
           match lookup field (ownEnumerable contribution) with
           | Some v => Some v
           | None => lookup field ctx
           end)) /\
  (forall modifiers,
      (forall modifier ctx,
          In modifier modifiers -> typeof modifier = "function" ->
          exists returned, call modifier VUndefined [arg; VObject ctx] = Ret returned) ->
      exists ctx, contextHandler (VArray modifiers) arg = Ret ctx).
Proof.
  split; [| split].
  - intros modifiers ctx. simpl. split; [apply runModifiers_merge | apply merge_runModifiers].
  - intros modifiers modifier ctx'. simpl. intros H.
    apply runModifiers_snoc_inv in H. destruct H as (ctx & c & Hrun & Hc & ->).
    exists ctx, c. repeat split; trivial.
    intros Hnd field. now apply lookup_assignProps.
  - intros modifiers Hcalls. simpl. now apply runModifiers_total.
Qed.

(** ** Merging: what is logged and what is returned *)

Lemma addLogs_nil w : addLogs w [] = w.
Proof. destruct w. unfold addLogs. simpl. now rewrite app_nil_r. Qed.

Lemma addLogs_app w l1 l2 : addLogs (addLogs w l1) l2 = addLogs w (l1 ++ l2).
Proof. unfold addLogs. simpl. now rewrite app_assoc. Qed.

Lemma foldM_run {A S} (body : S -> A -> M S) logged step :
  (forall s a w, body s a w = (addLogs w (logged s a), step s a)) ->
  forall xs s w,
    foldM body xs s w = (addLogs w (foldLogs logged step xs s), ofold step xs s).
Proof.
  intros Hbody. induction xs as [|x xs IH]; intros s w; simpl.
  - unfold ret. now rewrite addLogs_nil.
  - unfold bind. rewrite Hbody.
    destruct (step s x) as [s'|e]; simpl.
    + now rewrite IH, addLogs_app.
    + now rewrite app_nil_r.
Qed.

Lemma forEach_warnings {A} (test : A -> bool) (message : A -> string) xs w :
  forEach xs (fun x => if test x then writeLog (LogWarn (message x)) else ret tt) w =
  (addLogs w (flat_map (fun x => if test x then [LogWarn (message x)] else []) xs), Ret tt).
Proof.
  revert w. induction xs as [|x xs IH]; intros w; simpl.
  - unfold ret. now rewrite addLogs_nil.
  - unfold bind. destruct (test x); simpl.
    + unfold writeLog. fold (addLogs w [LogWarn (message x)]).
      now rewrite IH, addLogs_app.
    + unfold ret. apply IH.
Qed.

Lemma mergeOption_run source extensionName dest name w :
  mergeOption source extensionName dest name w =
  (addLogs w (optionLogs source extensionName name), optionResult source dest name).
Proof.
  unfold mergeOption, optionLogs, optionResult, isSupportedOption, isSchemaOption,
    skipsOption.
  destruct ((name =? "") || (typeof (get name source) =? "undefined")).
  { unfold ret. now rewrite addLogs_nil. }
  destruct ((name =? "schema") || (name =? "schemas")).
  { unfold bind.
    rewrite (forEach_warnings (fun schemaItem => negb (typeof schemaItem =? "string"))
               (nonStringSchemaMessage extensionName name)).
    unfold lift, obind, ret.
    now destruct (push "schemas" (get "schemas" dest) (toValueArray (get name source))). }
  simpl.
  destruct (name =? "resolvers").
  { unfold bind, lift, obind, ret. rewrite addLogs_nil.
    now destruct (push "resolvers" (get "resolvers" dest) (toValueArray (get name source))). }
  destruct (name =? "context").
  { unfold bind, lift, obind, ret. rewrite addLogs_nil.
    now destruct (push "contextModifiers" (get "contextModifiers" dest) [get name source]). }
  destruct (name =? "dataSources").
  { unfold bind, lift, obind, ret. rewrite addLogs_nil.
    now destruct (objectAssignTo (get "dataSources" dest) (get name source)). }
  reflexivity.
Qed.

Lemma mergeGraphQLConfig_run dest source extensionName w :
  mergeGraphQLConfig dest source extensionName w =
  (addLogs w (mergeLogs dest source extensionName), mergeResult dest source).
Proof.
  unfold mergeGraphQLConfig, mergeLogs, mergeResult, bind, writeLog.
  rewrite (foldM_run (mergeOption source extensionName)
             (fun _ name => optionLogs source extensionName name) (optionResult source)).
  - unfold addLogs. simpl. now rewrite <- app_assoc.
  - intros s a w'. apply mergeOption_run.
Qed.

Lemma aggregateConfig_run defaultConfig w :
  aggregateConfig defaultConfig w =
  (addLogs w (aggregateLogs defaultConfig (entries w)),
   aggregateResult defaultConfig (entries w)).
Proof.
  unfold aggregateConfig, bind, getEntries, aggregateLogs, aggregateResult.
  apply foldM_run. intros s a w'. apply mergeGraphQLConfig_run.
Qed.

(** ** One round of the merge *)

Lemma push_Ret name target items result :
  push name target items = Ret result ->
  exists xs, target = VArray xs /\ result = VArray (xs ++ items).
Proof.
  destruct target; simpl; try discriminate.
  intros [= <-]. now eexists.
Qed.

Lemma push_Throw name target items e :
  push name target items = Throw e -> isArray target = false /\ exists msg, e = TypeError msg.
Proof.
  destruct target; simpl; try discriminate; intros [= <-]; split; trivial; now eexists.
Qed.

Lemma objectAssignTo_Throw target source e :
  objectAssignTo target source = Throw e ->
  nullish target = true /\ e = TypeError "Cannot convert undefined or null to object".
Proof. destruct target; simpl; try discriminate; now intros [= <-]. Qed.

Lemma objectAssignTo_nullish target source :
  nullish target = true ->
  objectAssignTo target source = Throw (TypeError "Cannot convert undefined or null to object").
Proof. destruct target; simpl; try discriminate; reflexivity. Qed.

(** A round leaves every field but the four of the aggregate as it was. *)
Lemma optionResult_frame source dest name dest' field :
  optionResult source dest name = Ret dest' ->
  ~ In field aggregateFields ->
  lookup field dest' = lookup field dest.
Proof.
  forget_parameters.
  intros H Hfield. revert H. unfold aggregateFields in Hfield.
  option_cases source name; unfold obind.
  - now intros [= <-].
  - destruct (push "schemas" _ _); [| discriminate]. intros [= <-].
    apply lookup_set_other. field_neq Hfield.
  - destruct (push "resolvers" _ _); [| discriminate]. intros [= <-].
    apply lookup_set_other. field_neq Hfield.
  - destruct (push "contextModifiers" _ _); [| discriminate]. intros [= <-].
    apply lookup_set_other. field_neq Hfield.
  - destruct (objectAssignTo _ _); [| discriminate]. intros [= <-].
    destruct (get "dataSources" dest); trivial.
    apply lookup_set_other. field_neq Hfield.
  - now intros [= <-].
Qed.

(** A round appends the option's fragments to [schemas]. *)
Lemma optionResult_schemas source dest name dest' xs :
  optionResult source dest name = Ret dest' ->
  get "schemas" dest = VArray xs ->
  get "schemas" dest' = VArray (xs ++ optionFragments source name).
Proof.
  intros H Hxs. revert H.
  option_cases source name; unfold obind; rewrite ?app_nil_r.
  - now intros [= <-].
  - rewrite Hxs. simpl. intros [= <-]. apply get_set_same.
  - destruct (push "resolvers" _ _); [| discriminate]. intros [= <-].
    now rewrite get_set_other.
  - destruct (push "contextModifiers" _ _); [| discriminate]. intros [= <-].
    now rewrite get_set_other.
  - destruct (objectAssignTo _ _); [| discriminate]. intros [= <-].
    destruct (get "dataSources" dest); trivial.
    now rewrite get_set_other.
  - now intros [= <-].
Qed.

Lemma optionResult_arraysReady source dest name dest' :
  optionResult source dest name = Ret dest' ->
  arraysReady dest = true -> arraysReady dest' = true.
Proof.
  intros H Hready. revert H. unfold arraysReady in *.
  option_cases source name; unfold obind.
  - now intros [= <-].
  - destruct (push "schemas" _ _) as [r|] eqn:Hp; [| discriminate]. intros [= <-].
    apply push_Ret in Hp. destruct Hp as (xs & _ & ->).
    rewrite get_set_same, !get_set_other by reflexivity. simpl.
    now apply andb_prop in Hready as [[_ ->]%andb_prop ->].
  - destruct (push "resolvers" _ _) as [r|] eqn:Hp; [| discriminate]. intros [= <-].
    apply push_Ret in Hp. destruct Hp as (xs & _ & ->).
    rewrite get_set_same, !get_set_other by reflexivity. simpl.
    apply andb_prop in Hready as [[-> _]%andb_prop ->]. reflexivity.
  - destruct (push "contextModifiers" _ _) as [r|] eqn:Hp; [| discriminate]. intros [= <-].
    apply push_Ret in Hp. destruct Hp as (xs & _ & ->).
    rewrite get_set_same, !get_set_other by reflexivity. simpl.
    apply andb_prop in Hready as [-> _]. reflexivity.
  - destruct (objectAssignTo _ _); [| discriminate]. intros [= <-].
    destruct (get "dataSources" dest); trivial.
    now rewrite !get_set_other by reflexivity.
  - now intros [= <-].
Qed.

Lemma optionResult_dataSources source dest name dest' :
  optionResult source dest name = Ret dest' ->
  nullish (get "dataSources" dest') = nullish (get "dataSources" dest).
Proof.
  option_cases source name; unfold obind.
  - now intros [= <-].
  - destruct (push "schemas" _ _); [| discriminate]. intros [= <-].
    now rewrite get_set_other.
  - destruct (push "resolvers" _ _); [| discriminate]. intros [= <-].
    now rewrite get_set_other.
  - destruct (push "contextModifiers" _ _); [| discriminate]. intros [= <-].
    now rewrite get_set_other.
  - destruct (objectAssignTo _ _) as [r|] eqn:Ha; [| discriminate]. intros [= <-].
    destruct (get "dataSources" dest) eqn:Hd; rewrite ?Hd; trivial.
    simpl in Ha. injection Ha as <-. now rewrite get_set_same.
  - now intros [= <-].
Qed.

(** A round throws nothing but a [TypeError]. *)
Lemma optionResult_Throw source dest name e :
  optionResult source dest name = Throw e ->
  (exists msg, e = TypeError msg) /\
  (arraysReady dest = true ->
   name = "dataSources" /\ skipsOption source name = false /\
   nullish (get "dataSources" dest) = true /\
   e = TypeError "Cannot convert undefined or null to object").
Proof.
  unfold arraysReady. option_cases source name; unfold obind.
  - discriminate.
  - destruct (push "schemas" _ _) eqn:Hp; [discriminate |]. intros [= <-].
    apply push_Throw in Hp. destruct Hp as [Hp He]. split; [exact He |].
    rewrite Hp. discriminate.
  - destruct (push "resolvers" _ _) eqn:Hp; [discriminate |]. intros [= <-].
    apply push_Throw in Hp. destruct Hp as [Hp He]. split; [exact He |].
    rewrite Hp, andb_false_r. discriminate.
  - destruct (push "contextModifiers" _ _) eqn:Hp; [discriminate |]. intros [= <-].
    apply push_Throw in Hp. destruct Hp as [Hp He]. split; [exact He |].
    rewrite Hp, andb_false_r. discriminate.
  - destruct (objectAssignTo _ _) eqn:Ha; [discriminate |]. intros [= <-].
    apply objectAssignTo_Throw in Ha. destruct Ha as [Hn ->].
    apply String.eqb_eq in Hds. split; [now eexists | auto].
  - discriminate.
Qed.

(** The [dataSources] option on a destination without data sources. *)
Lemma optionResult_dataSources_nullish source dest :
  skipsOption source "dataSources" = false ->
  nullish (get "dataSources" dest) = true ->
  optionResult source dest "dataSources" =
  Throw (TypeError "Cannot convert undefined or null to object").
Proof.
  intros Hskip Hn. unfold optionResult. rewrite Hskip. simpl.
  now rewrite objectAssignTo_nullish.
Qed.

(** A round on an option without a merge rule: the destination is
    returned as it is, and the warning is logged unless the guard of line
    182 skips the option. *)
Lemma optionResult_unsupported source dest name :
  isSupportedOption name = false -> optionResult source dest name = Ret dest.
Proof.
  unfold isSupportedOption. intros H.
  apply orb_false_elim in H as [H Hds]. apply orb_false_elim in H as [H Hctx].
  apply orb_false_elim in H as [Hschema Hres].
  unfold optionResult. rewrite Hschema, Hres, Hctx, Hds.
  now destruct (skipsOption source name).
Qed.

Lemma optionLogs_unsupported source extensionName name :
  isSupportedOption name = false ->
  optionLogs source extensionName name =
  if skipsOption source name then []
  else [LogWarn (unsupportedOptionMessage extensionName name)].
Proof.
  intros H. unfold optionLogs. rewrite H.
  unfold isSupportedOption in H.
  apply orb_false_elim in H as [H _]. apply orb_false_elim in H as [H _].
  apply orb_false_elim in H as [Hschema _]. now rewrite Hschema.
Qed.

(** ** The whole merge *)

Lemma ofold_preserved {A S} (step : S -> A -> outcome S) (P : S -> Prop) :
  (forall s a s', step s a = Ret s' -> P s -> P s') ->
  forall xs s s', ofold step xs s = Ret s' -> P s -> P s'.
Proof.
  intros Hstep. induction xs as [|x xs IH]; intros s s'; simpl.
  - now intros [= <-].
  - unfold obind. destruct (step s x) as [s1|] eqn:E; [| discriminate].
    intros H Hs. apply (IH s1 s' H). now apply (Hstep s x).
Qed.

Lemma ofold_schemas {A} (step : object -> A -> outcome object) (fragments : A -> list value) :
  (forall s a s' xs,
      step s a = Ret s' -> get "schemas" s = VArray xs ->
      get "schemas" s' = VArray (xs ++ fragments a)) ->
  forall l s s' xs,
    ofold step l s = Ret s' -> get "schemas" s = VArray xs ->
    get "schemas" s' = VArray (xs ++ flat_map fragments l).
Proof.
  intros Hstep. induction l as [|a l IH]; intros s s' xs; simpl.
  - intros [= <-]. now rewrite app_nil_r.
  - unfold obind. destruct (step s a) as [s1|] eqn:E; [| discriminate].
    intros H Hxs. rewrite app_assoc. apply (IH s1 s' (xs ++ fragments a) H).
    now apply (Hstep s a).
Qed.

Lemma ofold_frame {A} (step : object -> A -> outcome object) field :
  (forall s a s', step s a = Ret s' -> lookup field s' = lookup field s) ->
  forall l s s', ofold step l s = Ret s' -> lookup field s' = lookup field s.
Proof.
  intros Hstep l s s' H.
  refine (ofold_preserved step (fun s0 => lookup field s0 = lookup field s) _ l s s' H eq_refl).
  intros s1 a s2 Hs2 Hs1. rewrite <- Hs1. now apply (Hstep s1 a).
Qed.

Lemma ofold_total {A S} (step : S -> A -> outcome S) (P : S -> Prop) (ok : A -> Prop) :
  (forall s a, P s -> ok a -> exists s', step s a = Ret s' /\ P s') ->
  forall xs s, P s -> Forall ok xs -> exists s', ofold step xs s = Ret s' /\ P s'.
Proof.
  intros Hstep. induction xs as [|x xs IH]; intros s Hs Hok; simpl.
  - now exists s.
  - inversion Hok; subst.
    destruct (Hstep s x Hs) as (s1 & E & Hs1); trivial.
    rewrite E. simpl. now apply IH.
Qed.

(** A throw of a loop is the throw of one of its rounds. *)
Lemma ofold_Throw {A S} (step : S -> A -> outcome S) (P : S -> Prop) (Q : error -> Prop) :
  (forall s a s', step s a = Ret s' -> P s -> P s') ->
  (forall s a e, step s a = Throw e -> P s -> Q e) ->
  forall xs s e, ofold step xs s = Throw e -> P s -> Q e.
Proof.
  intros Hret Hthrow. induction xs as [|x xs IH]; intros s e; simpl; [discriminate |].
  unfold obind. destruct (step s x) as [s1|e1] eqn:E.
  - intros H Hs. apply (IH s1 e H). now apply (Hret s x).
  - intros [= <-] Hs. now apply (Hthrow s x).
Qed.

Lemma foldLogs_complete {A S} (logged : A -> list log_entry) (step : S -> A -> outcome S)
    xs s s' :
  ofold step xs s = Ret s' ->
  foldLogs (fun _ a => logged a) step xs s = flat_map logged xs.
Proof.
  revert s. induction xs as [|x xs IH]; intros s; simpl; [reflexivity |].
  unfold obind. destruct (step s x) as [s1|]; [| discriminate].
  intros H. now rewrite (IH s1 H).
Qed.

Lemma mergeResult_frame dest source dest' field :
  mergeResult dest source = Ret dest' ->
  ~ In field aggregateFields ->
  lookup field dest' = lookup field dest.
Proof.
  intros H Hfield.
  refine (ofold_frame (optionResult source) field _ (keys source) dest dest' H).
  intros s a s' Hs. now apply (optionResult_frame source s a).
Qed.

Lemma mergeResult_schemas dest source dest' xs :
  mergeResult dest source = Ret dest' ->
  get "schemas" dest = VArray xs ->
  get "schemas" dest' = VArray (xs ++ ownSchemaFragments source).
Proof.
  apply (ofold_schemas (optionResult source) (optionFragments source)).
  intros s a s' ys. apply optionResult_schemas.
Qed.

Lemma optionResult_total source dest name needs :
  readyFor needs dest ->
  In name (keys source) ->
  (needs = false -> definesOption "dataSources" source = false) ->
  exists dest', optionResult source dest name = Ret dest' /\ readyFor needs dest'.
Proof.
  intros [Harrays Hds] Hin Hnone.
  destruct (optionResult source dest name) as [dest'|e] eqn:E.
  - exists dest'. split; [reflexivity |]. split.
    + now apply (optionResult_arraysReady source dest name).
    + rewrite (optionResult_dataSources source dest name dest' E). exact Hds.
  - exfalso. apply optionResult_Throw in E. destruct E as [_ E].
    destruct (E Harrays) as (-> & Hskip & Hnull & _).
    destruct needs.
    + rewrite Hds in Hnull; [discriminate | reflexivity].
    + specialize (Hnone eq_refl). unfold definesOption in Hnone.
      rewrite Hskip, andb_true_r in Hnone.
      assert (Hex : existsb (String.eqb "dataSources") (keys source) = true).
      { apply existsb_exists. exists "dataSources". split; [exact Hin | reflexivity]. }
      congruence.
Qed.

Lemma mergeResult_total dest source needs :
  readyFor needs dest ->
  (needs = false -> definesOption "dataSources" source = false) ->
  exists dest', mergeResult dest source = Ret dest' /\ readyFor needs dest'.
Proof.
  intros Hready Hnone. unfold mergeResult.
  apply (ofold_total (optionResult source) (readyFor needs)
           (fun name => In name (keys source))); trivial.
  - intros s a Hs Ha. now apply optionResult_total.
  - now apply Forall_forall.
Qed.

Lemma mergeResult_preserved (P : object -> Prop) dest source dest' :
  (forall s a s', optionResult source s a = Ret s' -> P s -> P s') ->
  mergeResult dest source = Ret dest' -> P dest -> P dest'.
Proof. intros Hstep. apply (ofold_preserved (optionResult source) P Hstep). Qed.

Lemma aggregateResult_schemas defaultConfig registered config seed :
  aggregateResult defaultConfig registered = Ret config ->
  get "schemas" (seedConfig defaultConfig) = VArray seed ->
  get "schemas" config =
  VArray (seed ++ flat_map (fun entry => ownSchemaFragments (snd entry)) registered).
Proof.
  apply (ofold_schemas (fun config entry => mergeResult config (snd entry))
           (fun entry => ownSchemaFragments (snd entry))).
  intros s a s' xs. apply mergeResult_schemas.
Qed.

Lemma aggregateResult_total defaultConfig registered needs :
  readyFor needs (seedConfig defaultConfig) ->
  (needs = false ->
   Forall (fun entry => definesOption "dataSources" (snd entry) = false) registered) ->
  exists config, aggregateResult defaultConfig registered = Ret config.
Proof.
  intros Hready Hnone.
  destruct (ofold_total (fun config entry => mergeResult config (snd entry))
              (readyFor needs)
              (fun entry => needs = false -> definesOption "dataSources" (snd entry) = false)
              (fun s a Hs Ha => mergeResult_total s (snd a) needs Hs Ha)
              registered (seedConfig defaultConfig) Hready) as (config & E & _).
  - apply Forall_forall. intros entry Hin Hneeds.
    specialize (Hnone Hneeds). rewrite Forall_forall in Hnone. now apply Hnone.
  - now exists config.
Qed.

(** ** The seed *)

Lemma lookup_seedConfig field defaultConfig :
  (field =? "resolvers") = false ->
  lookup field (seedConfig defaultConfig) =
  lookup field
    (assignProps
       [("schemas", VArray []);
        ("contextModifiers",
         VArray (if truthy (get "context" defaultConfig)
                 then [get "context" defaultConfig] else []))]
       defaultConfig).
Proof.
  intros H. unfold seedConfig, objectAssign. simpl ownEnumerable.
  unfold assignProps at 1. simpl fold_left.
  apply lookup_set_other. now rewrite String.eqb_sym.
Qed.

Lemma seedConfig_schemas_default defaultConfig :
  lookup "schemas" defaultConfig = None ->
  get "schemas" (seedConfig defaultConfig) = VArray [].
Proof.
  intros H. unfold get. rewrite lookup_seedConfig by reflexivity.
  now rewrite lookup_assignProps_absent.
Qed.

(** The context modifiers start from the base configuration's [context],
    when it has one. *)
Lemma seedConfig_contextModifiers_default defaultConfig :
  lookup "contextModifiers" defaultConfig = None ->
  get "contextModifiers" (seedConfig defaultConfig) =
  VArray (if truthy (get "context" defaultConfig) then [get "context" defaultConfig] else []).
Proof.
  intros H. unfold get at 1. rewrite lookup_seedConfig by reflexivity.
  now rewrite lookup_assignProps_absent.
Qed.

Lemma seedConfig_dataSources_absent defaultConfig :
  lookup "dataSources" defaultConfig = None ->
  get "dataSources" (seedConfig defaultConfig) = VUndefined.
Proof.
  intros H. unfold get. rewrite lookup_seedConfig by reflexivity.
  now rewrite lookup_assignProps_absent.
Qed.

Lemma seedConfig_dataSources defaultConfig :
  NoDup (keys defaultConfig) ->
  get "dataSources" (seedConfig defaultConfig) = get "dataSources" defaultConfig.
Proof.
  intros Hnd. unfold get. rewrite lookup_seedConfig by reflexivity.
  rewrite lookup_assignProps by exact Hnd.
  now destruct (lookup "dataSources" defaultConfig).
Qed.

Lemma seedConfig_arraysReady defaultConfig :
  lookup "schemas" defaultConfig = None ->
  lookup "contextModifiers" defaultConfig = None ->
  arraysReady (seedConfig defaultConfig) = true.
Proof.
  intros Hs Hc. unfold arraysReady.
  now rewrite seedConfig_schemas_default, seedConfig_contextModifiers_default,
    seedConfig_resolvers.
Qed.

(** ** Merging without data sources *)

Lemma definesOption_true name source :
  definesOption name source = true ->
  In name (keys source) /\ skipsOption source name = false.
Proof.
  unfold definesOption. intros H. apply andb_prop in H as [Hex Hskip].
  apply existsb_exists in Hex. destruct Hex as (k & Hin & E).
  apply String.eqb_eq in E. subst k.
  split; [exact Hin | now apply negb_true_iff].
Qed.

Lemma mergeResult_Throw dest source e :
  mergeResult dest source = Throw e ->
  (exists msg, e = TypeError msg) /\
  (arraysReady dest = true -> e = TypeError "Cannot convert undefined or null to object").
Proof.
  intros H. split.
  - refine (ofold_Throw (optionResult source) (fun _ => True)
              (fun e => exists msg, e = TypeError msg) _ _ (keys source) dest e H I).
    + trivial.
    + intros s a e' He _. now apply optionResult_Throw in He.
  - intros Hready.
    refine (ofold_Throw (optionResult source) (fun s => arraysReady s = true)
              (fun e => e = TypeError "Cannot convert undefined or null to object")
              _ _ (keys source) dest e H Hready).
    + intros s a s'. apply optionResult_arraysReady.
    + intros s a e' He Hs. apply optionResult_Throw in He.
      destruct He as [_ He]. now destruct (He Hs) as (_ & _ & _ & ->).
Qed.

Lemma options_without_dataSources source names dest :
  nullish (get "dataSources" dest) = true ->
  In "dataSources" names ->
  skipsOption source "dataSources" = false ->
  exists e, ofold (optionResult source) names dest = Throw e.
Proof.
  intros Hnull Hin Hskip. revert dest Hnull.
  induction names as [|name names IH]; intros dest Hnull; [destruct Hin |].
  simpl. destruct (optionResult source dest name) as [dest1|e] eqn:E; simpl.
  - destruct Hin as [-> | Hin].
    + rewrite optionResult_dataSources_nullish in E by assumption. discriminate.
    + apply IH; trivial.
      now rewrite (optionResult_dataSources source dest name dest1 E).
  - now exists e.
Qed.

Lemma mergeResult_without_dataSources dest source :
  nullish (get "dataSources" dest) = true ->
  definesOption "dataSources" source = true ->
  exists e, mergeResult dest source = Throw e.
Proof.
  intros Hnull Hdef. apply definesOption_true in Hdef as [Hin Hskip].
  now apply options_without_dataSources.
Qed.

Lemma mergeResult_dataSources dest source dest' :
  mergeResult dest source = Ret dest' ->
  nullish (get "dataSources" dest') = nullish (get "dataSources" dest).
Proof.
  intros H.
  refine (mergeResult_preserved
            (fun s => nullish (get "dataSources" s) = nullish (get "dataSources" dest))
            dest source dest' _ H eq_refl).
  intros s a s' Hs Hprev. now rewrite (optionResult_dataSources source s a s' Hs).
Qed.

Lemma mergeResult_arraysReady dest source dest' :
  mergeResult dest source = Ret dest' ->
  arraysReady dest = true -> arraysReady dest' = true.
Proof.
  apply (mergeResult_preserved (fun s => arraysReady s = true)).
  intros s a s'. apply optionResult_arraysReady.
Qed.

Lemma aggregate_without_dataSources (registered : list (string * object)) config :
  nullish (get "dataSources" config) = true ->
  Exists (fun entry => definesOption "dataSources" (snd entry) = true) registered ->
  exists msg,
    ofold (fun config entry => mergeResult config (snd entry)) registered config =
    Throw (TypeError msg) /\
    (arraysReady config = true -> msg = "Cannot convert undefined or null to object").
Proof.
  intros Hnull Hex. revert config Hnull.
  induction registered as [|entry registered IH]; intros config Hnull; [inversion Hex |].
  simpl. destruct (mergeResult config (snd entry)) as [config1|e] eqn:E; simpl.
  - inversion Hex as [? ? Hhead | ? ? Htail]; subst.
    + destruct (mergeResult_without_dataSources config (snd entry) Hnull Hhead) as (e & He).
      congruence.
    + destruct (IH Htail config1) as (msg & Hmsg & Hready).
      { now rewrite (mergeResult_dataSources config (snd entry) config1 E). }
      exists msg. split; [exact Hmsg |].
      intros Hc. apply Hready. now apply (mergeResult_arraysReady config (snd entry)).
  - apply mergeResult_Throw in E. destruct E as [(msg & ->) Hready].
    exists msg. split; [reflexivity |].
    intros Hc. specialize (Hready Hc). now injection Hready.
Qed.

(** C10.  A base configuration without a [dataSources] field, and a
    registered extension whose stored config has a [dataSources] option:
    [createGraphQLConfig] throws a [TypeError], the one the merge inside
    it throws; with a seed whose [schemas] and [contextModifiers] are
    arrays, as they are unless the base configuration brings other values
    of its own for them, it is the [TypeError] of [Object.assign] on the
    undefined destination field. *)
Theorem createGraphQLConfig_without_dataSources (defaultConfig : object) (w : world) :
  lookup "dataSources" defaultConfig = None ->
  Exists (fun entry => definesOption "dataSources" (snd entry) = true) (entries w) ->
  exists msg,
    snd (aggregateConfig defaultConfig w) = Throw (TypeError msg) /\
    snd (createGraphQLConfig defaultConfig w) = Throw (TypeError msg) /\
    (isArray (get "schemas" (seedConfig defaultConfig)) = true ->
     isArray (get "contextModifiers" (seedConfig defaultConfig)) = true ->
     msg = "Cannot convert undefined or null to object").
Proof.
  intros Hds Hex.
  destruct (aggregate_without_dataSources (entries w) (seedConfig defaultConfig))
    as (msg & Hthrow & Hmsg); trivial.
  { now rewrite seedConfig_dataSources_absent. }
  exists msg. unfold createGraphQLConfig, bind.
  rewrite aggregateConfig_run. unfold aggregateResult. rewrite Hthrow. simpl.
  repeat split. intros Hs Hc. apply Hmsg.
  unfold arraysReady. now rewrite Hs, Hc, seedConfig_resolvers.
Qed.

(** ** Options without a merge rule *)

(** C9, as the code has it.  A key of the extension config that is none of
    [schema], [schemas], [resolvers], [context] and [dataSources]: its
    round of the merge returns the destination as it is, and logs the
    warning unless the key is the empty string or its value is
    [undefined], in which case the guard of line 182 skips it without a
    word; when the merge completes, that warning is in the log, and the
    aggregate has every field other than [schemas], [resolvers],
    [contextModifiers] and [dataSources] as before the merge. *)
Theorem mergeGraphQLConfig_unsupported_option
    (dest source : object) (extensionName name : string) (w : world) :
  In name (keys source) ->
  isSupportedOption name = false ->
  mergeOption source extensionName dest name w =
  (addLogs w (if skipsOption source name then []
              else [LogWarn (unsupportedOptionMessage extensionName name)]),
   Ret dest) /\
  forall dest',
    snd (mergeGraphQLConfig dest source extensionName w) = Ret dest' ->
    (skipsOption source name = false ->
     In (LogWarn (unsupportedOptionMessage extensionName name))
        (logs (fst (mergeGraphQLConfig dest source extensionName w)))) /\
    (forall field, ~ In field aggregateFields -> lookup field dest' = lookup field dest).
Proof.
  intros Hin Hunsupported. split.
  - rewrite mergeOption_run, optionLogs_unsupported by exact Hunsupported.
    now rewrite optionResult_unsupported.
  - intros dest'. rewrite mergeGraphQLConfig_run. simpl. intros Hret. split.
    + intros Hskip. apply in_or_app. right. unfold mergeLogs. right.
      rewrite (foldLogs_complete (optionLogs source extensionName) (optionResult source)
                 (keys source) dest dest' Hret).
      apply in_flat_map. exists name. split; [exact Hin |].
      rewrite optionLogs_unsupported by exact Hunsupported.
      rewrite Hskip. now left.
    + intros field Hfield. exact (mergeResult_frame dest source dest' field Hret Hfield).
Qed.

(** ** Registration *)

Lemma onlyLogs_ret {A} (a : A) : onlyLogs (ret a).
Proof. intros w. exists []. simpl. now rewrite addLogs_nil. Qed.

Lemma onlyLogs_lift {A} (o : outcome A) : onlyLogs (lift o).
Proof. intros w. exists []. simpl. now rewrite addLogs_nil. Qed.

Lemma onlyLogs_writeLog e : onlyLogs (writeLog e).
Proof. intros w. now exists [e]. Qed.

Lemma onlyLogs_bind {A B} (m : M A) (k : A -> M B) :
  onlyLogs m -> (forall a, onlyLogs (k a)) -> onlyLogs (bind m k).
Proof.
  intros Hm Hk w. unfold bind.
  destruct (Hm w) as (l1 & H1). destruct (m w) as [w1 [a|e]]; simpl in H1; subst w1.
  - destruct (Hk a (addLogs w l1)) as (l2 & H2).
    exists (l1 ++ l2). now rewrite H2, addLogs_app.
  - now exists l1.
Qed.

Lemma onlyLogs_foldM {A S} (body : S -> A -> M S) xs :
  (forall s a, onlyLogs (body s a)) -> forall s, onlyLogs (foldM body xs s).
Proof.
  intros Hbody. induction xs as [|x xs IH]; intros s; simpl.
  - apply onlyLogs_ret.
  - apply onlyLogs_bind; [apply Hbody | exact IH].
Qed.

Lemma getExtensionGraphQLConfig_onlyLogs typeDefs dataSourceName :
  onlyLogs (getExtensionGraphQLConfig typeDefs dataSourceName).
Proof.
  unfold getExtensionGraphQLConfig.
  destruct (negb (truthy typeDefs)); [apply onlyLogs_ret |].
  apply onlyLogs_bind; [apply onlyLogs_lift |]. intros rootTypes.
  apply onlyLogs_bind; [| intros; apply onlyLogs_ret].
  apply onlyLogs_foldM. intros resolvers rootType. unfold bindType.
  apply onlyLogs_foldM. intros resolvers' fieldName.
  apply onlyLogs_bind; [apply onlyLogs_writeLog | intros; apply onlyLogs_ret].
Qed.

Lemma importExtensionGraphQLSchema_onlyLogs basePath :
  onlyLogs (importExtensionGraphQLSchema basePath).
Proof.
  unfold importExtensionGraphQLSchema.
  assert (Hsub : forall path message,
             onlyLogs (writeLog message ;;; ret (readFileSync path))).
  { intros. apply onlyLogs_bind; [apply onlyLogs_writeLog | intros; apply onlyLogs_ret]. }
  destruct (requireResolve _); [| apply Hsub].
  apply onlyLogs_bind; [apply onlyLogs_writeLog |]. intros _.
  destruct (readFileSync _); [apply onlyLogs_ret | apply Hsub].
Qed.

Lemma resolveExtensionConfig_onlyLogs extKey extension :
  onlyLogs (resolveExtensionConfig extKey extension).
Proof.
  unfold resolveExtensionConfig.
  apply onlyLogs_bind.
  { destruct (truthy _); [| apply onlyLogs_ret].
    apply onlyLogs_bind; [apply onlyLogs_lift | intros; apply onlyLogs_ret]. }
  intros extGqlConfig.
  apply onlyLogs_bind; [apply importExtensionGraphQLSchema_onlyLogs |].
  intros [content|].
  - destruct (truthy _).
    + apply onlyLogs_bind; [apply getExtensionGraphQLConfig_onlyLogs |].
      intros; apply onlyLogs_ret.
    + apply onlyLogs_bind; [apply onlyLogs_writeLog | intros; apply onlyLogs_ret].
  - apply onlyLogs_bind; [apply onlyLogs_writeLog | intros; apply onlyLogs_ret].
Qed.

Lemma resolveExtensionConfig_entries extKey extension w :
  entries (fst (resolveExtensionConfig extKey extension w)) = entries w /\
  emitted (fst (resolveExtensionConfig extKey extension w)) = emitted w.
Proof.
  destruct (resolveExtensionConfig_onlyLogs extKey extension w) as (ls & ->). now simpl.
Qed.

(** Once the config of the extension is resolved, it is stored under the
    extension's key and announced, whatever the listeners then do. *)
Lemma registerExtension_stores extKey extension w w1 extGqlConfig :
  resolveExtensionConfig extKey extension w = (w1, Ret extGqlConfig) ->
  entries (fst (registerExtension (extKey, extension) w)) =
  set extKey extGqlConfig (entries w) /\
  emitted (fst (registerExtension (extKey, extension) w)) =
  emitted w ++ [registeredEvent extKey extGqlConfig] /\
  snd (registerExtension (extKey, extension) w) =
  emitAsync EXTENSION_REGISTERED (snd (registeredEvent extKey extGqlConfig)).
Proof.
  intros H. destruct (resolveExtensionConfig_entries extKey extension w) as [He Hm].
  unfold registerExtension, bind. simpl fst. simpl snd. rewrite H in *.
  simpl in He, Hm. simpl. now rewrite He, Hm.
Qed.

Lemma registerExtension_fails extKey extension w w1 e :
  resolveExtensionConfig extKey extension w = (w1, Throw e) ->
  registerExtension (extKey, extension) w = (w1, Throw e) /\ entries w1 = entries w.
Proof.
  intros H. destruct (resolveExtensionConfig_entries extKey extension w) as [He _].
  unfold registerExtension, bind. simpl fst. simpl snd. rewrite H in *. now simpl in *.
Qed.

Lemma registerExtension_Ret extension w w' :
  registerExtension extension w = (w', Ret tt) ->
  exists extGqlConfig, entries w' = set (fst extension) extGqlConfig (entries w).
Proof.
  destruct extension as [extKey extension]. intros H.
  destruct (resolveExtensionConfig extKey extension w) as [w1 [cfg|e]] eqn:E.
  - exists cfg. destruct (registerExtension_stores _ _ _ _ _ E) as (Hs & _).
    now rewrite H in Hs.
  - destruct (registerExtension_fails _ _ _ _ _ E) as (Hf & _). congruence.
Qed.

(** Extensions registered under new keys join the registry in the order
    they are registered in. *)
Lemma registerExtensions_order extensions :
  NoDup (keys extensions) ->
  forall w w',
    (forall k, In k (keys extensions) -> lookup k (entries w) = None) ->
    registerExtensions extensions w = (w', Ret tt) ->
    keys (entries w') = keys (entries w) ++ keys extensions.
Proof.
  unfold registerExtensions.
  induction extensions as [|extension extensions IH]; intros Hnd w w' Hnew; simpl.
  - intros [= <-]. now rewrite app_nil_r.
  - unfold bind at 1.
    destruct (registerExtension extension w) as [w1 [[]|e]] eqn:E; [| discriminate].
    intros Hrest. inversion Hnd as [|? ? Hnotin Hnd']; subst.
    apply registerExtension_Ret in E. destruct E as (cfg & E).
    rewrite set_absent in E by (apply Hnew; now left).
    rewrite (IH Hnd' w1 w'); trivial.
    + rewrite E. unfold keys. rewrite map_app. simpl. now rewrite <- app_assoc.
    + intros k Hk. rewrite E. rewrite lookup_app_None by (apply Hnew; now right).
      simpl. destruct (k =? fst extension) eqn:Ek; trivial.
      apply String.eqb_eq in Ek. subst k. contradiction.
Qed.

(** ** The schema fragments of the aggregate *)

Lemma aggregateConfig_schemas defaultConfig w config :
  lookup "schemas" defaultConfig = None ->
  snd (aggregateConfig defaultConfig w) = Ret config ->
  get "schemas" config =
  VArray (flat_map (fun entry => ownSchemaFragments (snd entry)) (entries w)).
Proof.
  intros Hschemas. rewrite aggregateConfig_run. simpl. intros H.
  now rewrite (aggregateResult_schemas defaultConfig (entries w) config []
                 H (seedConfig_schemas_default defaultConfig Hschemas)).
Qed.

(** C7.  Extensions registered under distinct keys in an empty registry
    stand in the registry in the order of their registration.  With a base
    configuration that brings no [schemas] of its own, the [schemas] of the
    aggregate built from a registry is the concatenation of the schema
    fragments of each registered config, in the registry's order; an entry
    without fragments changes nothing in that sequence.  The aggregate is
    built, without a throw, when the base configuration brings no
    [contextModifiers] either and either no registered config has a
    [dataSources] option or the base configuration has data sources. *)
Theorem aggregate_schemas_in_registration_order (defaultConfig : object) (w : world) :
  lookup "schemas" defaultConfig = None ->
  (forall extensions w0,
      entries w0 = [] -> NoDup (keys extensions) ->
      registerExtensions extensions w0 = (w, Ret tt) ->
      keys (entries w) = keys extensions) /\
  (forall config,
      snd (aggregateConfig defaultConfig w) = Ret config ->
      get "schemas" config =
      VArray (flat_map (fun entry => ownSchemaFragments (snd entry)) (entries w))) /\
  (forall before id source after,
      entries w = before ++ (id, source) :: after ->
      ownSchemaFragments source = [] ->
      flat_map (fun entry => ownSchemaFragments (snd entry)) (entries w) =
      flat_map (fun entry => ownSchemaFragments (snd entry)) before ++
      flat_map (fun entry => ownSchemaFragments (snd entry)) after) /\
  (lookup "contextModifiers" defaultConfig = None ->
   Forall (fun entry => definesOption "dataSources" (snd entry) = false) (entries w) \/
   NoDup (keys defaultConfig) /\ nullish (get "dataSources" defaultConfig) = false ->
   exists config, snd (aggregateConfig defaultConfig w) = Ret config).
Proof.
  intros Hschemas. split; [| split; [| split]].
  - intros extensions w0 Hempty Hnd Hrun.
    rewrite (registerExtensions_order extensions Hnd w0 w); trivial.
    + now rewrite Hempty.
    + intros k _. now rewrite Hempty.
  - intros config. now apply aggregateConfig_schemas.
  - intros before id source after -> Hnone.
    rewrite flat_map_app. simpl. now rewrite Hnone.
  - intros Hmods Hcase. rewrite aggregateConfig_run. simpl.
    assert (Harrays : arraysReady (seedConfig defaultConfig) = true)
      by now apply seedConfig_arraysReady.
    destruct Hcase as [Hnone | [Hnd Hds]].
    + apply (aggregateResult_total defaultConfig (entries w) false).
      * split; [exact Harrays | discriminate].
      * now intros _.
    + apply (aggregateResult_total defaultConfig (entries w) true).
      * split; [exact Harrays |]. intros _. now rewrite seedConfig_dataSources.
      * discriminate.
Qed.

(** ** Registering again under the same key *)

Lemma registerExtensions_single extension w :
  fst (registerExtensions [extension] w) = fst (registerExtension extension w).
Proof.
  unfold registerExtensions. simpl. unfold bind.
  now destruct (registerExtension extension w) as [w1 [[]|e]].
Qed.

(** In a registry that holds a config [old] under a key, registering
    an extension under that key, once its config [new] is resolved, puts
    [new] in the place of [old]: the registry has the same keys in the
    same order, one entry under the key, and [new] in it.  The aggregate
    built afterwards, from a base configuration as it is at that time, is
    the merge of the registry's entries with [new] at that place, and its
    schema fragments are those of [new] there, with nothing of [old]. *)
Theorem registerExtensions_replaces_config
    (extKey : string) (extension : ExtensionEntry) (old new : object) (w w1 : world) :
  NoDup (keys (entries w)) ->
  lookup extKey (entries w) = Some old ->
  resolveExtensionConfig extKey extension w = (w1, Ret new) ->
  exists before after,
    entries w = before ++ (extKey, old) :: after /\
    entries (fst (registerExtensions [(extKey, extension)] w)) =
    before ++ (extKey, new) :: after /\
    ~ In extKey (keys before) /\ ~ In extKey (keys after) /\
    lookup extKey (entries (fst (registerExtensions [(extKey, extension)] w))) = Some new /\
    (forall defaultConfig,
        snd (aggregateConfig defaultConfig (fst (registerExtensions [(extKey, extension)] w)))
        = aggregateResult defaultConfig (before ++ (extKey, new) :: after)) /\
    forall defaultConfig config,
      lookup "schemas" defaultConfig = None ->
      snd (aggregateConfig defaultConfig (fst (registerExtensions [(extKey, extension)] w)))
      = Ret config ->
      get "schemas" config =
      VArray (flat_map (fun entry => ownSchemaFragments (snd entry)) before ++
              ownSchemaFragments new ++
              flat_map (fun entry => ownSchemaFragments (snd entry)) after).
Proof.
  intros Hnd Hold Hnew.
  rewrite registerExtensions_single.
  destruct (registerExtension_stores extKey extension w w1 new Hnew) as (Hstored & _).
  destruct (set_present_split extKey new old (entries w) Hold)
    as (before & after & Hsplit & Hbefore & Hset).
  exists before, after. rewrite Hstored.
  split; [exact Hsplit |]. split; [exact Hset |].
  split; [now apply lookup_None_keys |].
  split.
  { rewrite Hsplit in Hnd. unfold keys in Hnd. rewrite map_app in Hnd. simpl in Hnd.
    apply NoDup_remove_2 in Hnd. intros Hin. apply Hnd. apply in_or_app. now right. }
  split; [apply lookup_set_same |].
  split.
  { intros defaultConfig. rewrite aggregateConfig_run. simpl. now rewrite Hstored, Hset. }
  intros defaultConfig config Hschemas Hrun.
  rewrite (aggregateConfig_schemas defaultConfig _ config Hschemas Hrun).
  rewrite Hstored, Hset, flat_map_app. reflexivity.
Qed.

(** ** What the bound resolvers do, whatever they are called with *)

Lemma get_prop_defined v name :
  nullish v = false -> exists x, get_prop v name = Ret x.
Proof. destruct v; simpl; try discriminate; intros _; now eexists. Qed.

(** X1.  No call of a resolver that [getExtensionGraphQLConfig] binds
    returns a value: every call throws, whatever the arguments, directly or
    through a call of the function value.  When the data source is there
    (not [null], not [undefined]), with or without the method, what is
    thrown is the error "resolver method is not defined". *)
Theorem resolver_always_throws
    (dataSourceName fieldName : string) (obj args context info : value) :
  (exists e, resolver dataSourceName fieldName obj args context info = Throw e) /\
  (forall depth this arguments,
      exists e,
        callFn depth (VFunction (PassThrough dataSourceName fieldName)) this arguments =
        Throw e) /\
  (forall dataSources dataSource,
      get_prop context "dataSources" = Ret dataSources ->
      getApi dataSources dataSourceName = Ret dataSource ->
      nullish dataSource = false ->
      resolver dataSourceName fieldName obj args context info =
      Throw (Error (className ^^ ": " ^^ dataSourceName ^^ "." ^^ fieldName ^^
                    "() resolver method is not defined!"))).
Proof.
  split; [| split].
  - destruct (resolver dataSourceName fieldName obj args context info) as [v|e] eqn:E.
    + exfalso. unfold resolver in E. now apply resolverBody_never_returns in E.
    + now exists e.
  - intros depth this arguments. destruct depth as [|depth]; simpl.
    + now eexists.
    + destruct (resolverBody (callFn depth) dataSourceName fieldName
                  (nth 0 arguments VUndefined) (nth 1 arguments VUndefined)
                  (nth 2 arguments VUndefined) (nth 3 arguments VUndefined)) as [v|e] eqn:E.
      * exfalso. now apply resolverBody_never_returns in E.
      * now exists e.
  - intros dataSources dataSource Hds Hapi Hnull.
    destruct (get_prop_defined dataSource fieldName Hnull) as (method & Hmethod).
    unfold resolver, resolverBody, obind. now rewrite Hds, Hapi, Hmethod.
Qed.

(** ** Every binding of getExtensionGraphQLConfig *)

Lemma bindTypes_unbound dataSourceName rootTypes typeName :
  lookup typeName rootTypes = None ->
  forall resolvers : object,
    get typeName (fold_left (bindTypeResult dataSourceName) rootTypes resolvers) =
    get typeName resolvers.
Proof.
  induction rootTypes as [|[typeName0 fields0] rootTypes IH]; intros Hnone resolvers;
    simpl in *; [reflexivity |].
  destruct (typeName =? typeName0) eqn:E; [discriminate |].
  rewrite IH by exact Hnone.
  apply bindTypeResult_other. simpl. now rewrite String.eqb_sym.
Qed.

Lemma bindTypes_exact dataSourceName rootTypes typeName fields :
  NoDup (keys rootTypes) ->
  lookup typeName rootTypes = Some fields ->
  forall resolvers : object,
  exists bound,
    get typeName (fold_left (bindTypeResult dataSourceName) rootTypes resolvers) =
    VObject bound /\
    forall fieldName,
      get fieldName bound =
      if inb fieldName fields then VFunction (PassThrough dataSourceName fieldName)
      else VUndefined.
Proof.
  intros Hnd Hlookup.
  induction rootTypes as [|[typeName0 fields0] rootTypes IH]; intros resolvers;
    [discriminate |].
  simpl in Hlookup |- *. inversion Hnd as [|? ? Hnotin Hnd']; subst.
  destruct (typeName =? typeName0) eqn:E.
  - apply String.eqb_eq in E. subst typeName0. injection Hlookup as ->.
    destruct (bindFields_bound dataSourceName typeName fields
                (set typeName (VObject []) resolvers) [] (get_set_same _ _ _))
      as (bound & Hbound & Hin & Hout).
    exists bound. split.
    + rewrite bindTypes_unbound by now apply lookup_None_keys. exact Hbound.
    + intros fieldName. destruct (inb fieldName fields) eqn:Ef.
      * apply Hin. now apply inb_In.
      * rewrite Hout; [reflexivity |]. intros Hf. apply inb_In in Hf. congruence.
  - now apply IH.
Qed.

(** X2.  For type definitions the introspector reads, the config of
    [getExtensionGraphQLConfig] has the type definitions as an array and a
    resolver map that holds, for each root type reported, exactly its
    fields, each bound to the pass-through resolver of the named data
    source and of the field's own name; no other type is in the map. *)
Theorem getExtensionGraphQLConfig_bindings
    (typeDefs : value) (dataSourceName : string)
    (rootTypes : list (string * list string)) (w : world) :
  truthy typeDefs = true ->
  getRootTypeFields typeDefs = Ret rootTypes ->
  NoDup (keys rootTypes) ->
  exists resolvers,
    snd (getExtensionGraphQLConfig typeDefs dataSourceName w) =
    Ret (VObject [("schema", VArray (toValueArray typeDefs));
                  ("resolvers", VObject resolvers)]) /\
    (forall typeName fields,
        lookup typeName rootTypes = Some fields ->
        exists bound,
          get typeName resolvers = VObject bound /\
          forall fieldName,
            get fieldName bound =
            if inb fieldName fields
            then VFunction (PassThrough dataSourceName fieldName)
            else VUndefined) /\
    (forall typeName,
        lookup typeName rootTypes = None -> get typeName resolvers = VUndefined).
Proof.
  intros Htruthy Hroot Hnd.
  exists (fold_left (bindTypeResult dataSourceName) rootTypes []).
  split; [| split].
  - pose proof (foldM_result (bindType dataSourceName) (bindTypeResult dataSourceName)
                  (bindType_result dataSourceName) rootTypes [] w) as Hfold.
    unfold getExtensionGraphQLConfig. rewrite Htruthy.
    change (negb true) with false. cbv iota.
    unfold bind, lift. rewrite Hroot.
    destruct (foldM (bindType dataSourceName) rootTypes [] w) as [w1 o].
    simpl in Hfold. subst o. reflexivity.
  - intros typeName fields Hlookup. now apply bindTypes_exact.
  - intros typeName Hnone. now rewrite bindTypes_unbound.
Qed.

(** ** Loading the schema file of an extension *)

Lemma importExtensionGraphQLSchema_content basePath w :
  snd (importExtensionGraphQLSchema basePath w) = Ret (schemaContentOf basePath).
Proof.
  unfold importExtensionGraphQLSchema, schemaContentOf, bind, writeLog, ret.
  destruct (requireResolve _) as [resolved|]; simpl; [| reflexivity].
  destruct (readFileSync resolved); reflexivity.
Qed.

(** ** The config of one extension *)

Lemma getExtensionGraphQLConfig_result typeDefs dataSourceName w :
  snd (getExtensionGraphQLConfig typeDefs dataSourceName w) =
  boundConfig typeDefs dataSourceName.
Proof.
  unfold getExtensionGraphQLConfig, boundConfig.
  destruct (negb (truthy typeDefs)); [reflexivity |].
  unfold bind, lift, obind.
  destruct (getRootTypeFields typeDefs) as [rootTypes|e]; [| reflexivity].
  pose proof (foldM_result (bindType dataSourceName) (bindTypeResult dataSourceName)
                (bindType_result dataSourceName) rootTypes [] w) as Hfold.
  destruct (foldM (bindType dataSourceName) rootTypes [] w) as [w1 o].
  simpl in Hfold. subst o. reflexivity.
Qed.

Lemma resolveExtensionConfig_result extKey extension w :
  snd (resolveExtensionConfig extKey extension w) = extensionConfigResult extension.
Proof.
  unfold resolveExtensionConfig, extensionConfigResult, initializerConfig.
  fold (extensionConfigOf extension).
  unfold bind at 1.
  destruct (truthy (importModule (package extension))).
  - unfold bind at 1, lift at 1. unfold obind at 2.
    destruct (call _ _ _) as [made|e]; [| reflexivity].
    unfold ret at 1. unfold obind at 1.
    unfold bind at 1.
    pose proof (importExtensionGraphQLSchema_content (package extension) w) as Hcontent.
    destruct (importExtensionGraphQLSchema (package extension) w) as [w1 o].
    simpl in Hcontent. subst o.
    destruct (schemaContentOf (package extension)) as [content|]; [| reflexivity].
    destruct (truthy (VString content)); [| reflexivity].
    unfold bind.
    pose proof (getExtensionGraphQLConfig_result (VString content)
                  (toStr (get "api" (extensionConfigOf extension))) w1) as Hbound.
    destruct (getExtensionGraphQLConfig _ _ w1) as [w2 o].
    simpl in Hbound. subst o. now destruct (boundConfig _ _).
  - unfold ret at 1. unfold obind at 1.
    unfold bind at 1.
    pose proof (importExtensionGraphQLSchema_content (package extension) w) as Hcontent.
    destruct (importExtensionGraphQLSchema (package extension) w) as [w1 o].
    simpl in Hcontent. subst o.
    destruct (schemaContentOf (package extension)) as [content|]; [| reflexivity].
    destruct (truthy (VString content)); [| reflexivity].
    unfold bind.
    pose proof (getExtensionGraphQLConfig_result (VString content)
                  (toStr (get "api" (extensionConfigOf extension))) w1) as Hbound.
    destruct (getExtensionGraphQLConfig _ _ w1) as [w2 o].
    simpl in Hbound. subst o. now destruct (boundConfig _ _).
Qed.

(** One round of the loop of [registerExtensions]: the registry, the
    events and the outcome. *)
Lemma registerExtension_run extKey extension w :
  match extensionConfigResult extension with
  | Ret extGqlConfig =>
      entries (fst (registerExtension (extKey, extension) w)) =
      set extKey extGqlConfig (entries w) /\
      emitted (fst (registerExtension (extKey, extension) w)) =
      emitted w ++ [registeredEvent extKey extGqlConfig] /\
      snd (registerExtension (extKey, extension) w) =
      emitAsync EXTENSION_REGISTERED (snd (registeredEvent extKey extGqlConfig))
  | Throw e =>
      entries (fst (registerExtension (extKey, extension) w)) = entries w /\
      emitted (fst (registerExtension (extKey, extension) w)) = emitted w /\
      snd (registerExtension (extKey, extension) w) = Throw e
  end.
Proof.
  pose proof (resolveExtensionConfig_result extKey extension w) as Hresult.
  pose proof (resolveExtensionConfig_entries extKey extension w) as [He Hm].
  destruct (resolveExtensionConfig extKey extension w) as [w1 o] eqn:E.
  simpl in Hresult, He, Hm. subst o.
  destruct (extensionConfigResult extension) as [extGqlConfig|e].
  - exact (registerExtension_stores extKey extension w w1 extGqlConfig E).
  - destruct (registerExtension_fails extKey extension w w1 e E) as [-> _].
    now simpl.
Qed.

Lemma registerExtensions_cons extension extensions w :
  registerExtensions (extension :: extensions) w =
  match registerExtension extension w with
  | (w1, Ret _) => registerExtensions extensions w1
  | (w1, Throw e) => (w1, Throw e)
  end.
Proof. reflexivity. Qed.

Lemma registerExtensions_app before rest w :
  registerExtensions (before ++ rest) w =
  match registerExtensions before w with
  | (w1, Ret _) => registerExtensions rest w1
  | (w1, Throw e) => (w1, Throw e)
  end.
Proof.
  revert w. induction before as [|extension before IH]; intros w; [reflexivity |].
  simpl app. rewrite !registerExtensions_cons.
  destruct (registerExtension extension w) as [w1 [[]|e]]; [apply IH | reflexivity].
Qed.

Lemma initializerConfig_run extension w :
  (if truthy (importModule (package extension))
   then
     made <- lift (call (importModule (package extension)) VUndefined
                     [VObject (extensionConfigOf extension)]) ;;
     ret (deepMerge [] (if truthy made then made else VObject []))
   else ret []) w = (w, initializerConfig extension).
Proof.
  unfold initializerConfig.
  destruct (truthy (importModule (package extension))); [| reflexivity].
  unfold bind, lift, ret, obind. now destruct (call _ _ _).
Qed.

Lemma resolveExtensionConfig_without_schema extKey extension initial w :
  hasSchema extension = false ->
  initializerConfig extension = Ret initial ->
  exists ls,
    resolveExtensionConfig extKey extension w =
    (addLogs w (ls ++ [LogWarn (missingSchemaMessage extKey extension)]), Ret initial).
Proof.
  intros Hno Hinit. unfold resolveExtensionConfig. fold (extensionConfigOf extension).
  unfold bind at 1. rewrite initializerConfig_run, Hinit.
  unfold bind at 1.
  destruct (importExtensionGraphQLSchema_onlyLogs (package extension) w) as (ls & Hls).
  pose proof (importExtensionGraphQLSchema_content (package extension) w) as Hcontent.
  destruct (importExtensionGraphQLSchema (package extension) w) as [w1 o].
  simpl in Hls, Hcontent. subst w1 o. exists ls.
  unfold hasSchema in Hno.
  destruct (schemaContentOf (package extension)) as [content|]; [rewrite Hno |];
    unfold bind, writeLog, ret, addLogs; simpl; now rewrite app_assoc.
Qed.

(** X4.  An extension whose package brings no schema file, or an empty
    one, is registered all the same: under its key stands the config its
    initializer gave, alone (the empty config when the package has no
    initializer), the event is emitted with that config, and the log ends
    with the warning that the schema file is missing, then the line that
    the extension is added. *)
Theorem registerExtensions_without_schema
    (extKey : string) (extension : ExtensionEntry) (initial : object) (w : world) :
  hasSchema extension = false ->
  initializerConfig extension = Ret initial ->
  let w' := fst (registerExtensions [(extKey, extension)] w) in
  entries w' = set extKey initial (entries w) /\
  emitted w' = emitted w ++ [registeredEvent extKey initial] /\
  (exists ls,
      logs w' = logs w ++ ls ++ [LogWarn (missingSchemaMessage extKey extension);
                                 addedMessage extKey]) /\
  (truthy (importModule (package extension)) = false -> initial = []).
Proof.
  intros Hno Hinit w'. subst w'. rewrite registerExtensions_single.
  destruct (resolveExtensionConfig_without_schema extKey extension initial w Hno Hinit)
    as (ls & Hresolve).
  destruct (registerExtension_stores extKey extension w _ initial Hresolve)
    as (Hentries & Hemitted & _).
  split; [exact Hentries |]. split; [exact Hemitted |]. split.
  - exists ls. unfold registerExtension, bind. simpl fst. simpl snd. rewrite Hresolve.
    unfold writeLog, setEntry, recordEvent, lift, addLogs, addedMessage. simpl.
    now rewrite <- !app_assoc.
  - intros Hnone. unfold initializerConfig in Hinit. rewrite Hnone in Hinit.
    now injection Hinit as <-.
Qed.

(** X5.  An extension whose package brings a schema file: under its key
    stands the deep merge of the initializer's config with the config
    bound from the schema, whose resolvers are bound to the data source
    named by [config.api]; a throw of the introspector on the schema ends
    the registration with that error and leaves the registry and the
    events as they were.  Without an [api] in the extension's config, the
    resolvers are bound to the data source named "undefined". *)
Theorem registerExtensions_with_schema
    (extKey : string) (extension : ExtensionEntry) (content : string) (initial : object)
    (w : world) :
  schemaContentOf (package extension) = Some content ->
  truthy (VString content) = true ->
  initializerConfig extension = Ret initial ->
  let dataSourceName := toStr (get "api" (extensionConfigOf extension)) in
  let w' := fst (registerExtensions [(extKey, extension)] w) in
  (forall rootTypes,
      getRootTypeFields (VString content) = Ret rootTypes ->
      entries w' =
      set extKey
        (deepMerge initial
           (VObject [("schema", VArray [VString content]);
                     ("resolvers",
                      VObject (fold_left (bindTypeResult dataSourceName) rootTypes []))]))
        (entries w)) /\
  (forall e,
      getRootTypeFields (VString content) = Throw e ->
      snd (registerExtensions [(extKey, extension)] w) = Throw e /\
      entries w' = entries w /\ emitted w' = emitted w) /\
  (lookup "api" (extensionConfigOf extension) = None -> dataSourceName = "undefined").
Proof.
  intros Hcontent Htruthy Hinit dataSourceName w'. subst w'.
  pose proof (registerExtension_run extKey extension w) as Hrun.
  unfold extensionConfigResult in Hrun.
  rewrite Hinit, Hcontent, Htruthy in Hrun. unfold obind at 1 in Hrun.
  unfold boundConfig in Hrun. rewrite Htruthy in Hrun.
  change (negb true) with false in Hrun. cbv iota in Hrun.
  fold dataSourceName in Hrun.
  split; [| split].
  - intros rootTypes Hroot. rewrite registerExtensions_single.
    rewrite Hroot in Hrun. now simpl in Hrun.
  - intros e Hroot. rewrite Hroot in Hrun. simpl in Hrun.
    destruct Hrun as (Hentries & Hemitted & Hthrow).
    rewrite registerExtensions_single. split; [| now split].
    unfold registerExtensions. simpl. unfold bind. 
    destruct (registerExtension (extKey, extension) w) as [w1 o].
    simpl in Hthrow. now subst o.
  - intros Hnone. unfold dataSourceName, get. now rewrite Hnone.
Qed.

(** X6.  [registerExtensions] stops at the first extension whose
    initializer throws: the call ends with the initializer's error, the
    extensions before it are registered and announced, the failing one and
    those after it are not. *)
Theorem registerExtensions_stops_at_failure
    (before after : list (string * ExtensionEntry)) (extKey : string)
    (extension : ExtensionEntry) (e : error) (w w1 : world) :
  registerExtensions before w = (w1, Ret tt) ->
  truthy (importModule (package extension)) = true ->
  call (importModule (package extension)) VUndefined
    [VObject (extensionConfigOf extension)] = Throw e ->
  let w' := fst (registerExtensions (before ++ (extKey, extension) :: after) w) in
  snd (registerExtensions (before ++ (extKey, extension) :: after) w) = Throw e /\
  entries w' = entries w1 /\ emitted w' = emitted w1.
Proof.
  intros Hbefore Htruthy Hcall w'. subst w'.
  rewrite registerExtensions_app, Hbefore, registerExtensions_cons.
  pose proof (registerExtension_run extKey extension w1) as Hrun.
  unfold extensionConfigResult, initializerConfig in Hrun.
  rewrite Htruthy, Hcall in Hrun. simpl in Hrun.
  destruct Hrun as (Hentries & Hemitted & Hthrow).
  destruct (registerExtension (extKey, extension) w1) as [w2 o].
  simpl in *. subst o. now simpl.
Qed.

(** X7.  The config of an extension is stored before the event is
    emitted: when a listener of the event throws, [registerExtensions]
    ends with the listener's error, the extension is in the registry with
    its config all the same, and the extensions after it are not
    registered. *)
Theorem registerExtensions_listener_failure
    (extKey : string) (extension : ExtensionEntry) (after : list (string * ExtensionEntry))
    (extGqlConfig : object) (e : error) (w : world) :
  snd (resolveExtensionConfig extKey extension w) = Ret extGqlConfig ->
  emitAsync EXTENSION_REGISTERED (snd (registeredEvent extKey extGqlConfig)) = Throw e ->
  let w' := fst (registerExtensions ((extKey, extension) :: after) w) in
  snd (registerExtensions ((extKey, extension) :: after) w) = Throw e /\
  entries w' = set extKey extGqlConfig (entries w) /\
  emitted w' = emitted w ++ [registeredEvent extKey extGqlConfig].
Proof.
  intros Hresolve Hemit w'. subst w'. rewrite registerExtensions_cons.
  pose proof (registerExtension_run extKey extension w) as Hrun.
  rewrite resolveExtensionConfig_result in Hresolve. rewrite Hresolve in Hrun.
  destruct Hrun as (Hentries & Hemitted & Hthrow). rewrite Hemit in Hthrow.
  destruct (registerExtension (extKey, extension) w) as [w1 o].
  simpl in *. subst o. now simpl.
Qed.

(** ** The registry and the events after a registration *)

Lemma registerExtensions_configs extensions :
  forall w w',
    registerExtensions extensions w = (w', Ret tt) ->
    exists configs,
      Forall2 (fun extension extGqlConfig =>
                 forall w0,
                   snd (resolveExtensionConfig (fst extension) (snd extension) w0) =
                   Ret extGqlConfig)
              extensions configs /\
      emitted w' =
      emitted w ++ map (fun entry => registeredEvent (fst entry) (snd entry))
                       (combine (keys extensions) configs) /\
      entries w' =
      fold_left (fun registry entry => set (fst entry) (snd entry) registry)
                (combine (keys extensions) configs) (entries w).
Proof.
  induction extensions as [|[extKey extension] extensions IH]; intros w w'.
  - intros [= <-]. exists []. simpl. rewrite app_nil_r. repeat split. constructor.
  - rewrite registerExtensions_cons.
    pose proof (registerExtension_run extKey extension w) as Hrun.
    destruct (registerExtension (extKey, extension) w) as [w1 [[]|e]]; [| discriminate].
    intros Hrest. destruct (IH w1 w' Hrest) as (configs & Hall & Hemitted & Hentries).
    destruct (extensionConfigResult extension) as [extGqlConfig|e] eqn:Hresult;
      simpl in Hrun; [| now destruct Hrun as (_ & _ & ?)].
    destruct Hrun as (He & Hm & _).
    exists (extGqlConfig :: configs). split; [| split].
    + constructor; [| exact Hall]. intros w0. simpl.
      now rewrite resolveExtensionConfig_result.
    + rewrite Hemitted, Hm. simpl. now rewrite <- app_assoc.
    + rewrite Hentries, He. reflexivity.
Qed.

Lemma keys_combine {V} (ks : list string) :
  forall vs : list V, length ks = length vs -> keys (combine ks vs) = ks.
Proof.
  induction ks as [|k ks IH]; intros [|v vs]; simpl; try discriminate; trivial.
  intros [= Hlen]. f_equal. now apply IH.
Qed.

Lemma assign_fresh_entries {V} (news : list (string * V)) :
  NoDup (keys news) ->
  forall registry : list (string * V),
    (forall k, In k (keys news) -> lookup k registry = None) ->
    fold_left (fun registry entry => set (fst entry) (snd entry) registry) news registry =
    registry ++ news.
Proof.
  forget_parameters.
  induction news as [|[k v] news IH]; intros Hnd registry Hfresh; simpl.
  - now rewrite app_nil_r.
  - inversion Hnd as [|? ? Hnotin Hnd']; subst.
    rewrite set_absent by (apply Hfresh; now left).
    rewrite IH; trivial.
    + now rewrite <- app_assoc.
    + intros k' Hk'. rewrite lookup_app_None by (apply Hfresh; now right).
      simpl. destruct (k' =? k) eqn:E; trivial.
      apply String.eqb_eq in E. subst k'. contradiction.
Qed.

(** X8.  After a registration that completes, the events emitted are one
    per extension, in the order of the extensions, each with the key and
    the config resolved for that extension; and for extensions under
    distinct keys new to the registry, the registry is the former one
    followed by these keys with these same configs: what the listeners
    were told is what the registry holds. *)
Theorem registerExtensions_events_match_registry
    (extensions : list (string * ExtensionEntry)) (w w' : world) :
  registerExtensions extensions w = (w', Ret tt) ->
  exists configs,
    Forall2 (fun extension extGqlConfig =>
               forall w0,
                 snd (resolveExtensionConfig (fst extension) (snd extension) w0) =
                 Ret extGqlConfig)
            extensions configs /\
    emitted w' =
    emitted w ++ map (fun entry => registeredEvent (fst entry) (snd entry))
                     (combine (keys extensions) configs) /\
    (NoDup (keys extensions) ->
     (forall k, In k (keys extensions) -> lookup k (entries w) = None) ->
     entries w' = entries w ++ combine (keys extensions) configs).
Proof.
  intros Hrun.
  destruct (registerExtensions_configs extensions w w' Hrun)
    as (configs & Hall & Hemitted & Hentries).
  exists configs. split; [exact Hall |]. split; [exact Hemitted |].
  intros Hnd Hfresh. rewrite Hentries.
  assert (Hlen : length (keys extensions) = length configs).
  { unfold keys. rewrite length_map. exact (Forall2_length Hall). }
  assert (Hkeys : keys (combine (keys extensions) configs) = keys extensions).
  { now apply keys_combine. }
  apply assign_fresh_entries.
  - now rewrite Hkeys.
  - intros k. rewrite Hkeys. apply Hfresh.
Qed.

Lemma registerExtension_frame extension w :
  (forall k, (fst extension =? k) = false ->
             lookup k (entries (fst (registerExtension extension w))) =
             lookup k (entries w)) /\
  (NoDup (keys (entries w)) -> NoDup (keys (entries (fst (registerExtension extension w))))) /\
  (forall k, In k (keys (entries w)) ->
             In k (keys (entries (fst (registerExtension extension w))))).
Proof.
  destruct extension as [extKey extension]. simpl fst.
  pose proof (registerExtension_run extKey extension w) as Hrun.
  destruct (extensionConfigResult extension) as [extGqlConfig|e].
  - destruct Hrun as (-> & _). split; [| split].
    + intros k Hk. now apply lookup_set_other.
    + apply NoDup_keys_set.
    + intros k Hk. destruct (lookup k (set extKey extGqlConfig (entries w))) eqn:E.
      * now apply lookup_Some_keys in E.
      * exfalso. destruct (extKey =? k) eqn:Ek.
        -- apply String.eqb_eq in Ek. subst k. now rewrite lookup_set_same in E.
        -- rewrite lookup_set_other in E by exact Ek.
           apply lookup_None_keys in E. contradiction.
  - destruct Hrun as (-> & _). now repeat split.
Qed.

(** X9.  Whatever [registerExtensions] does, and however it ends, it only
    writes the registry under the keys it is given: the config under any
    other key is the one that was there, no key leaves the registry, and
    the registry keeps one entry per key. *)
Theorem registerExtensions_frame (extensions : list (string * ExtensionEntry)) (w : world) :
  let w' := fst (registerExtensions extensions w) in
  (forall k, inb k (keys extensions) = false ->
             lookup k (entries w') = lookup k (entries w)) /\
  (NoDup (keys (entries w)) -> NoDup (keys (entries w'))) /\
  (forall k, In k (keys (entries w)) -> In k (keys (entries w'))).
Proof.
  revert w. induction extensions as [|extension extensions IH]; intros w w'; subst w'.
  - now repeat split.
  - rewrite registerExtensions_cons.
    destruct (registerExtension_frame extension w) as (Hother & Hnd & Hkeep).
    destruct (registerExtension extension w) as [w1 [[]|e]]; simpl fst in *.
    + destruct (IH w1) as (Hother' & Hnd' & Hkeep'). split; [| split].
      * intros k Hk. simpl in Hk. apply orb_false_elim in Hk. destruct Hk as [Hk Hks].
        rewrite Hother' by exact Hks. apply Hother. now rewrite String.eqb_sym.
      * auto.
      * auto.
    + split; [| now split].
      intros k Hk. simpl in Hk. apply orb_false_elim in Hk. destruct Hk as [Hk _].
      apply Hother. now rewrite String.eqb_sym.
Qed.

(** ** The resolvers, the context modifiers and the data sources of the
    aggregate *)

Lemma ofold_array {A} (step : object -> A -> outcome object) field
    (items : A -> list value) :
  (forall s a s' xs,
      step s a = Ret s' -> get field s = VArray xs ->
      get field s' = VArray (xs ++ items a)) ->
  forall l s s' xs,
    ofold step l s = Ret s' -> get field s = VArray xs ->
    get field s' = VArray (xs ++ flat_map items l).
Proof.
  intros Hstep. induction l as [|a l IH]; intros s s' xs; simpl.
  - intros [= <-]. now rewrite app_nil_r.
  - unfold obind. destruct (step s a) as [s1|] eqn:E; [| discriminate].
    intros H Hxs. rewrite app_assoc. apply (IH s1 s' (xs ++ items a) H).
    now apply (Hstep s a).
Qed.

Lemma ofold_object {A} (step : object -> A -> outcome object) field
    (next : object -> A -> object) :
  (forall s a s' o,
      step s a = Ret s' -> get field s = VObject o ->
      get field s' = VObject (next o a)) ->
  forall l s s' o,
    ofold step l s = Ret s' -> get field s = VObject o ->
    get field s' = VObject (fold_left next l o).
Proof.
  intros Hstep. induction l as [|a l IH]; intros s s' o; simpl.
  - now intros [= <-].
  - unfold obind. destruct (step s a) as [s1|] eqn:E; [| discriminate].
    intros H Ho. apply (IH s1 s' (next o a) H). now apply (Hstep s a).
Qed.

Lemma isSchemaOption_other name other :
  isSchemaOption name = true -> isSchemaOption other = false -> (name =? other) = false.
Proof.
  intros Hname Hother. apply String.eqb_neq. intros ->. congruence.
Qed.

Lemma optionResult_resolvers source dest name dest' xs :
  optionResult source dest name = Ret dest' ->
  get "resolvers" dest = VArray xs ->
  get "resolvers" dest' = VArray (xs ++ optionResolvers source name).
Proof.
  intros H Hxs. revert H. unfold optionResolvers.
  option_cases source name; unfold obind; rewrite ?app_nil_r.
  - now intros [= <-].
  - destruct (push "schemas" _ _); [| discriminate]. intros [= <-].
    rewrite (isSchemaOption_other name "resolvers" Hschema eq_refl), app_nil_r.
    now rewrite get_set_other.
  - rewrite Hxs. simpl. intros [= <-]. apply get_set_same.
  - destruct (push "contextModifiers" _ _); [| discriminate]. intros [= <-].
    now rewrite get_set_other.
  - destruct (objectAssignTo _ _); [| discriminate]. intros [= <-].
    destruct (get "dataSources" dest); trivial.
    now rewrite get_set_other.
  - now intros [= <-].
Qed.

Lemma optionResult_contextModifiers source dest name dest' xs :
  optionResult source dest name = Ret dest' ->
  get "contextModifiers" dest = VArray xs ->
  get "contextModifiers" dest' = VArray (xs ++ optionContextModifiers source name).
Proof.
  intros H Hxs. revert H. unfold optionContextModifiers.
  option_cases source name; unfold obind; rewrite ?app_nil_r.
  - now intros [= <-].
  - destruct (push "schemas" _ _); [| discriminate]. intros [= <-].
    rewrite (isSchemaOption_other name "context" Hschema eq_refl), app_nil_r.
    now rewrite get_set_other.
  - destruct (push "resolvers" _ _); [| discriminate]. intros [= <-].
    apply String.eqb_eq in Hres. subst name. simpl. rewrite app_nil_r.
    now rewrite get_set_other.
  - rewrite Hxs. simpl. intros [= <-]. apply get_set_same.
  - destruct (objectAssignTo _ _); [| discriminate]. intros [= <-].
    destruct (get "dataSources" dest); trivial.
    now rewrite get_set_other.
  - now intros [= <-].
Qed.

Lemma optionResult_dataSources_assigned source dest name dest' dataSources :
  optionResult source dest name = Ret dest' ->
  get "dataSources" dest = VObject dataSources ->
  get "dataSources" dest' = VObject (optionDataSources source dataSources name).
Proof.
  intros H Hds'. revert H. unfold optionDataSources.
  option_cases source name; unfold obind.
  - now intros [= <-].
  - destruct (push "schemas" _ _); [| discriminate]. intros [= <-].
    rewrite (isSchemaOption_other name "dataSources" Hschema eq_refl).
    now rewrite get_set_other.
  - destruct (push "resolvers" _ _); [| discriminate]. intros [= <-].
    apply String.eqb_eq in Hres. subst name. simpl.
    now rewrite get_set_other.
  - destruct (push "contextModifiers" _ _); [| discriminate]. intros [= <-].
    apply String.eqb_eq in Hctx. subst name. simpl.
    now rewrite get_set_other.
  - rewrite Hds'. simpl. intros [= <-]. apply get_set_same.
  - now intros [= <-].
Qed.

Lemma flat_map_single {A} (f : string -> list A) name (names : list string) :
  NoDup names ->
  (forall k, (k =? name) = false -> f k = []) ->
  flat_map f names = if inb name names then f name else [].
Proof.
  forget_parameters.
  intros Hnd Hother. induction names as [|k names IH]; [reflexivity |].
  inversion Hnd as [|? ? Hnotin Hnd']; subst. simpl. rewrite (IH Hnd').
  destruct (name =? k) eqn:E; simpl.
  - apply String.eqb_eq in E. subst k.
    destruct (inb name names) eqn:Hin; [| apply app_nil_r].
    apply inb_In in Hin. contradiction.
  - rewrite Hother by now rewrite String.eqb_sym. reflexivity.
Qed.

Lemma fold_left_single {S} (f : S -> string -> S) name (names : list string) :
  NoDup names ->
  (forall k s, (k =? name) = false -> f s k = s) ->
  forall s, fold_left f names s = if inb name names then f s name else s.
Proof.
  forget_parameters.
  intros Hnd Hother. induction names as [|k names IH]; intros s; [reflexivity |].
  inversion Hnd as [|? ? Hnotin Hnd']; subst. simpl. rewrite (IH Hnd').
  destruct (name =? k) eqn:E; simpl.
  - apply String.eqb_eq in E. subst k.
    destruct (inb name names) eqn:Hin; [| reflexivity].
    apply inb_In in Hin. contradiction.
  - rewrite (Hother k s) by now rewrite String.eqb_sym. reflexivity.
Qed.

Lemma ownResolvers_defined source :
  NoDup (keys source) ->
  ownResolvers source =
  if definesOption "resolvers" source then toValueArray (get "resolvers" source) else [].
Proof.
  intros Hnd. unfold ownResolvers, definesOption.
  rewrite (flat_map_single (optionResolvers source) "resolvers" (keys source) Hnd).
  - fold (inb "resolvers" (keys source)). unfold optionResolvers.
    destruct (inb "resolvers" (keys source)); [| reflexivity].
    now destruct (skipsOption source "resolvers").
  - intros k Hk. unfold optionResolvers. rewrite Hk.
    now destruct (skipsOption source k).
Qed.

Lemma ownContextModifiers_defined source :
  NoDup (keys source) ->
  ownContextModifiers source =
  if definesOption "context" source then [get "context" source] else [].
Proof.
  intros Hnd. unfold ownContextModifiers, definesOption.
  rewrite (flat_map_single (optionContextModifiers source) "context" (keys source) Hnd).
  - fold (inb "context" (keys source)). unfold optionContextModifiers.
    destruct (inb "context" (keys source)); [| reflexivity].
    now destruct (skipsOption source "context").
  - intros k Hk. unfold optionContextModifiers. rewrite Hk.
    now destruct (skipsOption source k).
Qed.

Lemma mergeResult_resolvers dest source dest' xs :
  mergeResult dest source = Ret dest' ->
  get "resolvers" dest = VArray xs ->
  get "resolvers" dest' = VArray (xs ++ ownResolvers source).
Proof.
  apply (ofold_array (optionResult source) "resolvers" (optionResolvers source)).
  intros s a s' ys. apply optionResult_resolvers.
Qed.

Lemma mergeResult_contextModifiers dest source dest' xs :
  mergeResult dest source = Ret dest' ->
  get "contextModifiers" dest = VArray xs ->
  get "contextModifiers" dest' = VArray (xs ++ ownContextModifiers source).
Proof.
  apply (ofold_array (optionResult source) "contextModifiers"
           (optionContextModifiers source)).
  intros s a s' ys. apply optionResult_contextModifiers.
Qed.

Lemma mergeResult_dataSources_assigned dest source dest' dataSources :
  NoDup (keys source) ->
  mergeResult dest source = Ret dest' ->
  get "dataSources" dest = VObject dataSources ->
  get "dataSources" dest' =
  VObject (if definesOption "dataSources" source
           then objectAssign dataSources (get "dataSources" source)
           else dataSources).
Proof.
  intros Hnd Hret Hds.
  rewrite (ofold_object (optionResult source) "dataSources" (optionDataSources source)
             (fun s a s' o => optionResult_dataSources_assigned source s a s' o)
             (keys source) dest dest' dataSources Hret Hds).
  rewrite (fold_left_single (optionDataSources source) "dataSources" (keys source) Hnd).
  - unfold definesOption. fold (inb "dataSources" (keys source)). unfold optionDataSources.
    destruct (inb "dataSources" (keys source)); [| reflexivity].
    now destruct (skipsOption source "dataSources").
  - intros k s Hk. unfold optionDataSources. rewrite Hk.
    now destruct (skipsOption source k).
Qed.

(** X10.  The [resolvers] of the aggregate: the single resolver map of the
    base configuration, if it has one, then the resolver maps of each
    registered config, in the order of the registry; a registered config
    contributes its [resolvers] option, an array as its elements and any
    other value as one map, and nothing when it has no such option. *)
Theorem aggregate_resolvers_in_registration_order
    (defaultConfig : object) (w : world) (config : object) :
  snd (aggregateConfig defaultConfig w) = Ret config ->
  get "resolvers" config =
  VArray ((if truthy (get "resolvers" defaultConfig)
              && negb (isArray (get "resolvers" defaultConfig))
           then [get "resolvers" defaultConfig] else []) ++
          flat_map (fun entry => ownResolvers (snd entry)) (entries w)) /\
  (forall source,
      NoDup (keys source) ->
      ownResolvers source =
      if definesOption "resolvers" source then toValueArray (get "resolvers" source)
      else []).
Proof.
  rewrite aggregateConfig_run. simpl. intros Hret. split.
  - apply (ofold_array (fun config entry => mergeResult config (snd entry)) "resolvers"
             (fun entry => ownResolvers (snd entry))
             (fun s a s' xs => mergeResult_resolvers s (snd a) s' xs)
             (entries w) (seedConfig defaultConfig) config _ Hret).
    apply seedConfig_resolvers.
  - apply ownResolvers_defined.
Qed.

Lemma seedConfig_contextModifiers defaultConfig :
  NoDup (keys defaultConfig) ->
  get "contextModifiers" (seedConfig defaultConfig) =
  match lookup "contextModifiers" defaultConfig with
  | Some own => own
  | None =>
      VArray (if truthy (get "context" defaultConfig)
              then [get "context" defaultConfig] else [])
  end.
Proof.
  intros Hnd. unfold get at 1. rewrite lookup_seedConfig by reflexivity.
  rewrite lookup_assignProps by exact Hnd.
  now destruct (lookup "contextModifiers" defaultConfig).
Qed.

(** X11.  The context handler of the configuration [createGraphQLConfig]
    returns runs, in this order, the context modifiers the merge starts
    from and then the [context] option of each registered config, in the
    order of the registry, each as one modifier, an array too.  The merge
    starts from the base configuration's own [contextModifiers] when it
    has that field, and its [context] is then not run unless that field
    lists it; otherwise from its [context] alone, if it has one. *)
Theorem createGraphQLConfig_context_modifiers
    (defaultConfig : object) (w : world) (served : ApolloServerConfig) :
  NoDup (keys defaultConfig) ->
  snd (createGraphQLConfig defaultConfig w) = Ret served ->
  get "contextModifiers" (seedConfig defaultConfig) =
  match lookup "contextModifiers" defaultConfig with
  | Some own => own
  | None =>
      VArray (if truthy (get "context" defaultConfig)
              then [get "context" defaultConfig] else [])
  end /\
  (forall modifiers arg,
      get "contextModifiers" (seedConfig defaultConfig) = VArray modifiers ->
      cfg_context served arg =
      contextHandler
        (VArray (modifiers ++
                 flat_map (fun entry => ownContextModifiers (snd entry)) (entries w)))
        arg) /\
  (forall source,
      NoDup (keys source) ->
      ownContextModifiers source =
      if definesOption "context" source then [get "context" source] else []).
Proof.
  intros Hnd Hserved. split; [now apply seedConfig_contextModifiers |]. split.
  - intros modifiers arg Hseed.
    destruct (createGraphQLConfig defaultConfig w) as [w' o] eqn:Hrun.
    simpl in Hserved. subst o.
    destruct (createGraphQLConfig_context defaultConfig w w' served Hrun)
      as (config & Hconfig & ->).
    rewrite aggregateConfig_run in Hconfig. simpl in Hconfig.
    now rewrite (ofold_array (fun config entry => mergeResult config (snd entry))
                   "contextModifiers" (fun entry => ownContextModifiers (snd entry))
                   (fun s a s' xs => mergeResult_contextModifiers s (snd a) s' xs)
                   (entries w) (seedConfig defaultConfig) config modifiers Hconfig Hseed).
  - apply ownContextModifiers_defined.
Qed.

(** X12.  [mergeGraphQLConfig] on a destination that has data sources:
    the [dataSources] option of the extension is assigned onto them, so
    that a data source of the extension stands under its name, in the
    place of the destination's if there was one, and every other data
    source of the destination stays; without that option the data sources
    are left as they are. *)
Theorem mergeGraphQLConfig_assigns_dataSources
    (dest source : object) (extensionName : string) (w : world)
    (dest' dataSources : object) :
  NoDup (keys source) ->
  get "dataSources" dest = VObject dataSources ->
  snd (mergeGraphQLConfig dest source extensionName w) = Ret dest' ->
  get "dataSources" dest' =
  VObject (if definesOption "dataSources" source
           then objectAssign dataSources (get "dataSources" source)
           else dataSources) /\
  (NoDup (keys (ownEnumerable (get "dataSources" source))) ->
   forall name,
     lookup name (objectAssign dataSources (get "dataSources" source)) =
     match lookup name (ownEnumerable (get "dataSources" source)) with
     | Some dataSource => Some dataSource
     | None => lookup name dataSources
     end).
Proof.
  intros Hnd Hds. rewrite mergeGraphQLConfig_run. simpl. intros Hret. split.
  - now apply (mergeResult_dataSources_assigned dest source dest' dataSources).
  - intros Hnd' name. now apply lookup_assignProps.
Qed.

(** X13.  A schema fragment that is not a string is warned about and
    merged all the same: after the merge the log has the warning that
    names the extension, the option and the item, and the item is among
    the [schemas] of the destination. *)
Theorem mergeGraphQLConfig_non_string_schema
    (dest source : object) (extensionName name : string) (schemaItem : value)
    (w : world) (dest' : object) (schemas : list value) :
  isSchemaOption name = true ->
  In name (keys source) ->
  skipsOption source name = false ->
  In schemaItem (toValueArray (get name source)) ->
  (typeof schemaItem =? "string") = false ->
  get "schemas" dest = VArray schemas ->
  snd (mergeGraphQLConfig dest source extensionName w) = Ret dest' ->
  In (LogWarn (nonStringSchemaMessage extensionName name schemaItem))
     (logs (fst (mergeGraphQLConfig dest source extensionName w))) /\
  In schemaItem (elements (get "schemas" dest')).
Proof.
  intros Hschema Hin Hskip Hitem Htype Hschemas.
  rewrite mergeGraphQLConfig_run. simpl. intros Hret. split.
  - apply in_or_app. right. right.
    unfold mergeResult in Hret.
    rewrite (foldLogs_complete (optionLogs source extensionName) (optionResult source)
               (keys source) dest dest' Hret).
    apply in_flat_map. exists name. split; [exact Hin |].
    unfold optionLogs. rewrite Hskip, Hschema.
    apply in_flat_map. exists schemaItem. split; [exact Hitem |].
    rewrite Htype. now left.
  - rewrite (mergeResult_schemas dest source dest' schemas Hret Hschemas). simpl.
    apply in_or_app. right. unfold ownSchemaFragments.
    apply in_flat_map. exists name. split; [exact Hin |].
    unfold optionFragments. now rewrite Hskip, Hschema.
Qed.

Lemma lookup_delete_other {V} k k' (o : list (string * V)) :
  (k =? k') = false -> lookup k' (delete k o) = lookup k' o.
Proof.
  intros Hne. unfold delete. induction o as [|[k1 v1] o IH]; simpl; [reflexivity |].
  destruct (k =? k1) eqn:E; simpl.
  - apply String.eqb_eq in E. subst k1. rewrite String.eqb_sym, Hne. exact IH.
  - now rewrite IH.
Qed.

Lemma lookup_seedConfig_other field defaultConfig :
  NoDup (keys defaultConfig) ->
  inb field ["schemas"; "resolvers"; "contextModifiers"] = false ->
  lookup field (seedConfig defaultConfig) = lookup field defaultConfig.
Proof.
  intros Hnd Hfield. simpl in Hfield.
  destruct (field =? "schemas") eqn:E1; [discriminate |].
  destruct (field =? "resolvers") eqn:E2; [discriminate |].
  destruct (field =? "contextModifiers") eqn:E3; [discriminate |].
  rewrite lookup_seedConfig by exact E2.
  rewrite lookup_assignProps by exact Hnd.
  destruct (lookup field defaultConfig); [reflexivity |].
  simpl. now rewrite E1, E3.
Qed.

(** X14.  The configuration [createGraphQLConfig] returns has no
    [schemas], [resolvers] or [contextModifiers] left, and every field of
    the base configuration that the merge has no rule for comes through
    as the base configuration has it, whatever the extensions bring; the
    registry and the events are as they were. *)
Theorem createGraphQLConfig_settings
    (defaultConfig : object) (w : world) (served : ApolloServerConfig) :
  NoDup (keys defaultConfig) ->
  snd (createGraphQLConfig defaultConfig w) = Ret served ->
  (forall field,
      inb field ["schemas"; "resolvers"; "contextModifiers"] = true ->
      lookup field (cfg_settings served) = None) /\
  (forall field,
      inb field processedFields = false ->
      lookup field (cfg_settings served) = lookup field defaultConfig) /\
  entries (fst (createGraphQLConfig defaultConfig w)) = entries w /\
  emitted (fst (createGraphQLConfig defaultConfig w)) = emitted w.
Proof.
  intros Hnd. unfold createGraphQLConfig, bind, lift, ret.
  rewrite aggregateConfig_run.
  destruct (aggregateResult defaultConfig (entries w)) as [config|e] eqn:Hconfig;
    [| discriminate].
  destruct (makeExecutableSchema _ _) as [executable|e]; [| discriminate].
  destruct (mergeSchemas _ _ _) as [merged|e]; [| discriminate].
  simpl. intros [= <-]. simpl. split; [| split; [| now split]].
  - intros field Hfield. simpl in Hfield.
    destruct (field =? "schemas") eqn:E1.
    { apply String.eqb_eq in E1. subst field. apply lookup_delete_same. }
    rewrite lookup_delete_other by now rewrite String.eqb_sym.
    destruct (field =? "resolvers") eqn:E2.
    { apply String.eqb_eq in E2. subst field. apply lookup_delete_same. }
    rewrite lookup_delete_other by now rewrite String.eqb_sym.
    destruct (field =? "contextModifiers") eqn:E3; [| discriminate].
    apply String.eqb_eq in E3. subst field. apply lookup_delete_same.
  - intros field Hfield. unfold processedFields in Hfield. simpl in Hfield.
    destruct (field =? "schemas") eqn:E1; [discriminate |].
    destruct (field =? "resolvers") eqn:E2; [discriminate |].
    destruct (field =? "contextModifiers") eqn:E3; [discriminate |].
    destruct (field =? "dataSources") eqn:E4; [discriminate |].
    destruct (field =? "schema") eqn:E5; [discriminate |].
    destruct (field =? "context") eqn:E6; [discriminate |].
    rewrite !lookup_delete_other by now rewrite String.eqb_sym.
    transitivity (lookup field (seedConfig defaultConfig)).
    + refine (ofold_frame (fun config entry => mergeResult config (snd entry)) field _
                (entries w) (seedConfig defaultConfig) config Hconfig).
      intros s a s' Hs. apply (mergeResult_frame s (snd a) s' field Hs).
      unfold aggregateFields. simpl.
      apply String.eqb_neq in E1, E2, E3, E4.
      intros [H | [H | [H | [H | []]]]]; congruence.
    + apply lookup_seedConfig_other; [exact Hnd |]. simpl. now rewrite E1, E2, E3.
Qed.

(** ** Fetching from data sources that all answer, or until one fails *)

Lemma fetchEach_app obj args context info before answers :
  Forall2 (fun entry answer => answersWith obj args context info (snd entry) answer)
          before answers ->
  forall rest configs w,
    fetchEach obj args context info (before ++ rest) configs w =
    fetchEach obj args context info rest (configs ++ filter truthy answers)
      (addLogs w (map fetchingMessage (keys before))).
Proof.
  induction 1 as [|[apiName api] answer before answers (method & Hm & Hf & Hcall) _ IH];
    intros rest configs w; simpl.
  - now rewrite app_nil_r, addLogs_nil.
  - simpl in Hm, Hcall. unfold bind at 1, lift at 1. rewrite Hm, Hf.
    change (negb true) with false. cbv iota.
    unfold bind at 1, writeLog at 1. unfold bind at 1, lift at 1. rewrite Hcall.
    rewrite IH. unfold addLogs, fetchingMessage. simpl. rewrite <- !app_assoc. simpl.
    destruct (truthy answer); [now rewrite <- app_assoc | reflexivity].
Qed.

Lemma mergeBackendConfigs_falsy configs :
  forall acc : object,
    fold_left mergeBackendConfig (filter truthy configs) acc =
    fold_left mergeBackendConfig configs acc.
Proof.
  forget_parameters.
  induction configs as [|current configs IH]; intros acc; simpl; [reflexivity |].
  destruct (truthy current) eqn:E; simpl.
  - apply IH.
  - rewrite IH. unfold mergeBackendConfig at 3. now rewrite E.
Qed.

(** X15.  When every data source of the request context has a
    [fetchBackendConfig] function and every fetch answers, the resolver
    fetches from each of them once, in the order of the data sources,
    logging one line each, and returns the merge of the answers; answers
    that are not truthy take no part in the merge, dropped by the resolver
    as the merge itself would. *)
Theorem fetchBackendConfig_merges_answers
    (obj args context info dataSources : value) (apis : object) (answers : list value)
    (w : world) :
  get_prop context "dataSources" = Ret dataSources ->
  objectEntries dataSources = Ret apis ->
  Forall2 (fun entry answer => answersWith obj args context info (snd entry) answer)
          apis answers ->
  fetchBackendConfig obj args context info w =
  (addLogs w (map fetchingMessage (keys apis)),
   Ret (VObject (mergeBackendConfigs (filter truthy answers)))) /\
  mergeBackendConfigs (filter truthy answers) = mergeBackendConfigs answers.
Proof.
  intros Hds Hentries Hall. split.
  - unfold fetchBackendConfig, bind, lift. rewrite Hds, Hentries.
    rewrite <- (app_nil_r apis) at 1.
    now rewrite (fetchEach_app obj args context info apis answers Hall [] [] w).
  - apply mergeBackendConfigs_falsy.
Qed.

(** X16.  When the fetch of a data source throws, the data sources before
    it having answered, the resolver ends with that error: nothing is
    merged, and the data sources after it are not fetched: the log ends
    with the line of the failing one. *)
Theorem fetchBackendConfig_fetch_failure
    (obj args context info dataSources : value) (before after : object)
    (answers : list value) (apiName : string) (api method : value) (e : error)
    (w : world) :
  get_prop context "dataSources" = Ret dataSources ->
  objectEntries dataSources = Ret (before ++ (apiName, api) :: after) ->
  Forall2 (fun entry answer => answersWith obj args context info (snd entry) answer)
          before answers ->
  get_prop api "fetchBackendConfig" = Ret method ->
  (typeof method =? "function") = true ->
  call method api [obj; args; context; info] = Throw e ->
  fetchBackendConfig obj args context info w =
  (addLogs w (map fetchingMessage (keys before ++ [apiName])), Throw e).
Proof.
  intros Hds Hentries Hall Hm Hf Hcall.
  unfold fetchBackendConfig, bind, lift. rewrite Hds, Hentries.
  rewrite (fetchEach_app obj args context info before answers Hall).
  simpl. unfold bind, lift, writeLog. rewrite Hm, Hf. simpl. rewrite Hcall.
  rewrite map_app. unfold addLogs. simpl. now rewrite <- app_assoc.
Qed.

(** ** A context modifier that throws *)

Lemma runModifiers_app arg before after :
  forall ctx0,
    runModifiers arg (before ++ after) ctx0 =
    (ctx <-- runModifiers arg before ctx0 ;; runModifiers arg after ctx).
Proof.
  induction before as [|modifier before IH]; intros ctx0; simpl; [reflexivity |].
  destruct (contributionOf arg ctx0 modifier) as [c|e]; simpl; [apply IH | reflexivity].
Qed.

(** X17.  When a function among the context modifiers throws, called with
    the request argument and the context the modifiers before it built,
    the context handler throws that error, whatever the modifiers after
    it are. *)
Theorem contextHandler_modifier_throws
    (arg : value) (before after : list value) (modifier : value) (ctx : object)
    (e : error) :
  contextHandler (VArray before) arg = Ret ctx ->
  typeof modifier = "function" ->
  call modifier VUndefined [arg; VObject ctx] = Throw e ->
  contextHandler (VArray (before ++ modifier :: after)) arg = Throw e.
Proof.
  simpl. intros Hbefore Hf Hcall. rewrite runModifiers_app, Hbefore. simpl.
  unfold contributionOf. rewrite Hf. simpl. now rewrite Hcall.
Qed.

(** ** The schema of the served configuration *)

(** X18.  The schema of the configuration [createGraphQLConfig] returns
    is what [mergeSchemas] makes of the one executable schema built from
    the [schemas] and the [resolvers] of the aggregate, with the base
    configuration's own [schemaDirectives]; and when the executable schema
    cannot be built from them, [createGraphQLConfig] throws the error of
    [makeExecutableSchema]. *)
Theorem createGraphQLConfig_schema (defaultConfig : object) (w : world) (config : object) :
  NoDup (keys defaultConfig) ->
  snd (aggregateConfig defaultConfig w) = Ret config ->
  get "schemaDirectives" config = get "schemaDirectives" defaultConfig /\
  (forall served,
      snd (createGraphQLConfig defaultConfig w) = Ret served ->
      exists executable,
        makeExecutableSchema (get "schemas" config) (get "resolvers" config) =
        Ret executable /\
        mergeSchemas [executable] (get "schemaDirectives" defaultConfig)
          (get "resolvers" config) = Ret (cfg_schema served)) /\
  (forall e,
      makeExecutableSchema (get "schemas" config) (get "resolvers" config) = Throw e ->
      snd (createGraphQLConfig defaultConfig w) = Throw e).
Proof.
  intros Hnd Hconfig.
  assert (Hdirectives : get "schemaDirectives" config = get "schemaDirectives" defaultConfig).
  { rewrite aggregateConfig_run in Hconfig. simpl in Hconfig. unfold get.
    rewrite <- (lookup_seedConfig_other "schemaDirectives" defaultConfig Hnd eq_refl).
    assert (Hframe : lookup "schemaDirectives" config =
                     lookup "schemaDirectives" (seedConfig defaultConfig)).
    { refine (ofold_frame (fun config entry => mergeResult config (snd entry))
                "schemaDirectives" _ (entries w) (seedConfig defaultConfig) config Hconfig).
      intros s a s' Hs. apply (mergeResult_frame s (snd a) s' "schemaDirectives" Hs).
      unfold aggregateFields. simpl. intros [H | [H | [H | [H | []]]]]; discriminate. }
    now rewrite Hframe. }
  split; [exact Hdirectives |].
  unfold createGraphQLConfig, bind, lift, ret.
  destruct (aggregateConfig defaultConfig w) as [w1 o]. simpl in Hconfig. subst o.
  rewrite Hdirectives. split.
  - intros served.
    destruct (makeExecutableSchema _ _) as [executable|e]; [| discriminate].
    destruct (mergeSchemas _ _ _) as [merged|e] eqn:Hmerged; [| discriminate].
    simpl. intros [= <-]. exists executable. now split.
  - intros e Hthrow. now rewrite Hthrow.
Qed.

(** ** A merge that logs nothing but its own line *)

Lemma foldLogs_nil {A S} (logged : S -> A -> list log_entry) (step : S -> A -> outcome S) xs :
  (forall s a, In a xs -> logged s a = []) ->
  forall s, foldLogs logged step xs s = [].
Proof.
  induction xs as [|x xs IH]; intros Hnil s; simpl; [reflexivity |].
  rewrite Hnil by now left.
  destruct (step s x); [| reflexivity]. apply IH. intros s1 y Hy. apply Hnil. now right.
Qed.

(** X19.  [mergeGraphQLConfig] of an extension config whose options all
    have a merge rule and whose schema fragments, in the options the guard
    of line 182 lets through, are all strings logs its debug line and
    nothing else, whether or not the merge then throws: no warning is
    logged for such a config. *)
Theorem mergeGraphQLConfig_logs_no_warning
    (dest source : object) (extensionName : string) (w : world) :
  (forall name, In name (keys source) -> isSupportedOption name = true) ->
  (forall name schemaItem,
      In name (keys source) ->
      isSchemaOption name = true ->
      skipsOption source name = false ->
      In schemaItem (toValueArray (get name source)) ->
      typeof schemaItem = "string") ->
  logs (fst (mergeGraphQLConfig dest source extensionName w)) =
  logs w ++ [mergingMessage extensionName].
Proof.
  intros Hsupported Hstrings. rewrite mergeGraphQLConfig_run. simpl. f_equal.
  unfold mergingMessage, mergeLogs. f_equal.
  apply foldLogs_nil. intros _ name Hname. unfold optionLogs.
  destruct (skipsOption source name) eqn:Hskip; [reflexivity |].
  destruct (isSchemaOption name) eqn:Hschema.
  - assert (Hall : forall items,
               (forall item, In item items -> typeof item = "string") ->
               flat_map (fun schemaItem =>
                           if negb (typeof schemaItem =? "string")
                           then [LogWarn (nonStringSchemaMessage extensionName name schemaItem)]
                           else []) items = []).
    { induction items as [|item items IH]; intros Hitems; simpl; [reflexivity |].
      rewrite (Hitems item) by now left. simpl. apply IH.
      intros item' Hitem'. apply Hitems. now right. }
    apply Hall. intros item. now apply Hstrings.
  - now rewrite Hsupported.
Qed.

(** ** Schemas of the base configuration's own *)

Lemma seedConfig_schemas defaultConfig :
  NoDup (keys defaultConfig) ->
  get "schemas" (seedConfig defaultConfig) =
  match lookup "schemas" defaultConfig with
  | Some own => own
  | None => VArray []
  end.
Proof.
  intros Hnd. unfold get at 1. rewrite lookup_seedConfig by reflexivity.
  rewrite lookup_assignProps by exact Hnd.
  now destruct (lookup "schemas" defaultConfig).
Qed.

(** X20.  A base configuration that brings [schemas] of its own: they
    take the place of the empty array the merge would start from, and the
    [schemas] of the aggregate are these, followed by the schema fragments
    of each registered config in the order of the registry. *)
Theorem aggregate_schemas_after_base_schemas
    (defaultConfig : object) (own : list value) (w : world) (config : object) :
  NoDup (keys defaultConfig) ->
  lookup "schemas" defaultConfig = Some (VArray own) ->
  snd (aggregateConfig defaultConfig w) = Ret config ->
  get "schemas" (seedConfig defaultConfig) = VArray own /\
  get "schemas" config =
  VArray (own ++ flat_map (fun entry => ownSchemaFragments (snd entry)) (entries w)).
Proof.
  intros Hnd Hown. rewrite aggregateConfig_run. simpl. intros Hret.
  assert (Hseed : get "schemas" (seedConfig defaultConfig) = VArray own).
  { rewrite seedConfig_schemas by exact Hnd. now rewrite Hown. }
  split; [exact Hseed |].
  exact (aggregateResult_schemas defaultConfig (entries w) config own Hret Hseed).
Qed.

(** ** Building again from the same base configuration *)

Lemma reached_Ret {A S} (step : S -> A -> outcome S) xs :
  forall s s', ofold step xs s = Ret s' -> reached step xs s = s'.
Proof.
  induction xs as [|x xs IH]; intros s s'; simpl.
  - now intros [= <-].
  - unfold obind. destruct (step s x) as [s1|e]; [apply IH | discriminate].
Qed.

Lemma mergedUpTo_Ret registered :
  forall config config',
    ofold (fun config entry => mergeResult config (snd entry)) registered config =
    Ret config' ->
    mergedUpTo registered config = config'.
Proof.
  induction registered as [|entry registered IH]; intros config config'; simpl.
  - now intros [= <-].
  - unfold obind. destruct (mergeResult config (snd entry)) as [config1|e];
      [apply IH | discriminate].
Qed.

Lemma ofold_app_inv {A S} (step : S -> A -> outcome S) xs ys :
  forall s s',
    ofold step (xs ++ ys) s = Ret s' ->
    exists s1, ofold step xs s = Ret s1 /\ ofold step ys s1 = Ret s'.
Proof.
  induction xs as [|x xs IH]; intros s s'; simpl.
  - intros H. now exists s.
  - unfold obind. destruct (step s x) as [s1|e]; [apply IH | discriminate].
Qed.

Lemma createGraphQLConfig_entries defaultConfig w :
  entries (fst (createGraphQLConfig defaultConfig w)) = entries w.
Proof.
  unfold createGraphQLConfig, bind, lift, ret. rewrite aggregateConfig_run.
  destruct (aggregateResult defaultConfig (entries w)); [| reflexivity].
  destruct (makeExecutableSchema _ _); [| reflexivity].
  now destruct (mergeSchemas _ _ _).
Qed.

Lemma createGraphQLConfig_Ret defaultConfig w served :
  snd (createGraphQLConfig defaultConfig w) = Ret served ->
  exists config,
    aggregateResult defaultConfig (entries w) = Ret config /\
    get "dataSources" (cfg_settings served) = get "dataSources" config.
Proof.
  unfold createGraphQLConfig, bind, lift, ret. rewrite aggregateConfig_run.
  destruct (aggregateResult defaultConfig (entries w)) as [config|e]; [| discriminate].
  destruct (makeExecutableSchema _ _); [| discriminate].
  destruct (mergeSchemas _ _ _); [| discriminate].
  simpl. intros [= <-]. exists config. split; [reflexivity |].
  unfold get. simpl. now rewrite !lookup_delete_other by reflexivity.
Qed.

Lemma keys_writeThrough config base field :
  keys (writeThrough config base field) = keys base.
Proof.
  unfold writeThrough. destruct (lookup field base) as [shared|] eqn:E; [| reflexivity].
  destruct (byReference shared); [| reflexivity].
  exact (keys_set_present field (get field config) shared base E).
Qed.

Lemma lookup_writeThrough_other config base field k :
  (field =? k) = false ->
  lookup k (writeThrough config base field) = lookup k base.
Proof.
  intros Hne. unfold writeThrough. destruct (lookup field base) as [shared|]; [| reflexivity].
  destruct (byReference shared); [| reflexivity]. now apply lookup_set_other.
Qed.

Lemma keys_baseAfter defaultConfig w : keys (baseAfter defaultConfig w) = keys defaultConfig.
Proof. unfold baseAfter. simpl. now rewrite !keys_writeThrough. Qed.

(** The data sources the caller holds after the call are those the merge
    left. *)
Lemma baseAfter_dataSources defaultConfig w dataSources :
  lookup "dataSources" defaultConfig = Some (VObject dataSources) ->
  get "dataSources" (baseAfter defaultConfig w) =
  get "dataSources" (mergedUpTo (entries w) (seedConfig defaultConfig)).
Proof.
  intros Hds. unfold baseAfter. simpl.
  unfold writeThrough at 1.
  rewrite !lookup_writeThrough_other by reflexivity. rewrite Hds. simpl.
  apply get_set_same.
Qed.

Lemma lookup_optionDataSources source dataSources option name :
  bringsDataSource name source = false ->
  lookup name (optionDataSources source dataSources option) = lookup name dataSources.
Proof.
  intros Hnone. unfold optionDataSources.
  destruct (skipsOption source option); [reflexivity |].
  destruct (option =? "dataSources") eqn:E; [| reflexivity].
  apply String.eqb_eq in E. subst option.
  apply lookup_assignProps_absent.
  unfold bringsDataSource, has_key in Hnone.
  now destruct (lookup name (ownEnumerable (get "dataSources" source))).
Qed.

Lemma mergeResult_dataSource_kept dest source dest' dataSources name :
  mergeResult dest source = Ret dest' ->
  get "dataSources" dest = VObject dataSources ->
  bringsDataSource name source = false ->
  exists dataSources',
    get "dataSources" dest' = VObject dataSources' /\
    lookup name dataSources' = lookup name dataSources.
Proof.
  intros Hret Hds Hnone.
  refine (mergeResult_preserved
            (fun s => exists dataSources',
                 get "dataSources" s = VObject dataSources' /\
                 lookup name dataSources' = lookup name dataSources)
            dest source dest' _ Hret _).
  - intros s option s' Hs (ds & Hget & Hlookup).
    exists (optionDataSources source ds option). split.
    + now apply (optionResult_dataSources_assigned source s option).
    + now rewrite lookup_optionDataSources.
  - now exists dataSources.
Qed.

Lemma aggregate_dataSource_kept (registered : list (string * object)) name :
  Forall (fun entry => bringsDataSource name (snd entry) = false) registered ->
  forall config config' dataSources,
    ofold (fun config entry => mergeResult config (snd entry)) registered config =
    Ret config' ->
    get "dataSources" config = VObject dataSources ->
    exists dataSources',
      get "dataSources" config' = VObject dataSources' /\
      lookup name dataSources' = lookup name dataSources.
Proof.
  induction 1 as [|entry registered Hentry _ IH]; intros config config' dataSources; simpl.
  - intros [= <-] Hds. now exists dataSources.
  - unfold obind. destruct (mergeResult config (snd entry)) as [config1|e] eqn:E;
      [| discriminate].
    intros Hrest Hds.
    destruct (mergeResult_dataSource_kept config (snd entry) config1 dataSources name
                E Hds Hentry) as (ds1 & Hds1 & Hkept).
    destruct (IH config1 config' ds1 Hrest Hds1) as (ds' & Hds' & Hkept').
    exists ds'. split; [exact Hds' | congruence].
Qed.

Lemma has_key_set_kept {V} k k' (v : V) (o : list (string * V)) :
  has_key k o = true -> has_key k (set k' v o) = true.
Proof.
  unfold has_key. destruct (k' =? k) eqn:E.
  - apply String.eqb_eq in E. subst k'. now rewrite lookup_set_same.
  - now rewrite lookup_set_other.
Qed.

Lemma has_key_assignProps_kept k (props target : object) :
  has_key k target = true -> has_key k (assignProps target props) = true.
Proof.
  unfold assignProps. revert target.
  induction props as [|[k1 v1] props IH]; intros target Hk; simpl; [exact Hk |].
  apply IH. now apply has_key_set_kept.
Qed.

Lemma has_key_assignProps_brought k (props target : object) :
  has_key k props = true -> has_key k (assignProps target props) = true.
Proof.
  revert target. induction props as [|[k1 v1] props IH]; intros target; [discriminate |].
  unfold has_key. simpl. destruct (k =? k1) eqn:E.
  - intros _. apply String.eqb_eq in E. subst k1.
    apply (has_key_assignProps_kept k props). apply has_key_set_same.
  - intros Hk. now apply IH.
Qed.

Lemma mergeResult_dataSources_grow dest source dest' dataSources :
  mergeResult dest source = Ret dest' ->
  get "dataSources" dest = VObject dataSources ->
  exists dataSources',
    get "dataSources" dest' = VObject dataSources' /\
    forall name, has_key name dataSources = true -> has_key name dataSources' = true.
Proof.
  intros Hret Hds.
  refine (mergeResult_preserved
            (fun s => exists dataSources',
                 get "dataSources" s = VObject dataSources' /\
                 forall name, has_key name dataSources = true ->
                              has_key name dataSources' = true)
            dest source dest' _ Hret _).
  - intros s option s' Hs (ds & Hget & Hgrow).
    exists (optionDataSources source ds option). split.
    + now apply (optionResult_dataSources_assigned source s option).
    + intros name Hname. unfold optionDataSources.
      destruct (skipsOption source option); [now apply Hgrow |].
      destruct (option =? "dataSources"); [| now apply Hgrow].
      apply has_key_assignProps_kept. now apply Hgrow.
  - now exists dataSources.
Qed.

Lemma aggregate_dataSources_grow (registered : list (string * object)) :
  forall config config' dataSources,
    ofold (fun config entry => mergeResult config (snd entry)) registered config =
    Ret config' ->
    get "dataSources" config = VObject dataSources ->
    exists dataSources',
      get "dataSources" config' = VObject dataSources' /\
      forall name, has_key name dataSources = true -> has_key name dataSources' = true.
Proof.
  induction registered as [|entry registered IH]; intros config config' dataSources; simpl.
  - intros [= <-] Hds. now exists dataSources.
  - unfold obind. destruct (mergeResult config (snd entry)) as [config1|e] eqn:E;
      [| discriminate].
    intros Hrest Hds.
    destruct (mergeResult_dataSources_grow config (snd entry) config1 dataSources E Hds)
      as (ds1 & Hds1 & Hgrow).
    destruct (IH config1 config' ds1 Hrest Hds1) as (ds' & Hds' & Hgrow').
    exists ds'. split; [exact Hds' | auto].
Qed.

Lemma bringsDataSource_defines name source :
  bringsDataSource name source = true -> definesOption "dataSources" source = true.
Proof.
  unfold bringsDataSource, definesOption, skipsOption, get.
  destruct (lookup "dataSources" source) as [v|] eqn:E; [| discriminate].
  intros Hk. apply andb_true_intro. split.
  - apply existsb_exists. exists "dataSources".
    split; [now apply lookup_Some_keys in E | reflexivity].
  - destruct v; trivial; discriminate.
Qed.

Lemma mergeResult_dataSource_brought dest source dest' dataSources name :
  NoDup (keys source) ->
  mergeResult dest source = Ret dest' ->
  get "dataSources" dest = VObject dataSources ->
  bringsDataSource name source = true ->
  exists dataSources',
    get "dataSources" dest' = VObject dataSources' /\ has_key name dataSources' = true.
Proof.
  intros Hnd Hret Hds Hbrings.
  rewrite (mergeResult_dataSources_assigned dest source dest' dataSources Hnd Hret Hds).
  rewrite (bringsDataSource_defines name source Hbrings).
  eexists. split; [reflexivity |]. now apply has_key_assignProps_brought.
Qed.

(** C8.  A registry that holds [old] under a key, a base configuration
    with data sources, and a data source that the configuration built from
    them holds although the base configuration has none of that name.  The
    extension is then registered again under the key, with a config [new],
    after which no registered config brings a data source of that name,
    and the configuration is built again from the base configuration
    object that the first call was given.  The registry holds [new] under
    the key; the data source was brought by [old]; the base configuration
    the caller holds has the data sources the first build merged; and the
    configuration built the second time holds the data source of [old]
    beside every data source [new] brings, where a configuration built
    from the base configuration as it first was has no data source of
    that name. *)
Theorem rebuild_from_same_base_keeps_replaced_config
    (defaultConfig dataSources : object) (extKey : string) (extension : ExtensionEntry)
    (old new : object) (name : string) (api : value) (w : world)
    (served1 served2 : ApolloServerConfig) :
  let w1 := fst (createGraphQLConfig defaultConfig w) in
  let base1 := baseAfter defaultConfig w in
  let w2 := fst (registerExtensions [(extKey, extension)] w1) in
  NoDup (keys defaultConfig) ->
  lookup "dataSources" defaultConfig = Some (VObject dataSources) ->
  lookup name dataSources = None ->
  lookup extKey (entries w) = Some old ->
  snd (createGraphQLConfig defaultConfig w) = Ret served1 ->
  lookup name (servedDataSources served1) = Some api ->
  snd (resolveExtensionConfig extKey extension w1) = Ret new ->
  NoDup (keys new) ->
  Forall (fun entry => bringsDataSource name (snd entry) = false) (entries w2) ->
  snd (createGraphQLConfig base1 w2) = Ret served2 ->
  lookup extKey (entries w2) = Some new /\
  bringsDataSource name old = true /\
  bringsDataSource name new = false /\
  get "dataSources" base1 = get "dataSources" (cfg_settings served1) /\
  lookup name (servedDataSources served2) = Some api /\
  (forall name',
      bringsDataSource name' new = true ->
      has_key name' (servedDataSources served2) = true) /\
  (forall served,
      snd (createGraphQLConfig defaultConfig w2) = Ret served ->
      lookup name (servedDataSources served) = None).
Proof.
  intros w1 base1 w2 Hnd Hds Hfresh Hold Hbuild1 Hapi Hresolve Hndnew Hnone Hbuild2.
  assert (Hseed : get "dataSources" (seedConfig defaultConfig) = VObject dataSources).
  { rewrite seedConfig_dataSources by exact Hnd. unfold get. now rewrite Hds. }
  (* the first build *)
  destruct (createGraphQLConfig_Ret defaultConfig w served1 Hbuild1)
    as (config1 & Hconfig1 & Hserved1).
  destruct (aggregate_dataSources_grow (entries w) (seedConfig defaultConfig) config1
              dataSources Hconfig1 Hseed) as (ds1 & Hds1 & _).
  assert (Hbase1 : get "dataSources" base1 = VObject ds1).
  { unfold base1. rewrite (baseAfter_dataSources defaultConfig w dataSources Hds).
    now rewrite (mergedUpTo_Ret (entries w) (seedConfig defaultConfig) config1 Hconfig1). }
  assert (Hapi1 : lookup name ds1 = Some api).
  { unfold servedDataSources in Hapi. now rewrite Hserved1, Hds1 in Hapi. }
  (* the registration *)
  assert (Hentries1 : entries w1 = entries w) by apply createGraphQLConfig_entries.
  assert (Hentries2 : entries w2 = set extKey new (entries w)).
  { unfold w2. rewrite registerExtensions_single.
    destruct (resolveExtensionConfig extKey extension w1) as [w' o] eqn:E.
    simpl in Hresolve. subst o.
    destruct (registerExtension_stores extKey extension w1 w' new E) as (Hstored & _).
    now rewrite Hstored, Hentries1. }
  destruct (set_present_split extKey new old (entries w) Hold)
    as (before & after & Hsplit & _ & Hset).
  rewrite Hentries2, Hset in Hnone.
  apply Forall_app in Hnone. destruct Hnone as [Hbefore Hafter].
  inversion Hafter as [|? ? Hnew Hafter']; subst. simpl in Hnew.
  (* the second build *)
  assert (Hnd1 : NoDup (keys base1)) by (unfold base1; now rewrite keys_baseAfter).
  assert (Hseed1 : get "dataSources" (seedConfig base1) = VObject ds1).
  { now rewrite seedConfig_dataSources. }
  destruct (createGraphQLConfig_Ret base1 w2 served2 Hbuild2)
    as (config2 & Hconfig2 & Hserved2).
  unfold aggregateResult in Hconfig2. rewrite Hentries2, Hset in Hconfig2.
  split; [rewrite Hentries2; apply lookup_set_same |].
  split.
  { destruct (bringsDataSource name old) eqn:Hbrings; [reflexivity | exfalso].
    destruct (aggregate_dataSource_kept (entries w) name) with
      (config := seedConfig defaultConfig) (config' := config1) (dataSources := dataSources)
      as (ds & Hds' & Hkept); trivial.
    - rewrite Hsplit. apply Forall_app. split; [exact Hbefore |]. now constructor.
    - rewrite Hds1 in Hds'. injection Hds' as <-. congruence. }
  split; [exact Hnew |].
  split; [now rewrite Hbase1, Hserved1 |].
  split.
  { destruct (aggregate_dataSource_kept (before ++ (extKey, new) :: after) name) with
      (config := seedConfig base1) (config' := config2) (dataSources := ds1)
      as (ds2 & Hds2 & Hkept); trivial.
    - apply Forall_app. split; [exact Hbefore |]. now constructor.
    - unfold servedDataSources. rewrite Hserved2, Hds2. simpl. congruence. }
  split.
  { intros name' Hbrings.
    destruct (ofold_app_inv _ before ((extKey, new) :: after) _ _ Hconfig2)
      as (config_before & Hrun_before & Hrun_rest).
    destruct (aggregate_dataSources_grow before (seedConfig base1) config_before ds1
                Hrun_before Hseed1) as (ds_before & Hds_before & _).
    simpl in Hrun_rest. unfold obind in Hrun_rest.
    destruct (mergeResult config_before new) as [config_new|e] eqn:Hmerge; [| discriminate].
    destruct (mergeResult_dataSource_brought config_before new config_new ds_before name'
                Hndnew Hmerge Hds_before Hbrings) as (ds_new & Hds_new & Hkey).
    destruct (aggregate_dataSources_grow after config_new config2 ds_new
                Hrun_rest Hds_new) as (ds2 & Hds2 & Hgrow).
    unfold servedDataSources. rewrite Hserved2, Hds2. simpl. now apply Hgrow. }
  intros served Hbuild.
  destruct (createGraphQLConfig_Ret defaultConfig w2 served Hbuild)
    as (config & Hconfig & Hserved).
  unfold aggregateResult in Hconfig. rewrite Hentries2, Hset in Hconfig.
  destruct (aggregate_dataSource_kept (before ++ (extKey, new) :: after) name) with
    (config := seedConfig defaultConfig) (config' := config) (dataSources := dataSources)
    as (ds & Hds' & Hkept); trivial.
  - apply Forall_app. split; [exact Hbefore |]. now constructor.
  - unfold servedDataSources. rewrite Hserved, Hds'. simpl. congruence.
Qed.

End ExtensionContainer.

(** * A storefront: two extensions, a shop and a blog *)

Module Storefront.

Definition className : string := "ExtensionContainer".

Definition shopSchema : string := "type Query { products: [Product] }".
Definition blogSchema : string := "type Query { posts: [Post] }".

(** The functions of the two packages and of the server's configuration. *)
Definition extern (name : string) (this : value) (args : list value) : outcome value :=
  if name =? "shop.init" then
    Ret (VObject [("context", VFunction (Extern "shop.context"));
                  ("playground", VBool true);
                  ("tracing", VUndefined)])
  else if name =? "shop.context" then
    Ret (VObject [("currency", VString "EUR"); ("locale", VString "de")])
  else if name =? "shop.products" then Ret (VArray (this :: args))
  else if name =? "shop.fetchBackendConfig" then
    Ret (VObject [("locales", strings ["en"; "de"]); ("currency", VString "EUR")])
  else if name =? "blog.init" then
    Ret (VObject [("dataSources", VObject [("blog", VObject [])])])
  else Throw (Error (name ^^ " is not defined")).

Definition stringify (v : value) : string := "[object Object]".

Definition importModule (package : string) : value :=
  if package =? "@storefront/shop" then VFunction (Extern "shop.init")
  else if package =? "@storefront/blog" then VFunction (Extern "blog.init")
  else VUndefined.

Definition pathJoin (a b : string) : string := a ^^ "/" ^^ b.

Definition cwd : string := "/srv/storefront".

Definition requireResolve (path : string) : option string :=
  if path =? "@storefront/shop/schema.graphql"
  then Some "/srv/node_modules/@storefront/shop/schema.graphql"
  else None.

Definition readFileSync (path : string) : option string :=
  if path =? "/srv/node_modules/@storefront/shop/schema.graphql" then Some shopSchema
  else if path =? "/srv/storefront/@storefront/blog/schema.graphql" then Some blogSchema
  else None.

(** A stand-in for deepmerge on the configs of this storefront: arrays
    under the same key are concatenated, any other value of the source
    replaces the target's. *)
Definition deepMerge (target : object) (source : value) : object :=
  fold_left
    (fun merged p =>
       match get (fst p) merged, snd p with
       | VArray xs, VArray ys => set (fst p) (VArray (xs ++ ys)) merged
       | _, v => set (fst p) v merged
       end)
    (ownEnumerable source) target.

(** A stand-in for the schema introspector on the two schema files. *)
Definition getRootTypeFields (typeDefs : value) : outcome (list (string * list string)) :=
  if strict_equals typeDefs (VString shopSchema) then Ret [("Query", ["products"])]
  else if strict_equals typeDefs (VString blogSchema) then Ret [("Query", ["posts"])]
  else Ret [].

Definition EXTENSION_REGISTERED : string := "extension-registered".

Definition emitAsync (name : string) (payload : value) : outcome unit := Ret tt.

Definition makeExecutableSchema (typeDefs resolvers : value) : outcome value :=
  Ret (VObject [("typeDefs", typeDefs); ("resolvers", resolvers)]).

Definition mergeSchemas (schemas : list value) (schemaDirectives resolvers : value)
    : outcome value :=
  Ret (VObject [("schemas", VArray schemas)]).

Definition register : list (string * ExtensionEntry) -> M unit :=
  registerExtensions className extern 8 stringify importModule requireResolve readFileSync
    pathJoin cwd deepMerge getRootTypeFields EXTENSION_REGISTERED emitAsync.

Definition shop : ExtensionEntry :=
  mkExtension "@storefront/shop" (Some [("api", VString "shop")]).

Definition blog : ExtensionEntry :=
  mkExtension "@storefront/blog" (Some [("api", VString "blog")]).

(** The container once the shop and the blog are registered. *)
Definition registered : world :=
  Eval vm_compute in fst (register [("shop", shop); ("blog", blog)] emptyWorld).

(** The base configuration of the server. *)
Definition baseConfig : object :=
  [("dataSources", VObject []); ("debug", VBool false)].

Definition aggregate : object :=
  Eval vm_compute in
    match snd (aggregateConfig className stringify baseConfig registered) with
    | Ret config => config
    | Throw _ => []
    end.

(** The request context of a request served by the shop alone. *)
Definition requestContext : value :=
  VObject [("dataSources",
            VObject [("shop",
                      VObject [("products", VFunction (Extern "shop.products"));
                               ("fetchBackendConfig",
                                VFunction (Extern "shop.fetchBackendConfig"))]);
                     ("blog", VObject [("posts", VFunction (Extern "blog.posts"))])])].

End Storefront.

(** * The storefront on a bad day: a package whose initializer throws, a
    package that brings nothing, a listener that throws *)

Module Incidents.

(** The loader also knows the reviews package, whose initializer is not
    defined. *)
Definition importModule (package : string) : value :=
  if package =? "@storefront/reviews" then VFunction (Extern "reviews.init")
  else Storefront.importModule package.

Definition reviews : ExtensionEntry := mkExtension "@storefront/reviews" None.

(** A package with no initializer and no schema file. *)
Definition search : ExtensionEntry := mkExtension "@storefront/search" None.

Definition register : list (string * ExtensionEntry) -> M unit :=
  registerExtensions Storefront.className Storefront.extern 8 Storefront.stringify
    importModule Storefront.requireResolve Storefront.readFileSync Storefront.pathJoin
    Storefront.cwd Storefront.deepMerge Storefront.getRootTypeFields
    Storefront.EXTENSION_REGISTERED Storefront.emitAsync.

(** A listener of the registration event that throws. *)
Definition emitAsync (name : string) (payload : value) : outcome unit :=
  Throw (Error "listener failed").

Definition announce : list (string * ExtensionEntry) -> M unit :=
  registerExtensions Storefront.className Storefront.extern 8 Storefront.stringify
    Storefront.importModule Storefront.requireResolve Storefront.readFileSync
    Storefront.pathJoin Storefront.cwd Storefront.deepMerge Storefront.getRootTypeFields
    Storefront.EXTENSION_REGISTERED emitAsync.

(** The config the shop is registered with. *)
Definition shopConfig : object :=
  Eval vm_compute in
    match lookup "shop" (entries Storefront.registered) with
    | Some extGqlConfig => extGqlConfig
    | None => []
    end.

(** The configuration served from the storefront's registry. *)
Definition served : ApolloServerConfig :=
  match snd (createGraphQLConfig Storefront.className Storefront.extern 8
               Storefront.stringify Storefront.makeExecutableSchema Storefront.mergeSchemas
               Storefront.baseConfig Storefront.registered) with
  | Ret config => config
  | Throw _ => mkApolloServerConfig (fun _ => Ret []) VUndefined []
  end.

(** A request served by the shop, a content system whose fetch is not
    defined, and the blog. *)
Definition shopApi : value :=
  VObject [("fetchBackendConfig", VFunction (Extern "shop.fetchBackendConfig"))].

Definition cmsApi : value :=
  VObject [("fetchBackendConfig", VFunction (Extern "cms.fetchBackendConfig"))].

Definition shopContext : value :=
  VObject [("dataSources", VObject [("shop", shopApi)])].

Definition cmsContext : value :=
  VObject [("dataSources",
            VObject [("shop", shopApi); ("cms", cmsApi); ("blog", VObject [])])].

End Incidents.

(** * The storefront relaunched: the blog's key registered again with a
    news package, and the configuration built before and after from the
    same base configuration object *)

Module Relaunch.

(** The news package: an initializer that brings one data source, no
    schema file. *)
Definition extern (name : string) (this : value) (args : list value) : outcome value :=
  if name =? "news.init" then
    Ret (VObject [("dataSources", VObject [("news", VObject [])])])
  else Storefront.extern name this args.

Definition importModule (package : string) : value :=
  if package =? "@storefront/news" then VFunction (Extern "news.init")
  else Storefront.importModule package.

Definition news : ExtensionEntry := mkExtension "@storefront/news" None.

Definition register : list (string * ExtensionEntry) -> M unit :=
  registerExtensions Storefront.className extern 8 Storefront.stringify
    importModule Storefront.requireResolve Storefront.readFileSync Storefront.pathJoin
    Storefront.cwd Storefront.deepMerge Storefront.getRootTypeFields
    Storefront.EXTENSION_REGISTERED Storefront.emitAsync.

Definition build : object -> M ApolloServerConfig :=
  createGraphQLConfig Storefront.className extern 8 Storefront.stringify
    Storefront.makeExecutableSchema Storefront.mergeSchemas.

Definition unbuilt : ApolloServerConfig :=
  mkApolloServerConfig (fun _ => Ret []) VUndefined [].

Definition servedBy (base : object) (w : world) : ApolloServerConfig :=
  match snd (build base w) with
  | Ret served => served
  | Throw _ => unbuilt
  end.

(** The shop and the blog registered, and the first build. *)
Definition registered : world :=
  Eval vm_compute in
    fst (register [("shop", Storefront.shop); ("blog", Storefront.blog)] emptyWorld).

Definition blogConfig : object :=
  Eval vm_compute in
    match lookup "blog" (entries registered) with
    | Some extGqlConfig => extGqlConfig
    | None => []
    end.

Definition built : world := fst (build Storefront.baseConfig registered).

(** The base configuration the server holds after the first build. *)
Definition baseConfig1 : object :=
  Eval vm_compute in baseAfter Storefront.baseConfig registered.

(** The news package registered under the blog's key. *)
Definition relaunched : world := fst (register [("blog", news)] built).

End Relaunch.

(** * The theorems on the storefront *)

Definition isWarning (e : log_entry) : bool :=
  match e with LogWarn _ => true | LogDebug _ => false end.

(** The resolver bound to [Query.products] is the pass-through closure for
    the shop's [products]; called on a request whose shop has the method,
    it throws. *)
Example storefront_binding :
  snd (getExtensionGraphQLConfig Storefront.className Storefront.getRootTypeFields
         (VString Storefront.shopSchema) "shop" emptyWorld) =
  Ret (VObject
         [("schema", VArray [VString Storefront.shopSchema]);
          ("resolvers",
           VObject [("Query",
                     VObject [("products", VFunction (PassThrough "shop" "products"))])])]) /\
  callFn Storefront.className Storefront.extern 8 (VFunction (PassThrough "shop" "products"))
    VUndefined [VNull; VObject []; Storefront.requestContext; VNull] =
  Throw (Error "ExtensionContainer: shop.products() resolver method is not defined!") /\
  Storefront.extern "shop.products"
    (VObject [("products", VFunction (Extern "shop.products"))])
    [VNull; VObject []; Storefront.requestContext; VNull] =
  Ret (VArray [VObject [("products", VFunction (Extern "shop.products"))];
               VNull; VObject []; Storefront.requestContext; VNull]).
Proof. repeat split. Qed.

(** A request without the shop's data source: the resolver of
    [Query.products] does not resolve to [null], it throws. *)
Lemma resolver_rejects_without_data_source :
  getApi (VObject [("blog", VObject [])]) "shop" = Ret VNull /\
  resolver Storefront.className Storefront.extern 8 "shop" "products" VNull (VObject [])
    (VObject [("dataSources", VObject [("blog", VObject [])])]) VNull =
  Throw (TypeError "Cannot read property 'products' of null") /\
  resolver Storefront.className Storefront.extern 8 "shop" "products" VNull (VObject [])
    (VObject [("dataSources", VObject [("blog", VObject [])])]) VNull <> Ret VNull.
Proof. repeat split. discriminate. Qed.

(** Two providers with the locales en, de and de, fr. *)
Lemma mergeBackendConfigs_intersects_locales_witness :
  mergeBackendConfig [("locales", strings ["en"; "de"])]
    (VObject [("locales", strings ["de"; "fr"]); ("currency", VString "EUR")]) =
  [("locales", strings ["de"])].
Proof.
  exact (proj1 (proj1 (proj2 (proj2 mergeBackendConfigs_intersects_locales))
                 [("locales", strings ["en"; "de"])]
                 [("locales", strings ["de"; "fr"]); ("currency", VString "EUR")]
                 ["en"; "de"] ["de"; "fr"] eq_refl eq_refl)).
Defined.

(** The shop fetches its backend configuration, the blog cannot. *)
Lemma fetchBackendConfig_all_or_nothing_witness :
  snd (fetchBackendConfig Storefront.className Storefront.extern 8
         VNull (VObject []) Storefront.requestContext VNull emptyWorld) = Ret VUndefined.
Proof.
  refine (proj2
            (fetchBackendConfig_all_or_nothing Storefront.className Storefront.extern 8
               VNull (VObject []) Storefront.requestContext VNull
               (VObject
                  [("shop",
                    VObject [("products", VFunction (Extern "shop.products"));
                             ("fetchBackendConfig",
                              VFunction (Extern "shop.fetchBackendConfig"))]);
                   ("blog", VObject [("posts", VFunction (Extern "blog.posts"))])])
               [("shop",
                 VObject [("products", VFunction (Extern "shop.products"));
                          ("fetchBackendConfig",
                           VFunction (Extern "shop.fetchBackendConfig"))])]
               [] "blog" (VObject [("posts", VFunction (Extern "blog.posts"))])
               eq_refl eq_refl _) _ emptyWorld).
  - exists VUndefined. split; reflexivity.
  - constructor; [| constructor].
    exists (VFunction (Extern "shop.fetchBackendConfig")),
      (VObject [("locales", strings ["en"; "de"]); ("currency", VString "EUR")]).
    repeat split.
Defined.

(** A literal context, then the shop's context function. *)
Lemma contextHandler_successive_merge_witness :
  exists ctx contribution,
    contextHandler Storefront.className Storefront.extern 8
      (VArray [VObject [("locale", VString "en"); ("user", VString "guest")]]) (VObject []) =
    Ret ctx /\
    contributionOf Storefront.className Storefront.extern 8 (VObject []) ctx
      (VFunction (Extern "shop.context")) = Ret contribution /\
    [("locale", VString "de"); ("user", VString "guest"); ("currency", VString "EUR")] =
    objectAssign ctx contribution /\
    (NoDup (keys (ownEnumerable contribution)) ->
     forall field,
       lookup field
         [("locale", VString "de"); ("user", VString "guest"); ("currency", VString "EUR")] =
       match lookup field (ownEnumerable contribution) with
       | Some v => Some v
       | None => lookup field ctx
       end).
Proof.
  exact (proj1 (proj2 (contextHandler_successive_merge Storefront.className
                         Storefront.extern 8 (VObject [])))
               [VObject [("locale", VString "en"); ("user", VString "guest")]]
               (VFunction (Extern "shop.context"))
               [("locale", VString "de"); ("user", VString "guest");
                ("currency", VString "EUR")]
               eq_refl).
Defined.

(** The shop, then the blog. *)
Lemma aggregate_schemas_in_registration_order_witness :
  keys (entries Storefront.registered) = ["shop"; "blog"] /\
  get "schemas" Storefront.aggregate =
  VArray [VString Storefront.shopSchema; VString Storefront.blogSchema].
Proof.
  pose proof (aggregate_schemas_in_registration_order Storefront.className
                Storefront.extern 8 Storefront.stringify Storefront.importModule
                Storefront.requireResolve Storefront.readFileSync Storefront.pathJoin
                Storefront.cwd Storefront.deepMerge Storefront.getRootTypeFields
                Storefront.EXTENSION_REGISTERED Storefront.emitAsync
                Storefront.baseConfig Storefront.registered eq_refl) as [Horder [Hschemas _]].
  split.
  - apply (Horder [("shop", Storefront.shop); ("blog", Storefront.blog)] emptyWorld).
    + reflexivity.
    + repeat constructor; simpl; intuition discriminate.
    + reflexivity.
  - exact (Hschemas Storefront.aggregate eq_refl).
Defined.

(** The shop's key registered again, with the blog's package. *)
Lemma registerExtensions_replaces_config_witness :
  lookup "shop"
    (entries (fst (Storefront.register [("shop", Storefront.blog)] Storefront.registered))) =
  lookup "blog" (entries Storefront.registered) /\
  keys (entries (fst (Storefront.register [("shop", Storefront.blog)] Storefront.registered)))
  = ["shop"; "blog"].
Proof.
  destruct (registerExtensions_replaces_config Storefront.className
              Storefront.extern 8 Storefront.stringify Storefront.importModule
              Storefront.requireResolve Storefront.readFileSync Storefront.pathJoin
              Storefront.cwd Storefront.deepMerge Storefront.getRootTypeFields
              Storefront.EXTENSION_REGISTERED Storefront.emitAsync
              "shop" Storefront.blog
              (match lookup "shop" (entries Storefront.registered) with
               | Some old => old | None => [] end)
              (match lookup "blog" (entries Storefront.registered) with
               | Some new => new | None => [] end)
              Storefront.registered
              (fst (resolveExtensionConfig Storefront.className Storefront.extern 8
                      Storefront.stringify Storefront.importModule
                      Storefront.requireResolve Storefront.readFileSync Storefront.pathJoin
                      Storefront.cwd Storefront.deepMerge Storefront.getRootTypeFields
                      "shop" Storefront.blog Storefront.registered)))
    as (before & after & _ & Hafter & _ & _ & Hnew & _ & _).
  - repeat constructor; simpl; intuition discriminate.
  - reflexivity.
  - reflexivity.
  - split; [exact Hnew | reflexivity].
Defined.

(** The shop's config has a [playground] option. *)
Lemma mergeGraphQLConfig_unsupported_option_witness :
  In (LogWarn (unsupportedOptionMessage "shop" "playground"))
     (logs (fst (mergeGraphQLConfig Storefront.className Storefront.stringify
                   (seedConfig Storefront.baseConfig)
                   [("context", VFunction (Extern "shop.context"));
                    ("playground", VBool true); ("tracing", VUndefined)]
                   "shop" emptyWorld))) /\
  lookup "debug"
    (match snd (mergeGraphQLConfig Storefront.className Storefront.stringify
                  (seedConfig Storefront.baseConfig)
                  [("context", VFunction (Extern "shop.context"));
                   ("playground", VBool true); ("tracing", VUndefined)]
                  "shop" emptyWorld) with
     | Ret dest' => dest'
     | Throw _ => []
     end) = lookup "debug" (seedConfig Storefront.baseConfig).
Proof.
  destruct (mergeGraphQLConfig_unsupported_option Storefront.className
              Storefront.stringify (seedConfig Storefront.baseConfig)
              [("context", VFunction (Extern "shop.context"));
               ("playground", VBool true); ("tracing", VUndefined)]
              "shop" "playground" emptyWorld) as [_ Hmerge].
  - simpl. tauto.
  - reflexivity.
  - destruct (Hmerge _ eq_refl) as [Hlogged Hframe]. split.
    + exact (Hlogged eq_refl).
    + apply Hframe. simpl. intuition discriminate.
Defined.

(** An option without a merge rule whose value is [undefined]: the config
    has the key, and the merge logs no warning. *)
Lemma unsupported_undefined_option_not_logged :
  In "tracing" (keys [("tracing", VUndefined)]) /\
  isSupportedOption "tracing" = false /\
  snd (mergeGraphQLConfig Storefront.className Storefront.stringify []
         [("tracing", VUndefined)] "shop" emptyWorld) = Ret [] /\
  existsb isWarning
    (logs (fst (mergeGraphQLConfig Storefront.className Storefront.stringify []
                  [("tracing", VUndefined)] "shop" emptyWorld))) = false.
Proof. repeat split. now left. Qed.

(** The default base configuration and the blog's data sources. *)
Lemma createGraphQLConfig_without_dataSources_witness :
  exists msg,
    snd (aggregateConfig Storefront.className Storefront.stringify [] Storefront.registered)
    = Throw (TypeError msg) /\
    snd (createGraphQLConfig Storefront.className Storefront.extern 8 Storefront.stringify
           Storefront.makeExecutableSchema Storefront.mergeSchemas []
           Storefront.registered) = Throw (TypeError msg) /\
    (isArray (get "schemas" (seedConfig [])) = true ->
     isArray (get "contextModifiers" (seedConfig [])) = true ->
     msg = "Cannot convert undefined or null to object").
Proof.
  apply (createGraphQLConfig_without_dataSources Storefront.className Storefront.extern 8
           Storefront.stringify Storefront.makeExecutableSchema Storefront.mergeSchemas
           [] Storefront.registered eq_refl).
  apply Exists_cons_tl. apply Exists_cons_hd. reflexivity.
Defined.

(** The shop's schema declares one root type with one field. *)
Lemma getExtensionGraphQLConfig_bindings_witness :
  exists resolvers,
    snd (getExtensionGraphQLConfig Storefront.className Storefront.getRootTypeFields
           (VString Storefront.shopSchema) "shop" emptyWorld) =
    Ret (VObject [("schema", VArray (toValueArray (VString Storefront.shopSchema)));
                  ("resolvers", VObject resolvers)]) /\
    (forall typeName fields,
        lookup typeName [("Query", ["products"])] = Some fields ->
        exists bound,
          get typeName resolvers = VObject bound /\
          forall fieldName,
            get fieldName bound =
            if inb fieldName fields then VFunction (PassThrough "shop" fieldName)
            else VUndefined) /\
    (forall typeName,
        lookup typeName [("Query", ["products"])] = None ->
        get typeName resolvers = VUndefined).
Proof.
  apply (getExtensionGraphQLConfig_bindings Storefront.className Storefront.getRootTypeFields
           (VString Storefront.shopSchema) "shop" [("Query", ["products"])] emptyWorld);
    [reflexivity | reflexivity |].
  repeat constructor; simpl; intuition.
Defined.

(** The search package brings neither an initializer nor a schema file. *)
Lemma registerExtensions_without_schema_witness :
  entries (fst (Storefront.register [("search", Incidents.search)] Storefront.registered)) =
  set "search" [] (entries Storefront.registered) /\
  emitted (fst (Storefront.register [("search", Incidents.search)] Storefront.registered)) =
  emitted Storefront.registered ++
  [registeredEvent Storefront.EXTENSION_REGISTERED "search" []].
Proof.
  pose proof (registerExtensions_without_schema Storefront.className Storefront.extern 8
                Storefront.stringify Storefront.importModule Storefront.requireResolve
                Storefront.readFileSync Storefront.pathJoin Storefront.cwd
                Storefront.deepMerge Storefront.getRootTypeFields
                Storefront.EXTENSION_REGISTERED Storefront.emitAsync
                "search" Incidents.search [] Storefront.registered eq_refl eq_refl)
    as (Hentries & Hemitted & _).
  split; [exact Hentries | exact Hemitted].
Defined.

(** The shop brings an initializer and a schema file. *)
Lemma registerExtensions_with_schema_witness :
  entries (fst (Storefront.register [("shop", Storefront.shop)] emptyWorld)) =
  set "shop"
    (Storefront.deepMerge
       [("context", VFunction (Extern "shop.context")); ("playground", VBool true);
        ("tracing", VUndefined)]
       (VObject [("schema", VArray [VString Storefront.shopSchema]);
                 ("resolvers",
                  VObject (fold_left (bindTypeResult "shop") [("Query", ["products"])] []))]))
    [].
Proof.
  exact (proj1 (registerExtensions_with_schema Storefront.className Storefront.extern 8
                  Storefront.stringify Storefront.importModule Storefront.requireResolve
                  Storefront.readFileSync Storefront.pathJoin Storefront.cwd
                  Storefront.deepMerge Storefront.getRootTypeFields
                  Storefront.EXTENSION_REGISTERED Storefront.emitAsync
                  "shop" Storefront.shop Storefront.shopSchema
                  [("context", VFunction (Extern "shop.context")); ("playground", VBool true);
                   ("tracing", VUndefined)]
                  emptyWorld eq_refl eq_refl eq_refl)
               [("Query", ["products"])] eq_refl).
Defined.

(** The shop, then the reviews, whose initializer throws, then the blog. *)
Lemma registerExtensions_stops_at_failure_witness :
  snd (Incidents.register
         [("shop", Storefront.shop); ("reviews", Incidents.reviews);
          ("blog", Storefront.blog)] emptyWorld) =
  Throw (Error "reviews.init is not defined") /\
  entries (fst (Incidents.register
                  [("shop", Storefront.shop); ("reviews", Incidents.reviews);
                   ("blog", Storefront.blog)] emptyWorld)) =
  entries (fst (Incidents.register [("shop", Storefront.shop)] emptyWorld)) /\
  emitted (fst (Incidents.register
                  [("shop", Storefront.shop); ("reviews", Incidents.reviews);
                   ("blog", Storefront.blog)] emptyWorld)) =
  emitted (fst (Incidents.register [("shop", Storefront.shop)] emptyWorld)).
Proof.
  apply (registerExtensions_stops_at_failure Storefront.className Storefront.extern 8
           Storefront.stringify Incidents.importModule Storefront.requireResolve
           Storefront.readFileSync Storefront.pathJoin Storefront.cwd
           Storefront.deepMerge Storefront.getRootTypeFields
           Storefront.EXTENSION_REGISTERED Storefront.emitAsync
           [("shop", Storefront.shop)] [("blog", Storefront.blog)]
           "reviews" Incidents.reviews (Error "reviews.init is not defined") emptyWorld
           (fst (Incidents.register [("shop", Storefront.shop)] emptyWorld)));
    reflexivity.
Defined.

(** The shop and the blog registered in front of a listener that throws. *)
Lemma registerExtensions_listener_failure_witness :
  snd (Incidents.announce [("shop", Storefront.shop); ("blog", Storefront.blog)] emptyWorld) =
  Throw (Error "listener failed") /\
  entries (fst (Incidents.announce
                  [("shop", Storefront.shop); ("blog", Storefront.blog)] emptyWorld)) =
  set "shop" Incidents.shopConfig [] /\
  emitted (fst (Incidents.announce
                  [("shop", Storefront.shop); ("blog", Storefront.blog)] emptyWorld)) =
  [] ++ [registeredEvent Storefront.EXTENSION_REGISTERED "shop" Incidents.shopConfig].
Proof.
  apply (registerExtensions_listener_failure Storefront.className Storefront.extern 8
           Storefront.stringify Storefront.importModule Storefront.requireResolve
           Storefront.readFileSync Storefront.pathJoin Storefront.cwd
           Storefront.deepMerge Storefront.getRootTypeFields
           Storefront.EXTENSION_REGISTERED Incidents.emitAsync
           "shop" Storefront.shop [("blog", Storefront.blog)] Incidents.shopConfig
           (Error "listener failed") emptyWorld);
    reflexivity.
Defined.

(** The shop and the blog registered in the empty container. *)
Lemma registerExtensions_events_match_registry_witness :
  exists configs,
    Forall2 (fun extension extGqlConfig =>
               forall w0,
                 snd (resolveExtensionConfig Storefront.className Storefront.extern 8
                        Storefront.stringify Storefront.importModule
                        Storefront.requireResolve Storefront.readFileSync
                        Storefront.pathJoin Storefront.cwd Storefront.deepMerge
                        Storefront.getRootTypeFields (fst extension) (snd extension) w0) =
                 Ret extGqlConfig)
            [("shop", Storefront.shop); ("blog", Storefront.blog)] configs /\
    emitted Storefront.registered =
    emitted emptyWorld ++
    map (fun entry => registeredEvent Storefront.EXTENSION_REGISTERED (fst entry) (snd entry))
        (combine (keys [("shop", Storefront.shop); ("blog", Storefront.blog)]) configs) /\
    (NoDup (keys [("shop", Storefront.shop); ("blog", Storefront.blog)]) ->
     (forall k, In k (keys [("shop", Storefront.shop); ("blog", Storefront.blog)]) ->
                lookup k (entries emptyWorld) = None) ->
     entries Storefront.registered =
     entries emptyWorld ++
     combine (keys [("shop", Storefront.shop); ("blog", Storefront.blog)]) configs).
Proof.
  apply (registerExtensions_events_match_registry Storefront.className Storefront.extern 8
           Storefront.stringify Storefront.importModule Storefront.requireResolve
           Storefront.readFileSync Storefront.pathJoin Storefront.cwd
           Storefront.deepMerge Storefront.getRootTypeFields
           Storefront.EXTENSION_REGISTERED Storefront.emitAsync
           [("shop", Storefront.shop); ("blog", Storefront.blog)] emptyWorld
           Storefront.registered).
  reflexivity.
Defined.

(** The resolvers of the storefront's aggregate. *)
Lemma aggregate_resolvers_in_registration_order_witness :
  get "resolvers" Storefront.aggregate =
  VArray ((if truthy (get "resolvers" Storefront.baseConfig)
              && negb (isArray (get "resolvers" Storefront.baseConfig))
           then [get "resolvers" Storefront.baseConfig] else []) ++
          flat_map (fun entry => ownResolvers (snd entry)) (entries Storefront.registered)).
Proof.
  exact (proj1 (aggregate_resolvers_in_registration_order Storefront.className
                  Storefront.stringify Storefront.baseConfig Storefront.registered
                  Storefront.aggregate eq_refl)).
Defined.

(** The context handler served from the storefront's registry. *)
Lemma createGraphQLConfig_context_modifiers_witness :
  cfg_context Incidents.served (VObject []) =
  contextHandler Storefront.className Storefront.extern 8
    (VArray ([] ++ flat_map (fun entry => ownContextModifiers (snd entry))
                            (entries Storefront.registered)))
    (VObject []).
Proof.
  refine (proj1 (proj2 (createGraphQLConfig_context_modifiers Storefront.className
                          Storefront.extern 8 Storefront.stringify
                          Storefront.makeExecutableSchema Storefront.mergeSchemas
                          Storefront.baseConfig Storefront.registered Incidents.served
                          _ eq_refl))
                [] (VObject []) eq_refl).
  repeat constructor; simpl; intuition discriminate.
Defined.

(** The blog's data source replaces the one of the same name and leaves
    the shop's. *)
Lemma mergeGraphQLConfig_assigns_dataSources_witness :
  get "dataSources"
    [("dataSources",
      VObject [("shop", VObject [("version", VNumber 1)]);
               ("blog", VObject [("version", VNumber 2)])])] =
  VObject
    (if definesOption "dataSources"
          [("dataSources", VObject [("blog", VObject [("version", VNumber 2)])])]
     then objectAssign [("shop", VObject [("version", VNumber 1)]); ("blog", VObject [])]
            (get "dataSources"
               [("dataSources", VObject [("blog", VObject [("version", VNumber 2)])])])
     else [("shop", VObject [("version", VNumber 1)]); ("blog", VObject [])]).
Proof.
  refine (proj1 (mergeGraphQLConfig_assigns_dataSources Storefront.className
                   Storefront.stringify
                   [("dataSources",
                     VObject [("shop", VObject [("version", VNumber 1)]);
                              ("blog", VObject [])])]
                   [("dataSources", VObject [("blog", VObject [("version", VNumber 2)])])]
                   "blog" emptyWorld
                   [("dataSources",
                     VObject [("shop", VObject [("version", VNumber 1)]);
                              ("blog", VObject [("version", VNumber 2)])])]
                   [("shop", VObject [("version", VNumber 1)]); ("blog", VObject [])]
                   _ eq_refl eq_refl)).
  repeat constructor; simpl; intuition.
Defined.

(** A schema option with a parsed document among its fragments. *)
Lemma mergeGraphQLConfig_non_string_schema_witness :
  In (LogWarn (nonStringSchemaMessage Storefront.stringify "shop" "schema"
                 (VObject [("kind", VString "Document")])))
     (logs (fst (mergeGraphQLConfig Storefront.className Storefront.stringify
                   (seedConfig [])
                   [("schema", VArray [VString Storefront.shopSchema;
                                       VObject [("kind", VString "Document")]])]
                   "shop" emptyWorld))) /\
  In (VObject [("kind", VString "Document")])
     (elements
        (get "schemas"
           (set "schemas"
              (VArray [VString Storefront.shopSchema; VObject [("kind", VString "Document")]])
              (seedConfig [])))).
Proof.
  apply (mergeGraphQLConfig_non_string_schema Storefront.className Storefront.stringify
           (seedConfig [])
           [("schema", VArray [VString Storefront.shopSchema;
                               VObject [("kind", VString "Document")]])]
           "shop" "schema" (VObject [("kind", VString "Document")]) emptyWorld
           (set "schemas"
              (VArray [VString Storefront.shopSchema; VObject [("kind", VString "Document")]])
              (seedConfig []))
           []);
    try reflexivity.
  - now left.
  - right. now left.
Defined.

(** The [debug] setting of the storefront's base configuration. *)
Lemma createGraphQLConfig_settings_witness :
  lookup "debug" (cfg_settings Incidents.served) = lookup "debug" Storefront.baseConfig /\
  lookup "resolvers" (cfg_settings Incidents.served) = None.
Proof.
  destruct (createGraphQLConfig_settings Storefront.className Storefront.extern 8
              Storefront.stringify Storefront.makeExecutableSchema Storefront.mergeSchemas
              Storefront.baseConfig Storefront.registered Incidents.served)
    as (Hremoved & Hkept & _).
  - repeat constructor; simpl; intuition discriminate.
  - reflexivity.
  - split; [exact (Hkept "debug" eq_refl) | exact (Hremoved "resolvers" eq_refl)].
Defined.

(** A request served by the shop alone. *)
Lemma fetchBackendConfig_merges_answers_witness :
  fetchBackendConfig Storefront.className Storefront.extern 8
    VNull (VObject []) Incidents.shopContext VNull emptyWorld =
  (addLogs emptyWorld (map fetchingMessage (keys [("shop", Incidents.shopApi)])),
   Ret (VObject
          (mergeBackendConfigs
             (filter truthy
                [VObject [("locales", strings ["en"; "de"]); ("currency", VString "EUR")]])))).
Proof.
  refine (proj1 (fetchBackendConfig_merges_answers Storefront.className Storefront.extern 8
                   VNull (VObject []) Incidents.shopContext VNull
                   (VObject [("shop", Incidents.shopApi)]) [("shop", Incidents.shopApi)]
                   [VObject [("locales", strings ["en"; "de"]); ("currency", VString "EUR")]]
                   emptyWorld eq_refl eq_refl _)).
  constructor; [| constructor].
  exists (VFunction (Extern "shop.fetchBackendConfig")). repeat split.
Defined.

(** The shop answers, the fetch of the content system throws. *)
Lemma fetchBackendConfig_fetch_failure_witness :
  fetchBackendConfig Storefront.className Storefront.extern 8
    VNull (VObject []) Incidents.cmsContext VNull emptyWorld =
  (addLogs emptyWorld (map fetchingMessage (keys [("shop", Incidents.shopApi)] ++ ["cms"])),
   Throw (Error "cms.fetchBackendConfig is not defined")).
Proof.
  refine (fetchBackendConfig_fetch_failure Storefront.className Storefront.extern 8
            VNull (VObject []) Incidents.cmsContext VNull
            (VObject [("shop", Incidents.shopApi); ("cms", Incidents.cmsApi);
                      ("blog", VObject [])])
            [("shop", Incidents.shopApi)] [("blog", VObject [])]
            [VObject [("locales", strings ["en"; "de"]); ("currency", VString "EUR")]]
            "cms" Incidents.cmsApi (VFunction (Extern "cms.fetchBackendConfig"))
            (Error "cms.fetchBackendConfig is not defined") emptyWorld
            eq_refl eq_refl _ eq_refl eq_refl eq_refl).
  constructor; [| constructor].
  exists (VFunction (Extern "shop.fetchBackendConfig")). repeat split.
Defined.

(** A literal context, a context function that is not defined, then the
    shop's. *)
Lemma contextHandler_modifier_throws_witness :
  contextHandler Storefront.className Storefront.extern 8
    (VArray ([VObject [("locale", VString "en")]] ++
             VFunction (Extern "auth.context") :: [VFunction (Extern "shop.context")]))
    (VObject []) =
  Throw (Error "auth.context is not defined").
Proof.
  exact (contextHandler_modifier_throws Storefront.className Storefront.extern 8
           (VObject []) [VObject [("locale", VString "en")]]
           [VFunction (Extern "shop.context")] (VFunction (Extern "auth.context"))
           [("locale", VString "en")] (Error "auth.context is not defined")
           eq_refl eq_refl eq_refl).
Defined.

(** The schema served from the storefront's registry. *)
Lemma createGraphQLConfig_schema_witness :
  exists executable,
    Storefront.makeExecutableSchema (get "schemas" Storefront.aggregate)
      (get "resolvers" Storefront.aggregate) = Ret executable /\
    Storefront.mergeSchemas [executable] (get "schemaDirectives" Storefront.baseConfig)
      (get "resolvers" Storefront.aggregate) = Ret (cfg_schema Incidents.served).
Proof.
  refine (proj1 (proj2 (createGraphQLConfig_schema Storefront.className Storefront.extern 8
                          Storefront.stringify Storefront.makeExecutableSchema
                          Storefront.mergeSchemas Storefront.baseConfig
                          Storefront.registered Storefront.aggregate _ eq_refl))
                Incidents.served eq_refl).
  repeat constructor; simpl; intuition discriminate.
Defined.

(** The blog's config: a schema in strings and data sources. *)
Lemma mergeGraphQLConfig_logs_no_warning_witness :
  logs (fst (mergeGraphQLConfig Storefront.className Storefront.stringify
               (seedConfig Storefront.baseConfig)
               [("dataSources", VObject [("blog", VObject [])]);
                ("schema", VArray [VString Storefront.blogSchema])]
               "blog" emptyWorld)) =
  logs emptyWorld ++ [mergingMessage Storefront.className "blog"].
Proof.
  apply (mergeGraphQLConfig_logs_no_warning Storefront.className Storefront.stringify
           (seedConfig Storefront.baseConfig)
           [("dataSources", VObject [("blog", VObject [])]);
            ("schema", VArray [VString Storefront.blogSchema])]
           "blog" emptyWorld).
  - intros name [<- | [<- | []]]; reflexivity.
  - intros name schemaItem [<- | [<- | []]]; [discriminate |].
    intros _ _ [<- | []]. reflexivity.
Defined.

(** The storefront's base configuration with a schema of its own. *)
Lemma aggregate_schemas_after_base_schemas_witness :
  get "schemas"
    (seedConfig (("schemas", VArray [VString "scalar Date"]) :: Storefront.baseConfig)) =
  VArray [VString "scalar Date"] /\
  get "schemas"
    (match snd (aggregateConfig Storefront.className Storefront.stringify
                  (("schemas", VArray [VString "scalar Date"]) :: Storefront.baseConfig)
                  Storefront.registered) with
     | Ret config => config
     | Throw _ => []
     end) =
  VArray ([VString "scalar Date"] ++
          flat_map (fun entry => ownSchemaFragments (snd entry))
                   (entries Storefront.registered)).
Proof.
  apply (aggregate_schemas_after_base_schemas Storefront.className Storefront.stringify
           (("schemas", VArray [VString "scalar Date"]) :: Storefront.baseConfig)
           [VString "scalar Date"] Storefront.registered).
  - repeat constructor; simpl; intuition discriminate.
  - reflexivity.
  - reflexivity.
Defined.

(** The two builds of the relaunched storefront, from the one base
    configuration object and from the base configuration as it first
    was. *)
Example relaunch_evaluated :
  servedDataSources (Relaunch.servedBy Storefront.baseConfig Relaunch.registered) =
  [("blog", VObject [])] /\
  Relaunch.baseConfig1 =
  [("dataSources", VObject [("blog", VObject [])]); ("debug", VBool false)] /\
  entries Relaunch.relaunched =
  [("shop", Incidents.shopConfig);
   ("blog", [("dataSources", VObject [("news", VObject [])])])] /\
  servedDataSources (Relaunch.servedBy Relaunch.baseConfig1 Relaunch.relaunched) =
  [("blog", VObject []); ("news", VObject [])] /\
  servedDataSources (Relaunch.servedBy Storefront.baseConfig Relaunch.relaunched) =
  [("news", VObject [])].
Proof. repeat split. Qed.

(** The blog's key registered again with the news package, between two
    builds from the storefront's base configuration object. *)
Lemma rebuild_from_same_base_keeps_replaced_config_witness :
  lookup "blog" (entries Relaunch.relaunched) =
  Some [("dataSources", VObject [("news", VObject [])])] /\
  bringsDataSource "blog" Relaunch.blogConfig = true /\
  lookup "blog"
    (servedDataSources (Relaunch.servedBy Relaunch.baseConfig1 Relaunch.relaunched)) =
  Some (VObject []) /\
  has_key "news"
    (servedDataSources (Relaunch.servedBy Relaunch.baseConfig1 Relaunch.relaunched)) = true /\
  lookup "blog"
    (servedDataSources (Relaunch.servedBy Storefront.baseConfig Relaunch.relaunched)) = None.
Proof.
  destruct (rebuild_from_same_base_keeps_replaced_config Storefront.className
              Relaunch.extern 8 Storefront.stringify Relaunch.importModule
              Storefront.requireResolve Storefront.readFileSync Storefront.pathJoin
              Storefront.cwd Storefront.deepMerge Storefront.getRootTypeFields
              Storefront.EXTENSION_REGISTERED Storefront.emitAsync
              Storefront.makeExecutableSchema Storefront.mergeSchemas
              Storefront.baseConfig [] "blog" Relaunch.news Relaunch.blogConfig
              [("dataSources", VObject [("news", VObject [])])]
              "blog" (VObject []) Relaunch.registered
              (Relaunch.servedBy Storefront.baseConfig Relaunch.registered)
              (Relaunch.servedBy Relaunch.baseConfig1 Relaunch.relaunched))
    as (Hnew & Hold & _ & _ & Hkept & Hbrought & Hfresh).
  - repeat constructor; simpl; intuition discriminate.
  - reflexivity.
  - reflexivity.
  - reflexivity.
  - reflexivity.
  - reflexivity.
  - reflexivity.
  - repeat constructor; simpl; intuition.
  - repeat constructor.
  - reflexivity.
  - exact (conj Hnew
             (conj Hold
                (conj Hkept
                   (conj (Hbrought "news" eq_refl)
                      (Hfresh (Relaunch.servedBy Storefront.baseConfig Relaunch.relaunched)
                         eq_refl))))).
Defined.
